(** * Texture compiler: a shallow embedding of [src/main.cpp]

    The development follows the program: single-precision arithmetic as the
    code computes it, the nvtt surfaces and compression options the four
    compile functions build, and the calls they make to their collaborators
    (stb_image, nvtt, SDL, bgfx) recorded as a trace of events; then [main]
    with its checks of the command line, the progress display, and the
    [HandleWrapper] that owns the bgfx handles. *)

From Stdlib Require Import ZArith List Bool String Lia Sorted.
From Stdlib Require Import Floats.SpecFloat.
From Equations Require Import Equations.
Import ListNotations.
Local Open Scope Z_scope.

(* ===================================================================== *)
(** ** IEEE 754 binary32, the C++ [float] *)
(* ===================================================================== *)

Module F32.
Definition prec : Z := 24.
Definition emax : Z := 128.

Definition float : Type := spec_float.

(** [static_cast<float>(n)] and integral literals such as [2.f]. *)
Definition of_Z (n : Z) : float := binary_normalize prec emax n 0 false.

Definition add : float -> float -> float := SFadd prec emax.
Definition sub : float -> float -> float := SFsub prec emax.
Definition mul : float -> float -> float := SFmul prec emax.
Definition div : float -> float -> float := SFdiv prec emax.
Definition sqrt : float -> float := SFsqrt prec emax.
Definition ltb : float -> float -> bool := SFltb.
Definition leb : float -> float -> bool := SFleb.

Definition zero : float := S754_zero false.
Definition one : float := of_Z 1.
Definition two : float := of_Z 2.
(** The literal [0.5f]. *)
Definition half : float := S754_finite false 8388608 (-24).

Definition eqb (a b : float) : bool :=
  match a, b with
  | S754_zero s, S754_zero t => Bool.eqb s t
  | S754_infinity s, S754_infinity t => Bool.eqb s t
  | S754_nan, S754_nan => true
  | S754_finite s m e, S754_finite t n f =>
      Bool.eqb s t && Pos.eqb m n && Z.eqb e f
  | _, _ => false
  end.
End F32.

Abbreviation float := F32.float.

(* ===================================================================== *)
(** ** Reconstruction of the blue normal channel (main.cpp 160-175) *)
(* ===================================================================== *)

(** The body of the loop at lines 166-174 for one pixel. *)
Definition blue_normal_pixel (red_normal green_normal : float) : float :=
  let red := F32.sub (F32.mul red_normal F32.two) F32.one in
  let green := F32.sub (F32.mul green_normal F32.two) F32.one in
  let dot := F32.add (F32.mul red red) (F32.mul green green) in
  if F32.ltb dot F32.one
  then F32.add (F32.mul (F32.sqrt (F32.sub F32.one dot)) F32.half) F32.half
  else (* Broken normal pixel. *) F32.half.

(** [blue_normal_channel] as the loop fills it: element [i] is computed from
    [red_normal_channel[i]] and [green_normal_channel[i]], for [i] below the
    vector's size. *)
Definition blue_normal_channel (size : nat)
    (red_normal_channel green_normal_channel : list float) : list float :=
  map (fun i => blue_normal_pixel (nth i red_normal_channel F32.zero)
                                  (nth i green_normal_channel F32.zero))
      (seq 0 size).

(** nvtt's conversion of an 8-bit unsigned-normalised input sample
    ([InputFormat_BGRA_8UB]): [float(byte) / 255.0f]. *)
Definition unorm8 (byte : Z) : float := F32.div (F32.of_Z byte) (F32.of_Z 255).

(** What the loop body computes before and after [dot]. *)
Definition expanded_square (channel : float) : float :=
  let c := F32.sub (F32.mul channel F32.two) F32.one in F32.mul c c.

Definition blue_of_dot (dot : float) : float :=
  if F32.ltb dot F32.one
  then F32.add (F32.mul (F32.sqrt (F32.sub F32.one dot)) F32.half) F32.half
  else F32.half.

Definition in_unit_upper_half (z : float) : bool :=
  F32.leb F32.half z && F32.leb z F32.one.

Definition all_bytes : list Z := map Z.of_nat (seq 0 256).

Fixpoint dedup (l : list float) : list float :=
  match l with
  | [] => []
  | x :: r => if existsb (F32.eqb x) r then dedup r else x :: dedup r
  end.

(** The distinct values [expanded_square] takes on the 256 byte samples. *)
Definition byte_squares : list float :=
  Eval vm_compute in dedup (map (fun k => expanded_square (unorm8 k)) all_bytes).

Fixpoint forall_pairs (P : float -> float -> bool) (l : list float) : bool :=
  match l with
  | [] => true
  | a :: r => forallb (P a) l && forall_pairs P r
  end.

Definition dot_in_range (a b : float) : bool :=
  in_unit_upper_half (blue_of_dot (F32.add a b)).

(* ===================================================================== *)
(** ** Integers of the program *)
(* ===================================================================== *)

(** [static_cast<uint16_t>], [static_cast<int>] and [int] subtraction
    (two's-complement wrap-around written out). *)
Definition uint16 (n : Z) : Z := n mod 65536.
Definition uint32 (n : Z) : Z := n mod 4294967296.
Definition int32 (n : Z) : Z := (n + 2147483648) mod 4294967296 - 2147483648.

(** The integers [lo, lo+1, ..., hi-1] a counting [for] loop visits. *)
Definition range (lo hi : Z) : list Z :=
  map (fun i => lo + Z.of_nat i) (seq 0 (Z.to_nat (hi - lo))).

(** main.cpp 554-561. [size] is a [size_t]; the loop halves it while it
    exceeds one. *)
Equations? count_mip_maps_loop (size : Z) (result : Z) : Z
    by wf (Z.to_nat size) lt :=
  count_mip_maps_loop size result with Z_lt_dec 1 size := {
    | left _ => count_mip_maps_loop (size / 2) (result + 1)
    | right _ => result }.
Proof. apply Z2Nat.inj_lt; try lia. apply Z.div_pos; lia. apply Z.div_lt; lia. Qed.

Definition count_mip_maps (size : Z) : Z := count_mip_maps_loop size 1.

(** The iterations of
    [for (size = s, mip_level = 0; size >= 1; size /= 2, mip_level++)]
    as the pairs [(size, mip_level)] the body sees (main.cpp 808, 965, 1011,
    1075). *)
Equations? mip_sizes (size : Z) (mip_level : Z) : list (Z * Z)
    by wf (Z.to_nat size) lt :=
  mip_sizes size mip_level with Z_le_dec 1 size := {
    | left _ => (size, mip_level) :: mip_sizes (size / 2) (mip_level + 1)
    | right _ => [] }.
Proof. apply Z2Nat.inj_lt; try lia. apply Z.div_pos; lia. apply Z.div_lt; lia. Qed.

(* ===================================================================== *)
(** ** nvtt: compression options and surfaces *)
(* ===================================================================== *)

Inductive Compression : Type :=
| GOOD_BUT_SLOW
| POOR_BUT_FAST
| NO_COMPRESSION.

Inductive Format : Type :=
| Format_RGB | Format_DXT1 | Format_BC3 | Format_BC4 | Format_BC6 | Format_BC7.

(** nvtt.h declares [Format_RGBA = Format_RGB]. *)
Definition Format_RGBA : Format := Format_RGB.

Inductive PixelType : Type := PixelType_UnsignedNorm | PixelType_Float.

(** The two overloads of [CompressionOptions::setPixelFormat]: a bit count
    with four channel masks, or four channel sizes. *)
Inductive PixelFormat : Type :=
| PixelFormat_default
| PixelFormat_masks (bitcount rmask gmask bmask amask : Z)
| PixelFormat_sizes (rsize gsize bsize asize : Z).

Record CompressionOptions : Type := {
  format : Format;
  pixel_format : PixelFormat;
  pixel_type : PixelType
}.

(** A freshly constructed [nvtt::CompressionOptions]. *)
Definition default_compression_options : CompressionOptions :=
  {| format := Format_DXT1;
     pixel_format := PixelFormat_default;
     pixel_type := PixelType_UnsignedNorm |}.

Definition setFormat (f : Format) (o : CompressionOptions) :=
  {| format := f; pixel_format := pixel_format o; pixel_type := pixel_type o |}.
Definition setPixelFormat (p : PixelFormat) (o : CompressionOptions) :=
  {| format := format o; pixel_format := p; pixel_type := pixel_type o |}.
Definition setPixelType (t : PixelType) (o : CompressionOptions) :=
  {| format := format o; pixel_format := pixel_format o; pixel_type := t |}.

Inductive WrapMode : Type := WrapMode_Clamp | WrapMode_Repeat | WrapMode_Mirror.
Inductive AlphaMode : Type :=
| AlphaMode_None | AlphaMode_Transparency | AlphaMode_Premultiplied.
Inductive InputFormat : Type :=
| InputFormat_BGRA_8UB | InputFormat_RGBA_16F | InputFormat_RGBA_32F.
Inductive TextureType : Type := TextureType_2D | TextureType_Cube.

(** An [nvtt::Surface]: four planes of floats and the three flags the
    program sets. *)
Record Surface : Type := {
  width : Z;
  height : Z;
  planes : list (list float);
  wrapMode : WrapMode;
  alphaMode : AlphaMode;
  isNormalMap : bool
}.

Definition channel (s : Surface) (c : nat) : list float := nth c (planes s) [].

(** A default-constructed surface holds no image. *)
Definition null_surface : Surface :=
  {| width := 0; height := 0; planes := [];
     wrapMode := WrapMode_Mirror; alphaMode := AlphaMode_None;
     isNormalMap := false |}.

Definition with_image (s : Surface) (w h : Z) (p : list (list float)) : Surface :=
  {| width := w; height := h; planes := p;
     wrapMode := wrapMode s; alphaMode := alphaMode s;
     isNormalMap := isNormalMap s |}.

Definition setWrapMode (m : WrapMode) (s : Surface) : Surface :=
  {| width := width s; height := height s; planes := planes s;
     wrapMode := m; alphaMode := alphaMode s; isNormalMap := isNormalMap s |}.
Definition setAlphaMode (m : AlphaMode) (s : Surface) : Surface :=
  {| width := width s; height := height s; planes := planes s;
     wrapMode := wrapMode s; alphaMode := m; isNormalMap := isNormalMap s |}.
Definition setNormalMap (b : bool) (s : Surface) : Surface :=
  {| width := width s; height := height s; planes := planes s;
     wrapMode := wrapMode s; alphaMode := alphaMode s; isNormalMap := b |}.

Definition pixel_count (w h : Z) : nat := Z.to_nat (w * h).

(** Sample [c] of every pixel of an interleaved four-channel buffer. *)
Definition deinterleave {A B : Type} (convert : A -> B) (d : A) (data : list A)
    (count : nat) (c : nat) : list B :=
  map (fun i => convert (nth (4 * i + c) data d)) (seq 0 count).

(** [setImage(InputFormat_BGRA_8UB, w, h, 1, data)]: the bytes of a pixel are
    blue, green, red, alpha; channel 0 of the surface is red. *)
Definition image_of_bgra8 (w h : Z) (data : list Z) : list (list float) :=
  let plane := deinterleave unorm8 0 data (pixel_count w h) in
  [plane 2%nat; plane 1%nat; plane 0%nat; plane 3%nat].

(** [setImage(InputFormat_RGBA_32F, w, h, 1, r, g, b, a)]: four planes, each
    read for [w * h] floats. *)
Definition image_of_planes (w h : Z) (r g b a : list float) : list (list float) :=
  map (firstn (pixel_count w h)) [r; g; b; a].

(** [copyChannel(src, c)] copies plane [c] when the sizes agree and does
    nothing otherwise. *)
Definition set_plane (c : nat) (p : list float) (l : list (list float)) :=
  firstn c l ++ p :: skipn (S c) l.

Definition copyChannel (src : Surface) (c : nat) (dst : Surface) : Surface :=
  if (width src =? width dst) && (height src =? height dst)
  then with_image dst (width dst) (height dst)
         (set_plane c (channel src c) (planes dst))
  else dst.

(** The [std::swap] loop "Convert RGBA to BGRA" (main.cpp 70-72, 150-152):
    bytes 0 and 2 of each pixel are exchanged. *)
Definition swap_red_blue (count : nat) (data : list Z) : list Z :=
  map (fun j => let i := (j / 4)%nat in
                if (i <? count)%nat then
                  match (j mod 4)%nat with
                  | 0%nat => nth (j + 2) data 0
                  | 2%nat => nth (j - 2) data 0
                  | _ => nth j data 0
                  end
                else nth j data 0)
      (seq 0 (List.length data)).

(* ===================================================================== *)
(** ** Calls to the collaborators *)
(* ===================================================================== *)

(** GPU textures, named as the program names them with [bgfx::setName] or
    by the variable that holds the handle. *)
Inductive Texture : Type :=
| original_texture
| cube_side_texture (side : Z)
| cube_map_texture
| irradiance_texture (side : Z)
| prefilter_texture (side mip_level : Z)
| blit_texture.

(** What a frame buffer renders into: a whole 2D texture, or one face and
    mip of the cube texture ([bgfx::Attachment::init]). *)
Inductive Target : Type :=
| whole_texture (t : Texture)
| cube_attachment (t : Texture) (side mip_level : Z).

Inductive Shaders : Type := CUBE_MAP_SHADER | IRRADIANCE_SHADER | PREFILTER_SHADER.

(** The two tables of view matrices (main.cpp 516-532). *)
Inductive ViewTable : Type := CUBE_MAP_VIEWS | CUBE_MAP_VIEWS_GLSL.

(** One event per call that leaves the program. The calls that configure a
    view before [bgfx::submit] (name, clear, frame buffer, rectangle,
    transform, vertex buffer, input texture, uniform, state) are folded into
    the submit event. Not recorded: progress and timing output, the carriage
    return some messages start with, [bgfx::setPlatformData], [bgfx::reset],
    [stbi_set_flip_vertically_on_load], [bgfx::setName], and the release of
    handles and buffers by destructors and [clear]. *)
Inductive Event : Type :=
| EvPrint (message : string)
| EvStbiLoad (path : string)
| EvStbiLoadf (path : string)
| EvSetImage (input_format : option InputFormat) (w h : Z)
| EvSetFileName (path : string)
| EvOutputHeader (file : string) (type : TextureType) (w h mips : Z)
    (normal_map : bool) (options : CompressionOptions)
| EvCompress (file : string) (surface : Surface) (face mip_level : Z)
    (options : CompressionOptions)
| EvBuildNextMipmap (surface : Surface)
| EvSdlInit
| EvCreateWindow
| EvGetWindowWMInfo
| EvBgfxInit
| EvCreateTexture (t : Texture) (w h : Z)
| EvCreateVertexBuffer
| EvCreateUniform (name : string)
| EvCreateShader (shaders : Shaders) (name : string)
| EvCreateProgram (shaders : Shaders)
| EvCreateFrameBuffer (target : Target)
| EvSubmit (view : Z) (target : Target) (size : Z)
    (views : ViewTable) (side : Z)
    (input : Texture) (program : Shaders) (settings : option (list float))
| EvBlit (view : Z) (source : Texture) (size : Z)
| EvReadTexture (frame_id : Z)
| EvFrame (current_frame_id : Z)
| EvDestroyShader (name : string)
| EvDestroyTexture (t : Texture).

Inductive RendererType : Type := OpenGL | OpenGLES | OtherRenderer.

(** The collaborators, as far as the program depends on them. A call that can
    fail asks [succeeds] with the trace up to and including the call; so the
    outcome may depend on everything that happened before. *)
Record World : Type := {
  (** stb_image: width, height and the four-channel samples, or null. *)
  stbi_load : string -> option (Z * Z * list Z);
  stbi_loadf : string -> option (Z * Z * list float);
  succeeds : list Event -> bool;
  (** nvtt internals the program does not look into. *)
  countMipmaps : Surface -> Z;
  box_mipmap : Surface -> Surface;
  expandNormals : Surface -> Surface;
  normalizeNormalMap : Surface -> Surface;
  packNormals : Surface -> Surface;
  (** Plane [c] of an image allocated by [setImage(w, h, 1)]. *)
  fresh_plane : Z -> Z -> nat -> list float;
  half_to_float : Z -> float;
  (** bgfx. *)
  getRendererType : RendererType;
  read_latency : list Event -> Z;
  read_back : list Event -> list Z
}.

(* ===================================================================== *)
(** ** The state and early-return monad of the compile functions *)
(* ===================================================================== *)

(** [current_view] is the view counter of [compile_cube_map]; [frame_no] is
    the frame counter of bgfx, advanced by [bgfx::frame]. *)
Record St : Type := {
  trace : list Event;
  current_view : Z;
  frame_no : Z
}.

Definition initial : St := {| trace := []; current_view := 0; frame_no := 0 |}.

(** A statement either falls through with a value or executes [return]. *)
Inductive Res (A : Type) : Type :=
| Value (a : A)
| Returned (code : Z).
Arguments Value {A} a.
Arguments Returned {A} code.

Definition M (A : Type) : Type := St -> St * Res A.

Definition pure {A : Type} (a : A) : M A := fun s => (s, Value a).

Definition bind {A B : Type} (m : M A) (k : A -> M B) : M B :=
  fun s => match m s with
           | (s', Value a) => k a s'
           | (s', Returned code) => (s', Returned code)
           end.

Definition return_ {A : Type} (code : Z) : M A := fun s => (s, Returned code).

Declare Scope prog_scope.
Delimit Scope prog_scope with prog.
Notation "x <- m ;; k" := (bind m (fun x => k))
  (at level 61, m at next level, right associativity) : prog_scope.
Notation "' p <- m ;; k" := (bind m (fun x => match x with p => k end))
  (at level 61, p pattern, m at next level, right associativity) : prog_scope.
Notation "m ;; k" := (bind m (fun _ => k))
  (at level 61, right associativity) : prog_scope.
Local Open Scope prog_scope.

Definition add_event (s : St) (e : Event) : St :=
  {| trace := trace s ++ [e];
     current_view := current_view s;
     frame_no := frame_no s |}.

Definition emit (e : Event) : M unit := fun s => (add_event s e, Value tt).

Definition print (message : string) : M unit := emit (EvPrint message).

(** [if (!ok) { std::cout << message; return 1; }] *)
Definition require (ok : bool) (message : string) : M unit :=
  if ok then pure tt else (print message ;; return_ 1).

(** [if (!ok) { return 1; }], the error being printed by nvtt's handler. *)
Definition require_quiet (ok : bool) : M unit :=
  if ok then pure tt else return_ 1.

Fixpoint for_each {A : Type} (l : list A) (body : A -> M unit) : M unit :=
  match l with
  | [] => pure tt
  | x :: r => body x ;; for_each r body
  end.

(** A loop that updates local variables of type [V]. *)
Fixpoint fold_each {A V : Type} (l : list A) (body : V -> A -> M V) (v : V)
    : M V :=
  match l with
  | [] => pure v
  | x :: r => v' <- body v x ;; fold_each r body v'
  end.

Definition exit_code {A : Type} (r : Res A) : Z :=
  match r with
  | Returned code => code
  | Value _ => 0
  end.

(** Running a compile function from the initial state: the events and the
    value handed to [main]. *)
Definition run (m : M unit) : list Event * Z :=
  let (s, r) := m initial in (trace s, exit_code r).

(* ===================================================================== *)
(** ** The compile functions for 2D textures (main.cpp 57-340) *)
(* ===================================================================== *)

(** The condition of the [if] at lines 64 and 144. *)
Definition size_rejected (w h : Z) : bool :=
  (w <=? 0) || (h <=? 0) || (w >? 65535) || (h >? 65535)
  || negb (Z.land w (int32 (w - 1)) =? 0)
  || negb (Z.land h (int32 (h - 1)) =? 0).

(** The condition of the [if] at line 275, which compares with [== 0]. *)
Definition size_rejected_parallax (w h : Z) : bool :=
  (w =? 0) || (h =? 0) || (w >? 65535) || (h >? 65535)
  || negb (Z.land w (int32 (w - 1)) =? 0)
  || negb (Z.land h (int32 (h - 1)) =? 0).

(** The [switch] at lines 92-102 and 211-221. *)
Definition color_compression_options (compression : Compression)
    : CompressionOptions :=
  match compression with
  | GOOD_BUT_SLOW => setFormat Format_BC7 default_compression_options
  | POOR_BUT_FAST => setFormat Format_BC3 default_compression_options
  | NO_COMPRESSION => setFormat Format_RGBA default_compression_options
  end.

(** The [switch] at lines 298-308. *)
Definition parallax_compression_options (compression : Compression)
    : CompressionOptions :=
  match compression with
  | GOOD_BUT_SLOW | POOR_BUT_FAST =>
      (* BC4 is fast and good enough for both production and development. *)
      setFormat Format_BC4 default_compression_options
  | NO_COMPRESSION =>
      setPixelFormat (PixelFormat_masks 8 255 0 0 0)
        (setFormat Format_RGBA default_compression_options)
  end.

Definition surface_flags (normal_map : bool) (s : Surface) : Surface :=
  setNormalMap normal_map
    (setAlphaMode AlphaMode_Transparency (setWrapMode WrapMode_Repeat s)).

Section Program.

Variable W : World.

(** A call whose result the program tests. *)
Definition call (e : Event) : M bool :=
  fun s => let s' := add_event s e in (s', Value (succeeds W (trace s'))).

Definition compile_albedo_roughness (input output : string)
    (compression : Compression) : M unit :=
  emit (EvStbiLoad input) ;;
  match stbi_load W input with
  | None => print "Texture compiler error. Failed to load a texture." ;; return_ 1
  | Some (w, h, data) =>
    require (negb (size_rejected w h))
      "Texture compiler error. Image size is not power of two." ;;
    (* Convert RGBA to BGRA. *)
    let data := swap_red_blue (pixel_count w h) data in
    ok <- call (EvSetImage (Some InputFormat_BGRA_8UB) w h) ;;
    require ok "Texture compiler error. Failed to set an image." ;;
    let surface := with_image null_surface w h (image_of_bgra8 w h data) in
    let surface := surface_flags false surface in
    emit (EvSetFileName output) ;;
    let compression_options := color_compression_options compression in
    let total_mip_levels := countMipmaps W surface in
    ok <- call (EvOutputHeader output TextureType_2D (width surface)
                  (height surface) total_mip_levels (isNormalMap surface)
                  compression_options) ;;
    require_quiet ok ;;
    fold_each (range 0 total_mip_levels) (fun surface mip_level =>
      ok <- call (EvCompress output surface 0 mip_level compression_options) ;;
      require_quiet ok ;;
      if mip_level + 1 <? total_mip_levels then
        ok <- call (EvBuildNextMipmap surface) ;;
        require ok "Texture compiler error. Failed to build a mip map." ;;
        pure (box_mipmap W surface)
      else pure surface) surface ;;
    return_ 0
  end.

(** The body of the loop at lines 235-259; the loop updates [surface],
    [normal] and [metalness_ambient_occlusion]. *)
Definition compress_packed_level (output : string)
    (compression_options : CompressionOptions) (total_mip_levels : Z)
    (surfaces : Surface * Surface * Surface) (mip_level : Z)
    : M (Surface * Surface * Surface) :=
  let '(surface, normal, metalness_ambient_occlusion) := surfaces in
  (* The result of this [setImage] is not tested. *)
  ok <- call (EvSetImage (Some InputFormat_RGBA_32F) (width normal)
                (height normal)) ;;
  let surface :=
    if ok then
      with_image surface (width normal) (height normal)
        (image_of_planes (width normal) (height normal)
           (channel normal 0) (channel normal 1)
           (channel metalness_ambient_occlusion 2)
           (channel metalness_ambient_occlusion 3))
    else surface in
  ok <- call (EvCompress output surface 0 mip_level compression_options) ;;
  require_quiet ok ;;
  if mip_level + 1 <? total_mip_levels then
    ok <- call (EvBuildNextMipmap normal) ;;
    require ok "Texture compiler error. Failed to build a normal mip map." ;;
    let normal :=
      packNormals W (normalizeNormalMap W (expandNormals W
        (box_mipmap W normal))) in
    ok <- call (EvBuildNextMipmap metalness_ambient_occlusion) ;;
    require ok "Texture compiler error. Failed to build a metalness ambient occlusion mip map." ;;
    pure (surface, normal, box_mipmap W metalness_ambient_occlusion)
  else pure (surface, normal, metalness_ambient_occlusion).

Definition compile_normal_metalness_ambient_occlusion (input output : string)
    (compression : Compression) : M unit :=
  emit (EvStbiLoad input) ;;
  match stbi_load W input with
  | None => print "Texture compiler error. Failed to load a texture." ;; return_ 1
  | Some (w, h, data) =>
    require (negb (size_rejected w h))
      "Texture compiler error. Image size is not power of two." ;;
    (* Convert RGBA to BGRA. *)
    let data := swap_red_blue (pixel_count w h) data in
    ok <- call (EvSetImage (Some InputFormat_BGRA_8UB) w h) ;;
    require ok "Texture compiler error. Failed to set an image." ;;
    let surface := with_image null_surface w h (image_of_bgra8 w h data) in
    let red_normal_channel := channel surface 0 in
    let green_normal_channel := channel surface 1 in
    (* Reconstruct blue normal map channel. *)
    let blue_normal_channel :=
      blue_normal_channel (pixel_count w h) red_normal_channel
        green_normal_channel in
    (* Opaque normal map. *)
    let alpha_normal_channel := repeat F32.one (pixel_count w h) in
    ok <- call (EvSetImage (Some InputFormat_RGBA_32F) w h) ;;
    require ok "Texture compiler error. Failed to set an image." ;;
    let normal :=
      with_image null_surface w h
        (image_of_planes w h red_normal_channel green_normal_channel
           blue_normal_channel alpha_normal_channel) in
    let normal := surface_flags true normal in
    ok <- call (EvSetImage None w h) ;;
    require ok "Texture compiler error. Failed to set an image." ;;
    let metalness_ambient_occlusion :=
      with_image null_surface w h
        (map (fresh_plane W w h) [0; 1; 2; 3]%nat) in
    let metalness_ambient_occlusion :=
      copyChannel surface 2 metalness_ambient_occlusion in
    let metalness_ambient_occlusion :=
      copyChannel surface 3 metalness_ambient_occlusion in
    let metalness_ambient_occlusion :=
      surface_flags false metalness_ambient_occlusion in
    emit (EvSetFileName output) ;;
    let compression_options := color_compression_options compression in
    let total_mip_levels := countMipmaps W surface in
    ok <- call (EvOutputHeader output TextureType_2D (width surface)
                  (height surface) total_mip_levels (isNormalMap surface)
                  compression_options) ;;
    require_quiet ok ;;
    fold_each (range 0 total_mip_levels)
      (compress_packed_level output compression_options total_mip_levels)
      (surface, normal, metalness_ambient_occlusion) ;;
    return_ 0
  end.

Definition compile_parallax (input output : string)
    (compression : Compression) : M unit :=
  emit (EvStbiLoad input) ;;
  match stbi_load W input with
  | None => print "Texture compiler error. Failed to load a texture." ;; return_ 1
  | Some (w, h, data) =>
    require (negb (size_rejected_parallax w h))
      "Texture compiler error. Image size is not power of two." ;;
    ok <- call (EvSetImage (Some InputFormat_BGRA_8UB) w h) ;;
    require ok "Texture compiler error. Failed to set a texture." ;;
    let surface := with_image null_surface w h (image_of_bgra8 w h data) in
    let surface := surface_flags false surface in
    emit (EvSetFileName output) ;;
    let compression_options := parallax_compression_options compression in
    let total_mip_levels := countMipmaps W surface in
    ok <- call (EvOutputHeader output TextureType_2D (width surface)
                  (height surface) total_mip_levels (isNormalMap surface)
                  compression_options) ;;
    require_quiet ok ;;
    fold_each (range 0 total_mip_levels) (fun surface mip_level =>
      ok <- call (EvCompress output surface 0 mip_level compression_options) ;;
      require_quiet ok ;;
      if mip_level + 1 <? total_mip_levels then
        ok <- call (EvBuildNextMipmap surface) ;;
        if ok then pure (box_mipmap W surface)
        else
          (* The failure is reported and the loop goes on. *)
          print "Texture compiler error. Failed to build a mip map." ;;
          pure surface
      else pure surface) surface ;;
    return_ 0
  end.

(* --------------------------------------------------------------------- *)
(** *** [compile_cube_map] (main.cpp 563-1117) *)

(** The condition of the [if] at line 614. *)
Definition hdr_size_rejected (w h : Z) : bool :=
  (w <=? 0) || (h <=? 0) || (w >? 65535) || (h >? 65535).

(** The [switch] at lines 719-733. *)
Definition cube_map_compression_options (compression : Compression)
    : CompressionOptions :=
  match compression with
  | GOOD_BUT_SLOW => setFormat Format_BC6 default_compression_options
  | POOR_BUT_FAST =>
      (* BC6 is quite slow on big HDR textures. *)
      setFormat Format_BC3 default_compression_options
  | NO_COMPRESSION =>
      (* R16G16B16A16. *)
      setPixelType PixelType_Float
        (setPixelFormat (PixelFormat_sizes 16 16 16 16)
           (setFormat Format_RGB default_compression_options))
  end.

(** Lines 902-906: no [switch], whatever [compression] is. *)
Definition irradiance_compression_options : CompressionOptions :=
  setPixelType PixelType_Float
    (setPixelFormat (PixelFormat_sizes 16 16 16 16)
       (setFormat Format_RGB default_compression_options)).

(** The [switch] at lines 1046-1058. *)
Definition prefilter_compression_options (compression : Compression)
    : CompressionOptions :=
  match compression with
  | GOOD_BUT_SLOW | POOR_BUT_FAST =>
      (* BC6 is quite fast for small prefilter texture. *)
      setFormat Format_BC6 default_compression_options
  | NO_COMPRESSION =>
      (* R16G16B16A16. *)
      setPixelType PixelType_Float
        (setPixelFormat (PixelFormat_sizes 16 16 16 16)
           (setFormat Format_RGBA default_compression_options))
  end.

(** Lines 1031-1032. *)
Definition MAX_MIP_LEVELS : Z := 4.

Definition prefilter_settings (mip_level output_size : Z) : list float :=
  [ F32.div (F32.of_Z (Z.min mip_level MAX_MIP_LEVELS)) (F32.of_Z MAX_MIP_LEVELS);
    F32.of_Z output_size; F32.zero; F32.zero ].

(** [setImage(InputFormat_RGBA_16F, w, h, 1, data)]. *)
Definition image_of_rgba16f (w h : Z) (data : list Z) : list (list float) :=
  let plane := deinterleave (half_to_float W) 0 data (pixel_count w h) in
  [plane 0%nat; plane 1%nat; plane 2%nat; plane 3%nat].

Definition create (e : Event) (message : string) : M unit :=
  ok <- call e ;; require ok message.

Definition get_view : M Z := fun s => (s, Value (current_view s)).

(** [current_view++] on a [bgfx::ViewId], a [uint16_t]. *)
Definition next_view : M unit :=
  fun s => ({| trace := trace s;
               current_view := uint16 (current_view s + 1);
               frame_no := frame_no s |}, Value tt).

(** [bgfx::readTexture]: the frame at which the copy is available, some
    frames after the current one, and what the buffer holds by then. *)
Definition readTexture : M (Z * list Z) :=
  fun s =>
    let frame_id := uint32 (frame_no s + read_latency W (trace s)) in
    let s' := add_event s (EvReadTexture frame_id) in
    (s', Value (frame_id, read_back W (trace s'))).

(** [do { current_frame_id = bgfx::frame(); } while (current_frame_id < frame_id);]
    with [frame_id] and [current_frame_id] of type [uint32_t];
    [bgfx::frame] advances the frame counter by one. *)
Equations? wait_until_available (frame_id : Z) (s : St) : St * Res Z
    by wf (Z.to_nat (uint32 frame_id - uint32 (frame_no s + 1))) lt :=
  wait_until_available frame_id s
    with Z_lt_dec (uint32 (frame_no s + 1)) (uint32 frame_id) := {
    | left _ =>
        wait_until_available frame_id
          {| trace := trace s ++ [EvFrame (uint32 (frame_no s + 1))];
             current_view := current_view s;
             frame_no := uint32 (frame_no s + 1) |}
    | right _ =>
        ({| trace := trace s ++ [EvFrame (uint32 (frame_no s + 1))];
            current_view := current_view s;
            frame_no := uint32 (frame_no s + 1) |},
         Value (uint32 (frame_no s + 1))) }.
Proof.
  unfold uint32 in *.
  pose proof (Z.mod_pos_bound (frame_no s + 1) 4294967296 eq_refl).
  pose proof (Z.mod_pos_bound frame_id 4294967296 eq_refl).
  rewrite (Z.mod_small ((frame_no s + 1) mod 4294967296 + 1)) by lia.
  apply Z2Nat.inj_lt; lia.
Qed.

(** Lines 754-775, 926-947 and 1080-1101: blit the render target into a
    texture that can be read back, wait for the copy, and make a surface of
    it. [size] is the [uint16_t] side of the texture, [image_size] the [int]
    given to [setImage]. *)
Definition read_back_surface (source : Texture) (size image_size : Z)
    (no_texture no_surface : string) : M Surface :=
  view <- get_view ;;
  create (EvCreateTexture blit_texture size size) no_texture ;;
  emit (EvBlit view source size) ;;
  '(frame_id, data_to_save) <- readTexture ;;
  (* Wait until read back is available. *)
  wait_until_available frame_id ;;
  emit (EvDestroyTexture blit_texture) ;;
  ok <- call (EvSetImage (Some InputFormat_RGBA_16F) image_size image_size) ;;
  require ok no_surface ;;
  pure (with_image null_surface image_size image_size
          (image_of_rgba16f image_size image_size data_to_save)).

(** Lines 660-681, 848-869 and 979-1000. *)
Definition create_program (shaders : Shaders) (fragment_name : string)
    (no_vertex no_fragment no_program : string) : M unit :=
  create (EvCreateShader shaders "cube_map_shader_vertex") no_vertex ;;
  ok <- call (EvCreateShader shaders fragment_name) ;;
  (if ok then pure tt
   else print no_fragment ;;
        emit (EvDestroyShader "cube_map_shader_vertex") ;; return_ 1) ;;
  ok <- call (EvCreateProgram shaders) ;;
  if ok then pure tt
  else print no_program ;;
       emit (EvDestroyShader fragment_name) ;;
       emit (EvDestroyShader "cube_map_shader_vertex") ;; return_ 1.

(** Lines 633-640. *)
Definition cube_map_view_matrices : ViewTable :=
  match getRendererType W with
  | OpenGL | OpenGLES => CUBE_MAP_VIEWS_GLSL
  | OtherRenderer => CUBE_MAP_VIEWS
  end.

(** A rendering pass: the frame buffer is created, then the view is set up
    and submitted. *)
Definition render_pass (target : Target) (size side : Z) (input : Texture)
    (program : Shaders) (settings : option (list float))
    (no_frame_buffer : string) : M unit :=
  view <- get_view ;;
  create (EvCreateFrameBuffer target) no_frame_buffer ;;
  emit (EvSubmit view target size cube_map_view_matrices side input program
          settings).

(** Lines 567-602. *)
Definition initialize : M unit :=
  create EvSdlInit "Texture compiler error. Failed to initialize a video subsystem." ;;
  create EvCreateWindow "Texture compiler error. Failed to initialize a window." ;;
  create EvGetWindowWMInfo "Texture compiler error. Failed to get system window handle." ;;
  create EvBgfxInit "Texture compiler error. Failed to initialize a renderer.".

(** Lines 608-617. *)
Definition load_hdr (input : string) : M (Z * Z) :=
  emit (EvStbiLoadf input) ;;
  match stbi_loadf W input with
  | None => print "Texture compiler error. Failed to open texture file." ;; return_ 1
  | Some (w, h, _) =>
    require (negb (hdr_size_rejected w h))
      "Texture compiler error. Texture is too big." ;;
    pure (w, h)
  end.

(** Lines 619-681. *)
Definition create_resources (w h output_size : Z) : M unit :=
  create (EvCreateTexture original_texture w h)
    "Texture compiler error. Failed to create HDR texture." ;;
  create EvCreateVertexBuffer
    "Texture compiler error. Failed to create cube vertex buffer." ;;
  create (EvCreateUniform "s_texture")
    "Texture compiler error. Failed to create texture uniform." ;;
  for_each (range 0 6) (fun side =>
    create (EvCreateTexture (cube_side_texture side)
              (uint16 output_size) (uint16 output_size))
      "Texture compiler error. Failed to create cube map side texture.") ;;
  create_program CUBE_MAP_SHADER "cube_map_shader_fragment"
    "Texture compiler error. Failed to create cube map vertex shader."
    "Texture compiler error. Failed to create cube map fragment shader."
    "Texture compiler error. Failed to create cube map program.".

(** Lines 686-709: cube map sides to read back from. *)
Definition capture_cube_sides (output_size : Z) : M unit :=
  for_each (range 0 6) (fun side =>
    render_pass (whole_texture (cube_side_texture side)) (uint16 output_size)
      side original_texture CUBE_MAP_SHADER None
      "Texture compiler error. Failed to create cube map side frame buffer." ;;
    next_view).

(** The mip loop of lines 777-791 for one side. *)
Definition compress_mip_chain (file : string) (side total_mip_levels : Z)
    (options : CompressionOptions) (surface : Surface) : M Surface :=
  fold_each (range 0 total_mip_levels) (fun surface mip_level =>
    ok <- call (EvCompress file surface side mip_level options) ;;
    require_quiet ok ;;
    if mip_level + 1 <? total_mip_levels then
      ok <- call (EvBuildNextMipmap surface) ;;
      require ok "Texture compiler error. Failed to build a cube map mip map." ;;
      pure (box_mipmap W surface)
    else pure surface) surface.

(** Lines 711-792. *)
Definition compress_cube_map (output : string) (output_size : Z)
    (compression : Compression) : M unit :=
  emit (EvSetFileName output) ;;
  let cube_map_compression_options := cube_map_compression_options compression in
  let total_mip_levels := count_mip_maps output_size in
  ok <- call (EvOutputHeader output TextureType_Cube (int32 output_size)
                (int32 output_size) total_mip_levels false
                cube_map_compression_options) ;;
  require_quiet ok ;;
  for_each (range 0 6) (fun side =>
    surface <- read_back_surface (cube_side_texture side) (uint16 output_size)
      (int32 output_size)
      "Texture compiler error. Failed to create a read back texture."
      "Texture compiler error. Failed to set an image." ;;
    compress_mip_chain output side total_mip_levels
      cube_map_compression_options surface ;;
    next_view).

(** Lines 800-834: cube map to use in other shaders, every mip of every side
    rendered at its own size. *)
Definition render_cube_map (output_size : Z) : M unit :=
  create (EvCreateTexture cube_map_texture (uint16 output_size) (uint16 output_size))
    "Texture compiler error. Failed to create cube map texture." ;;
  for_each (range 0 6) (fun side =>
    for_each (mip_sizes output_size 0) (fun '(size, mip_level) =>
      render_pass (cube_attachment cube_map_texture (uint16 side) (uint16 mip_level))
        (uint16 size) side original_texture CUBE_MAP_SHADER None
        "Texture compiler error. Failed to create cube map frame buffer." ;;
      next_view)).

(** Lines 836-895. *)
Definition render_irradiance (irradiance_size : Z) : M unit :=
  for_each (range 0 6) (fun side =>
    create (EvCreateTexture (irradiance_texture side)
              (uint16 irradiance_size) (uint16 irradiance_size))
      "Texture compiler error. Failed to create irradiance texture.") ;;
  create_program IRRADIANCE_SHADER "irradiance_shader_fragment"
    "Texture compiler error. Failed to create irradiance map vertex shader."
    "Texture compiler error. Failed to create irradiance map fragment shader."
    "Texture compiler error. Failed to create irradiance map program." ;;
  for_each (range 0 6) (fun side =>
    render_pass (whole_texture (irradiance_texture side)) (uint16 irradiance_size)
      side cube_map_texture IRRADIANCE_SHADER None
      "Texture compiler error. Failed to create irradiance map frame buffer." ;;
    next_view).

(** Lines 897-955. *)
Definition compress_irradiance (output_irradiance : string)
    (irradiance_size : Z) : M unit :=
  emit (EvSetFileName output_irradiance) ;;
  (* Don't apply compression to tiny irradiance texture. *)
  ok <- call (EvOutputHeader output_irradiance TextureType_Cube
                (int32 irradiance_size) (int32 irradiance_size) 1 false
                irradiance_compression_options) ;;
  require_quiet ok ;;
  for_each (range 0 6) (fun side =>
    surface <- read_back_surface (irradiance_texture side) (uint16 irradiance_size)
      (int32 irradiance_size)
      "Texture compiler error. Failed to create an irradiance read back texture."
      "Texture compiler error. Failed to create an irradiance read back surface." ;;
    ok <- call (EvCompress output_irradiance surface side 0
                  irradiance_compression_options) ;;
    require_quiet ok ;;
    next_view).

(** Lines 963-1038. The mip loops count in [uint16_t]. *)
Definition render_prefilter (prefilter_size output_size : Z) : M unit :=
  for_each (range 0 6) (fun side =>
    for_each (mip_sizes (uint16 prefilter_size) 0) (fun '(mip_size, mip_level) =>
      create (EvCreateTexture (prefilter_texture side mip_level) mip_size mip_size)
        "Texture compiler error. Failed to create prefilter side texture.")) ;;
  create_program PREFILTER_SHADER "prefilter_shader_fragment"
    "Texture compiler error. Failed to create prefilter vertex shader."
    "Texture compiler error. Failed to create prefilter fragment shader."
    "Texture compiler error. Failed to create prefilter program." ;;
  create (EvCreateUniform "u_settings")
    "Texture compiler error. Failed to create a settings uniform." ;;
  for_each (range 0 6) (fun side =>
    for_each (mip_sizes (uint16 prefilter_size) 0) (fun '(mip_size, mip_level) =>
      render_pass (whole_texture (prefilter_texture side mip_level)) mip_size
        side cube_map_texture PREFILTER_SHADER
        (Some (prefilter_settings mip_level output_size))
        "Texture compiler error. Failed to create prefilter frame buffer." ;;
      next_view)).

(** Lines 1040-1110. *)
Definition compress_prefilter (output_prefilter : string) (prefilter_size : Z)
    (compression : Compression) : M unit :=
  emit (EvSetFileName output_prefilter) ;;
  let prefilter_compression_options := prefilter_compression_options compression in
  let total_mip_levels := count_mip_maps prefilter_size in
  ok <- call (EvOutputHeader output_prefilter TextureType_Cube
                (int32 prefilter_size) (int32 prefilter_size) total_mip_levels
                false prefilter_compression_options) ;;
  require_quiet ok ;;
  for_each (range 0 6) (fun side =>
    for_each (mip_sizes (uint16 prefilter_size) 0) (fun '(mip_size, mip_level) =>
      surface <- read_back_surface (prefilter_texture side mip_level) mip_size
        mip_size
        "Texture compiler error. Failed to create a prefilter read back texture."
        "Texture compiler error. Failed to create a prefilter read back surface." ;;
      ok <- call (EvCompress output_prefilter surface side mip_level
                    prefilter_compression_options) ;;
      require_quiet ok ;;
      next_view)).

Definition compile_cube_map (input output : string) (output_size : Z)
    (output_irradiance : string) (irradiance_size : Z)
    (output_prefilter : string) (prefilter_size : Z)
    (compression : Compression) : M unit :=
  initialize ;;
  '(w, h) <- load_hdr input ;;
  create_resources w h output_size ;;
  capture_cube_sides output_size ;;
  compress_cube_map output output_size compression ;;
  render_cube_map output_size ;;
  render_irradiance irradiance_size ;;
  compress_irradiance output_irradiance irradiance_size ;;
  render_prefilter prefilter_size output_size ;;
  compress_prefilter output_prefilter prefilter_size compression ;;
  return_ 0.

End Program.

(* ===================================================================== *)
(** ** Test doubles for the collaborators *)
(* ===================================================================== *)

Definition halve (n : Z) : Z := Z.max 1 (n / 2).

(** A stand-in for nvtt's box filter: the next level has half the size. *)
Definition test_box_mipmap (s : Surface) : Surface :=
  with_image s (halve (width s)) (halve (height s))
    (map (firstn (pixel_count (halve (width s)) (halve (height s)))) (planes s)).

(** nvtt counts the levels down to 1x1 from the larger side. *)
Definition test_countMipmaps (s : Surface) : Z :=
  count_mip_maps (Z.max (width s) (height s)).

Definition test_world (image : option (Z * Z * list Z))
    (hdr : option (Z * Z * list float)) (succeeds : list Event -> bool)
    : World :=
  {| stbi_load := fun _ => image;
     stbi_loadf := fun _ => hdr;
     succeeds := succeeds;
     countMipmaps := test_countMipmaps;
     box_mipmap := test_box_mipmap;
     expandNormals := fun s => s;
     normalizeNormalMap := fun s => s;
     packNormals := fun s => s;
     fresh_plane := fun w h _ => repeat F32.zero (pixel_count w h);
     half_to_float := fun _ => F32.zero;
     getRendererType := OtherRenderer;
     read_latency := fun _ => 2;
     read_back := fun _ => [] |}.

Definition always (t : list Event) : bool := true.

(** Every call succeeds except [buildNextMipmap]. *)
Definition mip_build_fails (t : list Event) : bool :=
  match last t EvSdlInit with
  | EvBuildNextMipmap _ => false
  | _ => true
  end.

(** A 2x2 image, four bytes per pixel. *)
Definition image_2x2 : Z * Z * list Z :=
  (2, 2, [ 128; 128; 0; 0;  128; 128; 0; 0;  128; 128; 0; 0;  128; 128; 0; 0 ]).

(** A 1x1 image: red 128, green 128, blue (metalness) 0, alpha (ambient
    occlusion) 0. *)
Definition image_1x1 : Z * Z * list Z := (1, 1, [128; 128; 0; 0]).

(** A 3x5 panorama: neither side is a power of two. *)
Definition hdr_3x5 : Z * Z * list float := (3, 5, repeat F32.one 60).

(* ===================================================================== *)
(** ** Vocabulary of the specification *)
(* ===================================================================== *)

(** The calls that write a container: the header, then the levels. *)
Inductive ContainerCall : Type :=
| Header (file : string) (type : TextureType) (w h mips : Z)
    (options : CompressionOptions)
| Compress (file : string) (face mip_level : Z) (options : CompressionOptions).

Definition container_call (e : Event) : list ContainerCall :=
  match e with
  | EvOutputHeader file type w h mips _ options =>
      [Header file type w h mips options]
  | EvCompress file _ face mip_level options =>
      [Compress file face mip_level options]
  | _ => []
  end.

Definition container_calls (t : list Event) : list ContainerCall :=
  flat_map container_call t.

(** The levels that are compressed, as (file, face, mip level). *)
Definition compress_calls (t : list Event) : list (string * Z * Z) :=
  flat_map (fun e => match e with
                     | EvCompress file _ face mip_level _ => [(file, face, mip_level)]
                     | _ => []
                     end) t.

Definition prefix {A : Type} (p l : list A) : Prop := exists q, l = p ++ q.

(** Work on the GPU or in the codec: everything but decoding and printing. *)
Definition gpu_or_codec_work (e : Event) : bool :=
  match e with
  | EvPrint _ | EvStbiLoad _ | EvStbiLoadf _ => false
  | _ => true
  end.

(** Calls that create or write an output file. *)
Definition writes_output (e : Event) : bool :=
  match e with
  | EvSetFileName _ | EvOutputHeader _ _ _ _ _ _ _ | EvCompress _ _ _ _ _ => true
  | _ => false
  end.

Definition power_of_two (n : Z) : Prop := exists k, 0 <= k /\ n = 2 ^ k.

(** "Zero, exceeds 65535, or is not a power of two." *)
Definition bad_dimensions (w h : Z) : Prop :=
  w = 0 \/ h = 0 \/ 65535 < w \/ 65535 < h
  \/ ~ power_of_two w \/ ~ power_of_two h.

(** An [int] whose predecessor is an [int] too. *)
Definition int_dimension (n : Z) : Prop := -2147483648 < n < 2147483648.

(** The state of a read back while the trace is scanned: whether every
    buffer was consumed only after its frame was observed, and the frame
    the pending read back waits for. *)
Definition readback_step (st : bool * option Z) (e : Event) : bool * option Z :=
  let (ok, pending) := st in
  match e with
  | EvReadTexture frame_id => (ok, Some frame_id)
  | EvFrame current_frame_id =>
      match pending with
      | Some frame_id =>
          if frame_id <=? current_frame_id then (ok, None) else (ok, pending)
      | None => (ok, None)
      end
  | EvSetImage (Some InputFormat_RGBA_16F) _ _ =>
      match pending with
      | Some _ => (false, pending)
      | None => (ok, None)
      end
  | _ => (ok, pending)
  end.

Definition readback_scan (t : list Event) : bool * option Z :=
  fold_left readback_step t (true, None).

(** No buffer of a read back is made a surface before a frame number at
    least its token has been returned by [bgfx::frame]. *)
Definition readback_ordered (t : list Event) : Prop :=
  fst (readback_scan t) = true.

(** [emits m F]: whatever the collaborators answer, [m] makes the container
    calls [F] and falls through, or makes a prefix of them and returns 1. *)
Definition emits {A : Type} (m : M A) (F : list ContainerCall) : Prop :=
  forall s, exists p,
    container_calls (trace (fst (m s))) = container_calls (trace s) ++ p /\
    match snd (m s) with
    | Value _ => p = F
    | Returned code => code = 1 /\ prefix p F
    end.

(** [finishes m F]: [m], a whole function body, returns 0 after the container
    calls [F], or returns 1 after a prefix of them. *)
Definition finishes {A : Type} (m : M A) (F : list ContainerCall) : Prop :=
  forall s, exists p,
    container_calls (trace (fst (m s))) = container_calls (trace s) ++ p /\
    ((snd (m s) = Returned 0 /\ p = F) \/
     (snd (m s) = Returned 1 /\ prefix p F)).

(** The container calls of one side's mip chain, in increasing level. *)
Definition mip_chain_calls (file : string) (side total_mip_levels : Z)
    (options : CompressionOptions) : list ContainerCall :=
  map (fun mip_level => Compress file side mip_level options)
      (range 0 total_mip_levels).

(** A cube container with [mips] levels: the header, then for each face 0..5
    its levels 0..mips-1. *)
Definition cube_container_calls (file : string) (size mips : Z)
    (options : CompressionOptions) : list ContainerCall :=
  Header file TextureType_Cube size size mips options
  :: flat_map (fun side => mip_chain_calls file side mips options) (range 0 6).

(** The three containers [compile_cube_map] writes, one after the other. *)
Definition expected_cube_map_calls (output : string) (output_size : Z)
    (output_irradiance : string) (irradiance_size : Z)
    (output_prefilter : string) (prefilter_size : Z)
    (compression : Compression) : list ContainerCall :=
  cube_container_calls output (int32 output_size) (count_mip_maps output_size)
    (cube_map_compression_options compression)
  ++ cube_container_calls output_irradiance (int32 irradiance_size) 1
       irradiance_compression_options
  ++ cube_container_calls output_prefilter (int32 prefilter_size)
       (count_mip_maps prefilter_size)
       (prefilter_compression_options compression).

(** Faces 0..5 in the outer loop, levels 0..mips-1 in the inner loop. *)
Definition face_major (file : string) (mips : Z) : list (string * Z * Z) :=
  flat_map (fun face => map (fun mip_level => (file, face, mip_level))
                            (range 0 mips))
           (range 0 6).

Definition compress_of (c : ContainerCall) : list (string * Z * Z) :=
  match c with
  | Compress file face mip_level _ => [(file, face, mip_level)]
  | Header _ _ _ _ _ _ => []
  end.

(** [keeps P m]: a property of the trace that holds before [m] holds after. *)
Definition keeps {A : Type} (P : list Event -> Prop) (m : M A) : Prop :=
  forall s, P (trace s) -> P (trace (fst (m s))).

(** An event that may be appended without breaking [P]. *)
Definition stable (P : list Event -> Prop) (e : Event) : Prop :=
  forall t, P t -> P (t ++ [e]).

(** The scan has seen no early use, and no read back is pending. *)
Definition no_pending_readback (t : list Event) : Prop :=
  readback_scan t = (true, None).

Definition not_a_read (e : Event) : Prop :=
  match e with
  | EvReadTexture _ => False
  | _ => True
  end.

(** The roughness handed to the prefilter shader at a mip level: the first
    component of the settings uniform. *)
Definition roughness (mip_level : Z) : float :=
  nth 0 (prefilter_settings mip_level 0) F32.zero.


(** The claim of the specification about rejected images: a non-zero result
    and no GPU or codec work at all (so no output file either). *)
Definition rejected_before_any_work (r : list Event * Z) : Prop :=
  snd r <> 0 /\ Forall (fun e => gpu_or_codec_work e = false) (fst r).

(** The surfaces handed to the compressor, with their mip level. *)
Definition compressed_surfaces (t : list Event) : list (Z * Surface) :=
  flat_map (fun e => match e with
                     | EvCompress _ surface _ mip_level _ => [(mip_level, surface)]
                     | _ => []
                     end) t.

Fixpoint iterate {A : Type} (f : A -> A) (n : nat) (x : A) : A :=
  match n with
  | O => x
  | S k => iterate f k (f x)
  end.

(** The surfaces of [compile_normal_metalness_ambient_occlusion] for a
    decoded image: what [surface], [normal] and [metalness_ambient_occlusion]
    hold before the loop, and what [surface] holds when it is compressed. *)
Definition decoded_surface (w h : Z) (data : list Z) : Surface :=
  with_image null_surface w h
    (image_of_bgra8 w h (swap_red_blue (pixel_count w h) data)).

Definition normal_surface (w h : Z) (data : list Z) : Surface :=
  let surface := decoded_surface w h data in
  surface_flags true
    (with_image null_surface w h
       (image_of_planes w h (channel surface 0) (channel surface 1)
          (blue_normal_channel (pixel_count w h) (channel surface 0)
             (channel surface 1))
          (repeat F32.one (pixel_count w h)))).

Definition metalness_ambient_occlusion_surface (W : World) (w h : Z)
    (data : list Z) : Surface :=
  let surface := decoded_surface w h data in
  surface_flags false
    (copyChannel surface 3
       (copyChannel surface 2
          (with_image null_surface w h
             (map (fresh_plane W w h) [0; 1; 2; 3]%nat)))).

Definition next_normal (W : World) (normal : Surface) : Surface :=
  packNormals W (normalizeNormalMap W (expandNormals W (box_mipmap W normal))).

(** Channels 0 and 1 of the normal map with channels 2 and 3 of the
    metalness and ambient occlusion map, in a surface with the flags of a
    default-constructed one. *)
Definition packed_surface (normal metalness_ambient_occlusion : Surface)
    : Surface :=
  with_image null_surface (width normal) (height normal)
    (image_of_planes (width normal) (height normal)
       (channel normal 0) (channel normal 1)
       (channel metalness_ambient_occlusion 2)
       (channel metalness_ambient_occlusion 3)).

Definition is_byte (b : Z) : Prop := 0 <= b <= 255.

(** The flags of a surface on which no flag was set. *)
Definition default_flags (s : Surface) : Prop :=
  wrapMode s = WrapMode_Mirror /\ alphaMode s = AlphaMode_None /\
  isNormalMap s = false.

(** The claim of the specification: a surface tagged as a normal map, whose
    channel 3 is the constant 1, is handed to the compressor. *)
Definition normal_map_compressed (t : list Event) : Prop :=
  exists file surface face mip_level options,
    In (EvCompress file surface face mip_level options) t /\
    isNormalMap surface = true.

(** Every prefilter pass carries the settings of its mip level. *)
Definition prefilter_pass_settings (output_size : Z) (e : Event) : Prop :=
  match e with
  | EvSubmit _ (whole_texture (prefilter_texture _ mip_level)) _ _ _ _
      PREFILTER_SHADER settings =>
      settings = Some (prefilter_settings mip_level output_size)
  | EvSubmit _ _ _ _ _ _ PREFILTER_SHADER _ => False
  | EvSubmit _ (whole_texture (prefilter_texture _ _)) _ _ _ _ _ _ => False
  | _ => True
  end.

(** An image the 2D compile functions accept: each side a power of two from
    1 to 32768. *)
Definition accepted_side (n : Z) : Prop := exists k, 0 <= k <= 15 /\ n = 2 ^ k.

(** The surface [compile_parallax] makes of a decoded image: the bytes are
    handed to nvtt as they come from stb_image. *)
Definition parallax_surface (w h : Z) (data : list Z) : Surface :=
  surface_flags false (with_image null_surface w h (image_of_bgra8 w h data)).

(** The surface [compile_albedo_roughness] makes of a decoded image. *)
Definition albedo_roughness_surface (w h : Z) (data : list Z) : Surface :=
  surface_flags false (decoded_surface w h data).

(** The levels of a mip chain built with the box filter, as they reach the
    compressor. *)
Definition box_levels (W : World) (surface : Surface) : list (Z * Surface) :=
  map (fun k => (k, iterate (box_mipmap W) (Z.to_nat k) surface))
      (range 0 (countMipmaps W surface)).

(* ===================================================================== *)
(** ** [main] (main.cpp 1119-1228) *)
(* ===================================================================== *)

(** The variables the command line parser fills, with the values they hold
    when [cli.parse] returns: [false], the empty string and 0 where the
    option was not given. The sizes are [size_t]. *)
Record CommandLine : Type := {
  is_albedo_roughness : bool;
  is_normal_metalness_ambient_occlusion : bool;
  is_parallax : bool;
  is_cube_map : bool;
  is_production : bool;
  is_development : bool;
  is_no_compression : bool;
  input : string;
  output : string;
  output_size : N;
  output_irradiance : string;
  output_irradiance_size : N;
  output_prefilter : string;
  output_prefilter_size : N;
  is_help : bool
}.

(** What [cli.parse] returns: an error with its message, or success. *)
Inductive ParseResult : Type :=
| ParseError (errorMessage : string)
| Parsed (command_line : CommandLine).

(** [std::string::empty]. *)
Definition empty (s : string) : bool :=
  match s with
  | EmptyString => true
  | String _ _ => false
  end.

(** [static_cast<int32_t>] of a [bool]. *)
Definition int32_of_bool (b : bool) : Z := if b then 1 else 0.

(** [usage] is the text [std::cout << cli] prints. *)
Definition main (W : World) (usage : string) (result : ParseResult) : M unit :=
  match result with
  | ParseError errorMessage =>
      print ("Texture compiler error. Failed to parse command line arguments: "
             ++ errorMessage) ;;
      return_ 1
  | Parsed c =>
      (if is_help c then print usage ;; return_ 1 else pure tt) ;;
      require (negb (empty (input c)))
        "Texture compiler error. Input file is not specified." ;;
      require (negb (empty (output c)))
        "Texture compiler error. Output file is not specified." ;;
      require (int32_of_bool (is_albedo_roughness c)
               + int32_of_bool (is_normal_metalness_ambient_occlusion c)
               + int32_of_bool (is_parallax c)
               + int32_of_bool (is_cube_map c) =? 1)
        "Texture compiler error. Invalid number of flags, one is required." ;;
      require (int32_of_bool (is_production c)
               + int32_of_bool (is_development c)
               + int32_of_bool (is_no_compression c) =? 1)
        "Texture compiler error. Either --development, --production or --no-compression command line argument must be set." ;;
      let compression :=
        if is_production c then GOOD_BUT_SLOW
        else if is_development c then POOR_BUT_FAST
        else NO_COMPRESSION in
      (if is_cube_map c then
         require (negb ((output_size c =? 0)%N
                        || empty (output_irradiance c)
                        || (output_irradiance_size c =? 0)%N
                        || empty (output_prefilter c)
                        || (output_prefilter_size c =? 0)%N))
           "Texture compiler error. Cube map requires --output-size, --irradiance, --irradiance-size, --prefilter, --prefilter-size command line arguments to be set." ;;
         require (negb ((65535 <? output_size c)%N
                        || (65535 <? output_irradiance_size c)%N
                        || (65535 <? output_prefilter_size c)%N))
           "Texture compiler error. Invalid output size."
       else
         require (negb (negb (output_size c =? 0)%N
                        || negb (empty (output_irradiance c))
                        || negb (output_irradiance_size c =? 0)%N
                        || negb (empty (output_prefilter c))
                        || negb (output_prefilter_size c =? 0)%N))
           "Texture compiler error. Command line arguments --output-size, --irradiance, --irradiance-size, --prefilter, --prefilter-size are required only for cube map textures.") ;;
      if is_albedo_roughness c then
        compile_albedo_roughness W (input c) (output c) compression
      else if is_normal_metalness_ambient_occlusion c then
        compile_normal_metalness_ambient_occlusion W (input c) (output c)
          compression
      else if is_parallax c then
        compile_parallax W (input c) (output c) compression
      else if is_cube_map c then
        compile_cube_map W (input c) (output c) (Z.of_N (output_size c))
          (output_irradiance c) (Z.of_N (output_irradiance_size c))
          (output_prefilter c) (Z.of_N (output_prefilter_size c)) compression
      else
        (* Should never happen. *)
        return_ 1
  end.

(** The texture classes of the command line and what it asks for. *)
Inductive TextureClass : Type :=
| AlbedoRoughness
| NormalMetalnessAmbientOcclusion
| Parallax
| CubeMap.

Definition requested_classes (c : CommandLine) : list TextureClass :=
  (if is_albedo_roughness c then [AlbedoRoughness] else [])
  ++ (if is_normal_metalness_ambient_occlusion c
      then [NormalMetalnessAmbientOcclusion] else [])
  ++ (if is_parallax c then [Parallax] else [])
  ++ (if is_cube_map c then [CubeMap] else []).

Definition requested_tiers (c : CommandLine) : list Compression :=
  (if is_production c then [GOOD_BUT_SLOW] else [])
  ++ (if is_development c then [POOR_BUT_FAST] else [])
  ++ (if is_no_compression c then [NO_COMPRESSION] else []).

(** The options that belong to the cube map: all given, with sizes up to
    65535, or none given. *)
Definition cube_map_arguments_given (c : CommandLine) : Prop :=
  (1 <= output_size c <= 65535)%N
  /\ output_irradiance c <> EmptyString
  /\ (1 <= output_irradiance_size c <= 65535)%N
  /\ output_prefilter c <> EmptyString
  /\ (1 <= output_prefilter_size c <= 65535)%N.

Definition cube_map_arguments_absent (c : CommandLine) : Prop :=
  output_size c = 0%N
  /\ output_irradiance c = EmptyString
  /\ output_irradiance_size c = 0%N
  /\ output_prefilter c = EmptyString
  /\ output_prefilter_size c = 0%N.

(** A command line that asks for one texture of class [class] at one
    compression tier, with the files it needs. *)
Definition well_formed (c : CommandLine) (class : TextureClass)
    (tier : Compression) : Prop :=
  is_help c = false
  /\ input c <> EmptyString
  /\ output c <> EmptyString
  /\ requested_classes c = [class]
  /\ requested_tiers c = [tier]
  /\ match class with
     | CubeMap => cube_map_arguments_given c
     | _ => cube_map_arguments_absent c
     end.

(** The compile function of a class, called as [main] calls it. *)
Definition compile (W : World) (c : CommandLine) (class : TextureClass)
    (tier : Compression) : M unit :=
  match class with
  | AlbedoRoughness => compile_albedo_roughness W (input c) (output c) tier
  | NormalMetalnessAmbientOcclusion =>
      compile_normal_metalness_ambient_occlusion W (input c) (output c) tier
  | Parallax => compile_parallax W (input c) (output c) tier
  | CubeMap =>
      compile_cube_map W (input c) (output c) (Z.of_N (output_size c))
        (output_irradiance c) (Z.of_N (output_irradiance_size c))
        (output_prefilter c) (Z.of_N (output_prefilter_size c)) tier
  end.

(** Calls to SDL or bgfx. *)
Definition uses_gpu (e : Event) : bool :=
  match e with
  | EvPrint _ | EvStbiLoad _ | EvStbiLoadf _ | EvSetImage _ _ _
  | EvSetFileName _ | EvOutputHeader _ _ _ _ _ _ _ | EvCompress _ _ _ _ _
  | EvBuildNextMipmap _ => false
  | _ => true
  end.

(** The container of a 2D texture: the header, then the levels of face 0. *)
Definition flat_container_calls (file : string) (w h mips : Z)
    (options : CompressionOptions) : list ContainerCall :=
  Header file TextureType_2D w h mips options
  :: mip_chain_calls file 0 mips options.

(** A function that returned 0 has made all of the container calls [F]; one
    that returned 1 has made some first part of them. *)
Definition complete_or_prefix (r : list Event * Z) (F : list ContainerCall)
    : Prop :=
  (snd r = 0 /\ container_calls (fst r) = F)
  \/ (snd r = 1 /\ prefix (container_calls (fst r)) F).

(** Two command lines: [--parallax --input in --output out --development]
    and a cube map of size 2 with irradiance size 1 and prefilter size 2. *)
Definition parallax_command_line : CommandLine :=
  {| is_albedo_roughness := false;
     is_normal_metalness_ambient_occlusion := false;
     is_parallax := true;
     is_cube_map := false;
     is_production := false;
     is_development := true;
     is_no_compression := false;
     input := "in";
     output := "out";
     output_size := 0;
     output_irradiance := EmptyString;
     output_irradiance_size := 0;
     output_prefilter := EmptyString;
     output_prefilter_size := 0;
     is_help := false |}.

Definition cube_map_command_line : CommandLine :=
  {| is_albedo_roughness := false;
     is_normal_metalness_ambient_occlusion := false;
     is_parallax := false;
     is_cube_map := true;
     is_production := true;
     is_development := false;
     is_no_compression := false;
     input := "in";
     output := "out";
     output_size := 2;
     output_irradiance := "irradiance";
     output_irradiance_size := 1;
     output_prefilter := "prefilter";
     output_prefilter_size := 2;
     is_help := false |}.

(** [falls_through m]: [m] never executes [return]. *)
Definition falls_through {A : Type} (m : M A) : Prop :=
  forall s, exists s' a, m s = (s', Value a).

(** [returns_0 m]: [m] always executes [return 0]. *)
Definition returns_0 {A : Type} (m : M A) : Prop :=
  forall s, exists s', m s = (s', Returned 0).

(* ===================================================================== *)
(** ** The progress display *)
(* ===================================================================== *)

(** [static_cast<int>] of a [float]: the fraction is dropped. The language
    leaves it undefined for infinities and NaN, which give 0 here. *)
Definition int_of_float (f : float) : Z :=
  match f with
  | S754_finite s m e =>
      let magnitude :=
        if 0 <=? e then Z.pos m * 2 ^ e else Z.pos m / 2 ^ (- e) in
      if s then - magnitude else magnitude
  | _ => 0
  end.

(** The percentage printed after level [mip_level] of a 2D texture
    (main.cpp 127, 258, 332). *)
Definition mip_progress (mip_level total_mip_levels : Z) : Z :=
  int_of_float
    (F32.div (F32.mul (F32.of_Z (mip_level + 1)) (F32.of_Z 100))
       (F32.of_Z total_mip_levels)).

(** Line 790. *)
Definition cube_map_progress (side total_mip_levels mip_level : Z) : Z :=
  int_of_float
    (F32.div
       (F32.div
          (F32.mul (F32.of_Z (side * total_mip_levels + mip_level + 1))
             (F32.of_Z 100))
          (F32.of_Z total_mip_levels))
       (F32.of_Z 6)).

(** Line 954. *)
Definition irradiance_progress (side : Z) : Z :=
  int_of_float (F32.div (F32.mul (F32.of_Z (side + 1)) (F32.of_Z 100)) (F32.of_Z 6)).

(** Line 1108, which divides by 6 first. *)
Definition prefilter_progress (side total_mip_levels mip_level : Z) : Z :=
  int_of_float
    (F32.div
       (F32.div
          (F32.mul (F32.of_Z (side * total_mip_levels + mip_level + 1))
             (F32.of_Z 100))
          (F32.of_Z 6))
       (F32.of_Z total_mip_levels)).

(** The percentages a run that compresses every level prints, in order. *)
Definition progress_shown (total_mip_levels : Z) : list Z :=
  map (fun mip_level => mip_progress mip_level total_mip_levels)
      (range 0 total_mip_levels).

Definition cube_map_progress_shown (total_mip_levels : Z) : list Z :=
  flat_map (fun side =>
              map (cube_map_progress side total_mip_levels)
                  (range 0 total_mip_levels))
           (range 0 6).

Definition irradiance_progress_shown : list Z :=
  map irradiance_progress (range 0 6).

Definition prefilter_progress_shown (total_mip_levels : Z) : list Z :=
  flat_map (fun side =>
              map (prefilter_progress side total_mip_levels)
                  (range 0 total_mip_levels))
           (range 0 6).

(** A display that never goes back, stays within 0 and 100 and ends at
    100. *)
Definition reaches_100 (shown : list Z) : Prop :=
  Sorted Z.le shown
  /\ Forall (fun percent => 0 <= percent <= 100) shown
  /\ last shown 0 = 100.

Fixpoint nondecreasing (l : list Z) : bool :=
  match l with
  | a :: (b :: _) as r => (a <=? b) && nondecreasing r
  | _ => true
  end.

Definition reaches_100b (shown : list Z) : bool :=
  nondecreasing shown
  && forallb (fun percent => (0 <=? percent) && (percent <=? 100)) shown
  && (last shown 0 =? 100).

(* ===================================================================== *)
(** ** Handles held in plain variables *)
(* ===================================================================== *)

Fixpoint remove_first (name : string) (l : list string) : list string :=
  match l with
  | [] => []
  | n :: r => if String.eqb n name then r else n :: remove_first name r
  end.

(** The shader handles and read back textures [compile_cube_map] holds in
    plain variables, not in a [HandleWrapper], while a trace is scanned: a
    shader is held from its creation until it is destroyed or until a
    program is created of it ([createProgram] is called with
    [_destroyShaders = true], so the program takes the shaders with it); a
    read back texture from its creation until it is destroyed. A call that
    failed returned no handle. *)
Definition raw_handles_step (W : World)
    (st : list Event * (list string * Z)) (e : Event)
    : list Event * (list string * Z) :=
  let '(before, (shaders, blit_textures)) := st in
  let now := before ++ [e] in
  (now,
   match e with
   | EvCreateShader _ name =>
       if succeeds W now then (name :: shaders, blit_textures)
       else (shaders, blit_textures)
   | EvCreateProgram _ =>
       if succeeds W now then ([], blit_textures) else (shaders, blit_textures)
   | EvDestroyShader name => (remove_first name shaders, blit_textures)
   | EvCreateTexture blit_texture _ _ =>
       if succeeds W now then (shaders, blit_textures + 1)
       else (shaders, blit_textures)
   | EvDestroyTexture blit_texture => (shaders, blit_textures - 1)
   | _ => (shaders, blit_textures)
   end).

Definition raw_handles_scan (W : World) (t : list Event)
    : list Event * (list string * Z) :=
  fold_left (raw_handles_step W) t ([], ([], 0)).

Definition raw_handles (W : World) (t : list Event) : list string * Z :=
  snd (raw_handles_scan W t).

(** After [t], [shaders] and [blit_textures] read back textures are held. *)
Definition holds (W : World) (shaders : list string) (blit_textures : Z)
    (t : list Event) : Prop :=
  raw_handles_scan W t = (t, (shaders, blit_textures)).

(** Events that neither create nor release such a handle. *)
Definition keeps_raw_handles (e : Event) : Prop :=
  match e with
  | EvCreateShader _ _ | EvCreateProgram _ | EvDestroyShader _
  | EvCreateTexture blit_texture _ _ | EvDestroyTexture blit_texture => False
  | _ => True
  end.

(** [hoare P m Q R]: from a state with [P], [m] falls through with a value
    [a] in a state with [Q a], or returns in a state with [R]. *)
Definition hoare {A : Type} (P : St -> Prop) (m : M A) (Q : A -> St -> Prop)
    (R : St -> Prop) : Prop :=
  forall s, P s ->
    match m s with
    | (s', Value a) => Q a s'
    | (s', Returned _) => R s'
    end.

(* ===================================================================== *)
(** ** The views of the passes *)
(* ===================================================================== *)

(** The bgfx view a pass is submitted to or a blit is queued on. *)
Definition view_of (e : Event) : list Z :=
  match e with
  | EvSubmit view _ _ _ _ _ _ _ => [view]
  | EvBlit view _ _ => [view]
  | _ => []
  end.

Definition views_used (t : list Event) : list Z := flat_map view_of t.

(** The views 0, 1, ..., [n - 1] as [bgfx::ViewId] values. *)
Definition first_views (n : Z) : list Z := map uint16 (range 0 n).

(** Between two passes: [n] views were used and [current_view] is the next
    one. *)
Definition view_free (s : St) : Prop :=
  exists n, 0 <= n /\ views_used (trace s) = first_views n
            /\ current_view s = uint16 n.

(** Inside a pass, with [current_view] read into [view] and not used yet. *)
Definition view_read (view : Z) (s : St) : Prop :=
  view_free s /\ view = current_view s.

(** After the pass was submitted, before [current_view++]. *)
Definition view_taken (s : St) : Prop :=
  exists n, 0 <= n /\ views_used (trace s) = first_views (n + 1)
            /\ current_view s = uint16 n.

(** Wherever the function returns. *)
Definition views_in_order (s : St) : Prop :=
  exists n, 0 <= n /\ views_used (trace s) = first_views n.

(** [quiet m]: [m] uses no view and leaves [current_view] alone. *)
Definition quiet {A : Type} (m : M A) : Prop :=
  forall s, views_used (trace (fst (m s))) = views_used (trace s)
            /\ current_view (fst (m s)) = current_view s.

(** The size of mip level [mip_level] of a texture of size [size]. *)
Definition mip_size (size mip_level : Z) : Z := size / 2 ^ mip_level.

(** Every mip level is created, rendered and copied at its own size: what
    the passes that deal with mip levels of the cube map of size
    [output_size] and of the prefilter textures of size [prefilter_size]
    must satisfy. *)
Definition sized_for_its_level (output_size prefilter_size : Z) (e : Event)
    : Prop :=
  match e with
  | EvSubmit _ (cube_attachment cube_map_texture _ mip_level) size _ _ _ _ _ =>
      size = mip_size output_size mip_level
  | EvCreateTexture (prefilter_texture _ mip_level) w h =>
      w = mip_size prefilter_size mip_level
      /\ h = mip_size prefilter_size mip_level
  | EvSubmit _ (whole_texture (prefilter_texture _ mip_level)) size _ _ _ _ _ =>
      size = mip_size prefilter_size mip_level
  | EvBlit _ (prefilter_texture _ mip_level) size =>
      size = mip_size prefilter_size mip_level
  | _ => True
  end.

(* ===================================================================== *)
(** ** [HandleWrapper] (main.cpp 420-466) *)
(* ===================================================================== *)

(** A bgfx handle is its 16-bit index; [BGFX_INVALID_HANDLE] is the index
    [UINT16_MAX] and [bgfx::isValid] compares with it. *)
Definition BGFX_INVALID_HANDLE : Z := 65535.

Definition isValid (handle : Z) : bool := negb (handle =? BGFX_INVALID_HANDLE).

(** The wrappers that are alive, by address, each with its [handle] member;
    the handles bgfx has created and not destroyed; and the calls of
    [bgfx::destroy] on a handle that was not alive. *)
Record Heap : Type := {
  object : nat -> option Z;
  live : list Z;
  stale_destroys : list Z
}.

Definition empty_heap : Heap :=
  {| object := fun _ => None; live := []; stale_destroys := [] |}.

Definition set_object (this : nat) (value : option Z) (heap : Heap) : Heap :=
  {| object := fun address => if Nat.eqb address this then value
                              else object heap address;
     live := live heap;
     stale_destroys := stale_destroys heap |}.

(** [bgfx::destroy(handle)]. *)
Definition destroy (handle : Z) (heap : Heap) : Heap :=
  if existsb (Z.eqb handle) (live heap)
  then {| object := object heap;
          live := filter (fun other => negb (other =? handle)) (live heap);
          stale_destroys := stale_destroys heap |}
  else {| object := object heap;
          live := live heap;
          stale_destroys := stale_destroys heap ++ [handle] |}.

(** The body of [~HandleWrapper()], also run by both assignments through
    [this->~HandleWrapper()]. *)
Definition release (handle : Z) (heap : Heap) : Heap :=
  if isValid handle then destroy handle heap else heap.

(** The member functions. A constructor needs storage that holds no
    wrapper, the other functions a wrapper that is alive; otherwise there is
    no result. *)
Definition default_constructor (this : nat) (heap : Heap) : option Heap :=
  match object heap this with
  | None => Some (set_object this (Some BGFX_INVALID_HANDLE) heap)
  | Some _ => None
  end.

Definition move_constructor (this original : nat) (heap : Heap)
    : option Heap :=
  match object heap this, object heap original with
  | None, Some handle =>
      Some (set_object original (Some BGFX_INVALID_HANDLE)
              (set_object this (Some handle) heap))
  | _, _ => None
  end.

Definition handle_constructor (this : nat) (handle : Z) (heap : Heap)
    : option Heap :=
  match object heap this with
  | None => Some (set_object this (Some handle) heap)
  | Some _ => None
  end.

Definition move_assignment (this original : nat) (heap : Heap)
    : option Heap :=
  match object heap this, object heap original with
  | Some mine, Some _ =>
      let heap := release mine heap in
      match object heap original with
      | Some handle =>
          Some (set_object original (Some BGFX_INVALID_HANDLE)
                  (set_object this (Some handle) heap))
      | None => None
      end
  | _, _ => None
  end.

Definition handle_assignment (this : nat) (handle_ : Z) (heap : Heap)
    : option Heap :=
  match object heap this with
  | Some mine => Some (set_object this (Some handle_) (release mine heap))
  | None => None
  end.

Definition destructor (this : nat) (heap : Heap) : option Heap :=
  match object heap this with
  | Some mine => Some (set_object this None (release mine heap))
  | None => None
  end.

(** [operator HandleType()]. *)
Definition conversion (this : nat) (heap : Heap) : option Z :=
  object heap this.

(** What a [bgfx::create...] call returns: the invalid handle, or a handle
    that was not alive and is now. *)
Definition created (handle : Z) (heap : Heap) : option Heap :=
  if isValid handle then
    if existsb (Z.eqb handle) (live heap) then None
    else Some {| object := object heap;
                 live := handle :: live heap;
                 stale_destroys := stale_destroys heap |}
  else Some heap.

(** The ways the program uses a wrapper: declared empty, initialised with
    or assigned the result of a [bgfx::create...] call, moved (as a vector
    does when it grows), and destroyed at the end of its scope. *)
Inductive Use : Type :=
| DeclareEmpty (this : nat)
| Initialise (this : nat) (handle : Z)
| Assign (this : nat) (handle : Z)
| MoveTo (this original : nat)
| MoveAssign (this original : nat)
| EndOfScope (this : nat).

Definition use (u : Use) (heap : Heap) : option Heap :=
  match u with
  | DeclareEmpty this => default_constructor this heap
  | Initialise this handle =>
      match created handle heap with
      | Some heap => handle_constructor this handle heap
      | None => None
      end
  | Assign this handle =>
      match created handle heap with
      | Some heap => handle_assignment this handle heap
      | None => None
      end
  | MoveTo this original => move_constructor this original heap
  | MoveAssign this original => move_assignment this original heap
  | EndOfScope this => destructor this heap
  end.

Fixpoint uses (l : list Use) (heap : Heap) : option Heap :=
  match l with
  | [] => Some heap
  | u :: r =>
      match use u heap with
      | Some heap => uses r heap
      | None => None
      end
  end.

(** Every handle that is alive belongs to exactly one wrapper, every valid
    handle a wrapper holds is alive, and [bgfx::destroy] was never called on
    a handle that was not alive. *)
Definition owned (heap : Heap) : Prop :=
  (forall a b handle,
     object heap a = Some handle -> object heap b = Some handle ->
     isValid handle = true -> a = b)
  /\ (forall a handle,
        object heap a = Some handle -> isValid handle = true ->
        In handle (live heap))
  /\ (forall handle,
        In handle (live heap) ->
        isValid handle = true /\ exists a, object heap a = Some handle)
  /\ NoDup (live heap)
  /\ stale_destroys heap = [].

(** The heap a sequence of uses leaves, for the examples. *)
Definition heap_after (l : list Use) : Heap :=
  match uses l empty_heap with
  | Some heap => heap
  | None => empty_heap
  end.

(** A wrapper that is declared empty and assigned handle 7, a second one
    initialised with handle 8 and move-assigned to the first, the first moved
    to a third, which is then move-assigned to itself, and a fourth wrapper
    with handle 9. *)
Definition wrappers_in_use : list Use :=
  [DeclareEmpty 0; Assign 0 7; Initialise 1 8; MoveAssign 0 1; MoveTo 2 0;
   MoveAssign 2 2; Initialise 3 9].

(** Two wrappers that go out of scope after a move assignment. *)
Definition wrappers_gone : list Use :=
  [DeclareEmpty 0; Assign 0 7; Initialise 1 8; MoveAssign 0 1;
   EndOfScope 1; EndOfScope 0].

(** A level compressed into the irradiance or the prefilter container has
    the size its place in the container implies. *)
Definition level_sized (output_irradiance : string) (irradiance_size : Z)
    (output_prefilter : string) (prefilter_size : Z) (e : Event) : Prop :=
  match e with
  | EvCompress file surface _ mip_level _ =>
      (file = output_irradiance ->
       mip_level = 0 /\ width surface = irradiance_size
       /\ height surface = irradiance_size)
      /\ (file = output_prefilter ->
          width surface = mip_size prefilter_size mip_level
          /\ height surface = mip_size prefilter_size mip_level)
  | _ => True
  end.

(** The prefilter passes of a trace: for every pass submitted with the
    prefilter program, its render target, the size of its rectangle, the
    index of its view matrix, its input texture and the settings uniform. *)
Definition prefilter_pass (e : Event)
    : list (Target * Z * Z * Texture * option (list float)) :=
  match e with
  | EvSubmit _ target size _ side input PREFILTER_SHADER settings =>
      [(target, size, side, input, settings)]
  | _ => []
  end.

Definition prefilter_passes (t : list Event)
    : list (Target * Z * Z * Texture * option (list float)) :=
  flat_map prefilter_pass t.

(** The passes that prefilter the cube map: for each side 0..5 and each mip
    level of the prefilter texture, one pass into the texture of that side
    and level, at the size of the level, reading the cube map, with the
    settings of the level. *)
Definition expected_prefilter_passes (prefilter_size output_size : Z)
    : list (Target * Z * Z * Texture * option (list float)) :=
  flat_map (fun side =>
              map (fun mip_level =>
                     (whole_texture (prefilter_texture side mip_level),
                      prefilter_size / 2 ^ mip_level, side, cube_map_texture,
                      Some (prefilter_settings mip_level output_size)))
                  (range 0 (count_mip_maps prefilter_size)))
           (range 0 6).

(** [produces proj m F]: whatever the collaborators answer, the events of
    [m] that [proj] selects are [F] when [m] falls through, and a first part
    of [F] when it returns 1. *)
Definition produces {A B : Type} (proj : Event -> list B) (m : M A)
    (F : list B) : Prop :=
  forall s, exists p,
    flat_map proj (trace (fst (m s))) = flat_map proj (trace s) ++ p /\
    match snd (m s) with
    | Value _ => p = F
    | Returned code => code = 1 /\ prefix p F
    end.

(** [completes proj m F]: [m], a whole function body, returns 0 after the
    selected events [F], or returns 1 after a first part of them. *)
Definition completes {A B : Type} (proj : Event -> list B) (m : M A)
    (F : list B) : Prop :=
  forall s, exists p,
    flat_map proj (trace (fst (m s))) = flat_map proj (trace s) ++ p /\
    ((snd (m s) = Returned 0 /\ p = F) \/
     (snd (m s) = Returned 1 /\ prefix p F)).

(* ===================================================================== *)
(** ** Facts about binary32 and the reconstruction *)
(* ===================================================================== *)

Lemma F32_eqb_eq (a b : float) : F32.eqb a b = true -> a = b.
Proof.
  destruct a as [s|s| |s m e], b as [t|t| |t n f]; simpl; try discriminate;
    try reflexivity.
  - intros H; apply eqb_prop in H; congruence.
  - intros H; apply eqb_prop in H; congruence.
  - intros H. apply andb_true_iff in H as [H He].
    apply andb_true_iff in H as [Hs Hm].
    apply eqb_prop in Hs. apply Pos.eqb_eq in Hm. apply Z.eqb_eq in He.
    congruence.
Qed.

Lemma F32_add_comm (a b : float) : F32.add a b = F32.add b a.
Proof.
  unfold F32.add.
  destruct a as [s|s| |s m e], b as [t|t| |t n f]; try reflexivity;
    try (destruct s, t; reflexivity).
  simpl. rewrite (Z.min_comm f e). f_equal. apply Z.add_comm.
Qed.

Lemma blue_normal_pixel_dot (r g : float) :
  blue_normal_pixel r g =
  blue_of_dot (F32.add (expanded_square r) (expanded_square g)).
Proof. reflexivity. Qed.

Lemma forall_pairs_sound (P : float -> float -> bool) (l : list float) :
  (forall a b, P a b = P b a) ->
  forall_pairs P l = true ->
  forall a b, In a l -> In b l -> P a b = true.
Proof.
  intros Hsym. induction l as [|x r IH]; intros Hall a b Ha Hb.
  - destruct Ha.
  - simpl in Hall. apply andb_true_iff in Hall as [Hx Hr].
    apply andb_true_iff in Hx as [Hxx Hxr].
    rewrite forallb_forall in Hxr.
    destruct Ha as [<-|Ha], Hb as [<-|Hb].
    + exact Hxx.
    + apply Hxr, Hb.
    + rewrite Hsym. apply Hxr, Ha.
    + apply IH; assumption.
Qed.

Lemma all_bytes_spec (k : Z) : 0 <= k <= 255 -> In k all_bytes.
Proof.
  intros H. unfold all_bytes. apply in_map_iff.
  exists (Z.to_nat k). split; [lia|]. apply in_seq. lia.
Qed.

Lemma byte_squares_complete (k : Z) :
  0 <= k <= 255 -> In (expanded_square (unorm8 k)) byte_squares.
Proof.
  intros H.
  assert (Hall : forallb (fun k => existsb (F32.eqb (expanded_square (unorm8 k)))
                                     byte_squares) all_bytes = true)
    by (vm_compute; reflexivity).
  rewrite forallb_forall in Hall.
  specialize (Hall k (all_bytes_spec k H)).
  apply existsb_exists in Hall as [x [Hin Heq]].
  apply F32_eqb_eq in Heq. rewrite Heq. exact Hin.
Qed.

Lemma byte_squares_in_range : forall_pairs dot_in_range byte_squares = true.
Proof. vm_compute. reflexivity. Qed.

Lemma F32_leb_not_ltb (a b : float) : F32.leb a b = true -> F32.ltb b a = false.
Proof.
  unfold F32.leb, F32.ltb, SFleb, SFltb.
  destruct a as [s|s| |s m e], b as [t|t| |t n f]; simpl;
    try (destruct s); try (destruct t); try reflexivity; try discriminate.
  all: assert (H : Pos.compare_cont Eq n m = CompOpp (Pos.compare_cont Eq m n))
         by (symmetry; apply (Pos.compare_cont_antisym m n Eq));
    rewrite (Z.compare_antisym e f), H;
    destruct (e ?= f); simpl; try reflexivity; try discriminate;
    destruct (Pos.compare_cont Eq m n); simpl; try reflexivity; discriminate.
Qed.

Lemma blue_normal_channel_nth (size : nat) (red green : list float) (i : nat) :
  (i < size)%nat ->
  nth i (blue_normal_channel size red green) F32.zero =
  blue_normal_pixel (nth i red F32.zero) (nth i green F32.zero).
Proof.
  intros Hi. unfold blue_normal_channel.
  set (f := fun i => blue_normal_pixel (nth i red F32.zero) (nth i green F32.zero)).
  rewrite (nth_indep _ F32.zero (f 0%nat)) by (rewrite length_map, length_seq; exact Hi).
  rewrite map_nth, seq_nth by exact Hi. reflexivity.
Qed.

(** C3. Element [i] of the reconstructed blue channel is computed from the
    red and green samples [Rn], [Gn] of the same pixel: with [x = 2 Rn - 1],
    [y = 2 Gn - 1] and [d = x x + y y] in single precision, it is
    [sqrt (1 - d) * 0.5 + 0.5] when [d < 1] and exactly [0.5] when [d >= 1].
    [Rn = Gn = 0.5] gives [1.0]; [Rn = 1, Gn = 0.5] ([d = 1]) and
    [Rn = Gn = 1] ([d = 2]) give [0.5]. *)
Theorem blue_channel_reconstruction :
  forall (size : nat) (red_normal_channel green_normal_channel : list float)
         (i : nat),
    (i < size)%nat ->
    let Rn := nth i red_normal_channel F32.zero in
    let Gn := nth i green_normal_channel F32.zero in
    let x := F32.sub (F32.mul Rn F32.two) F32.one in
    let y := F32.sub (F32.mul Gn F32.two) F32.one in
    let d := F32.add (F32.mul x x) (F32.mul y y) in
    let z := nth i (blue_normal_channel size red_normal_channel
                      green_normal_channel) F32.zero in
    (F32.ltb d F32.one = true ->
       z = F32.add (F32.mul (F32.sqrt (F32.sub F32.one d)) F32.half) F32.half)
    /\ (F32.leb F32.one d = true -> z = F32.half)
    /\ blue_normal_pixel F32.half F32.half = F32.one
    /\ blue_normal_pixel F32.one F32.half = F32.half
    /\ blue_normal_pixel F32.one F32.one = F32.half.
Proof.
  intros size red green i Hi Rn Gn x y d z.
  assert (Hz : z = blue_normal_pixel Rn Gn)
    by (apply blue_normal_channel_nth; exact Hi).
  split; [|split; [|split; [|split]]].
  - intros Hlt. rewrite Hz. unfold blue_normal_pixel.
    fold Rn Gn x y d. rewrite Hlt. reflexivity.
  - intros Hge. rewrite Hz. unfold blue_normal_pixel.
    fold Rn Gn x y d. rewrite (F32_leb_not_ltb _ _ Hge). reflexivity.
  - vm_compute. reflexivity.
  - vm_compute. reflexivity.
  - vm_compute. reflexivity.
Qed.

Lemma blue_channel_reconstruction_witness :
  (0 < 1)%nat /\
  nth 0 (blue_normal_channel 1 [F32.half] [F32.half]) F32.zero = F32.one.
Proof.
  split; [lia|].
  pose proof (blue_channel_reconstruction 1 [F32.half] [F32.half] 0
                ltac:(lia)) as H.
  cbv zeta in H. destruct H as [H _]. rewrite H.
  - vm_compute. reflexivity.
  - vm_compute. reflexivity.
Defined.

Lemma dot_in_range_sym (a b : float) : dot_in_range a b = dot_in_range b a.
Proof. unfold dot_in_range. rewrite F32_add_comm. reflexivity. Qed.

Lemma blue_normal_pixel_in_range (red green : Z) :
  0 <= red <= 255 -> 0 <= green <= 255 ->
  in_unit_upper_half (blue_normal_pixel (unorm8 red) (unorm8 green)) = true.
Proof.
  intros Hr Hg.
  pose proof (forall_pairs_sound dot_in_range byte_squares dot_in_range_sym
                byte_squares_in_range _ _
                (byte_squares_complete red Hr) (byte_squares_complete green Hg))
    as H.
  unfold dot_in_range in H. rewrite <- blue_normal_pixel_dot in H. exact H.
Qed.

(* ===================================================================== *)
(** ** Reasoning about the monad *)
(* ===================================================================== *)

Lemma container_calls_app (t u : list Event) :
  container_calls (t ++ u) = container_calls t ++ container_calls u.
Proof. unfold container_calls. apply flat_map_app. Qed.

Lemma prefix_nil {A : Type} (l : list A) : prefix [] l.
Proof. exists l. reflexivity. Qed.

Lemma prefix_refl {A : Type} (l : list A) : prefix l l.
Proof. exists []. symmetry. apply app_nil_r. Qed.

Lemma prefix_app_r {A : Type} (p l r : list A) : prefix p l -> prefix p (l ++ r).
Proof. intros [q ->]. exists (q ++ r). symmetry. apply app_assoc. Qed.

Lemma prefix_app_l {A : Type} (p l r : list A) : prefix p r -> prefix (l ++ p) (l ++ r).
Proof. intros [q ->]. exists q. apply app_assoc. Qed.

Section Emits.

Variable W : World.

Lemma emits_pure {A : Type} (a : A) : emits (pure a) [].
Proof. intros s. exists []. simpl. rewrite app_nil_r. auto. Qed.

Lemma emits_return_1 {A : Type} (F : list ContainerCall) :
  emits (@return_ A 1) F.
Proof.
  intros s. exists []. simpl. rewrite app_nil_r.
  split; [reflexivity|]. split; [reflexivity|apply prefix_nil].
Qed.

Lemma emits_emit (e : Event) : emits (emit e) (container_call e).
Proof.
  intros s. exists (container_call e). simpl.
  rewrite container_calls_app. simpl. rewrite app_nil_r. auto.
Qed.

Lemma emits_call (e : Event) : emits (call W e) (container_call e).
Proof.
  intros s. exists (container_call e). simpl.
  rewrite container_calls_app. simpl. rewrite app_nil_r. auto.
Qed.

Lemma emits_bind {A B : Type} (m : M A) (k : A -> M B)
    (F1 F2 : list ContainerCall) :
  emits m F1 -> (forall a, emits (k a) F2) -> emits (bind m k) (F1 ++ F2).
Proof.
  intros Hm Hk s. unfold bind.
  destruct (Hm s) as [p1 [Ht1 Hr1]].
  destruct (m s) as [s1 [a|code]]; simpl in *.
  - subst p1. destruct (Hk a s1) as [p2 [Ht2 Hr2]].
    exists (F1 ++ p2). rewrite Ht2, Ht1, app_assoc. split; [reflexivity|].
    destruct (snd (k a s1)).
    + subst p2. reflexivity.
    + destruct Hr2 as [-> Hp]. split; [reflexivity|]. apply prefix_app_l, Hp.
  - exists p1. split; [exact Ht1|]. destruct Hr1 as [-> Hp].
    split; [reflexivity|]. apply prefix_app_r, Hp.
Qed.

Lemma emits_bind_nil {A B : Type} (m : M A) (k : A -> M B)
    (F : list ContainerCall) :
  emits m [] -> (forall a, emits (k a) F) -> emits (bind m k) F.
Proof. intros Hm Hk. apply (emits_bind m k [] F); assumption. Qed.

Lemma emits_require (ok : bool) (message : string) : emits (require ok message) [].
Proof.
  destruct ok; simpl.
  - apply emits_pure.
  - apply (emits_bind_nil (print message)); [apply emits_emit|].
    intros _. apply emits_return_1.
Qed.

Lemma emits_require_quiet (ok : bool) : emits (require_quiet ok) [].
Proof. destruct ok; simpl; [apply emits_pure|apply emits_return_1]. Qed.

Lemma emits_create (e : Event) (message : string) :
  container_call e = [] -> emits (create W e message) [].
Proof.
  intros He. unfold create.
  apply (emits_bind_nil (call W e)).
  - rewrite <- He. apply emits_call.
  - intros ok. apply emits_require.
Qed.

Lemma emits_for_each {A : Type} (l : list A) (body : A -> M unit)
    (F : A -> list ContainerCall) :
  (forall x, emits (body x) (F x)) -> emits (for_each l body) (flat_map F l).
Proof.
  intros Hbody. induction l as [|x r IH]; simpl.
  - apply emits_pure.
  - apply emits_bind; [apply Hbody|]. intros _. exact IH.
Qed.

Lemma emits_for_each_nil {A : Type} (l : list A) (body : A -> M unit) :
  (forall x, emits (body x) []) -> emits (for_each l body) [].
Proof.
  intros Hbody. induction l as [|x r IH]; simpl.
  - apply emits_pure.
  - apply emits_bind_nil; [apply Hbody|]. intros _. exact IH.
Qed.

Lemma emits_fold_each {A V : Type} (l : list A) (body : V -> A -> M V)
    (F : A -> list ContainerCall) :
  (forall v x, emits (body v x) (F x)) ->
  forall v, emits (fold_each l body v) (flat_map F l).
Proof.
  intros Hbody. induction l as [|x r IH]; intros v; simpl.
  - apply emits_pure.
  - apply emits_bind; [apply Hbody|]. intros v'. apply IH.
Qed.

Lemma emits_get_view : emits get_view [].
Proof. intros s. exists []. simpl. rewrite app_nil_r. auto. Qed.

Lemma emits_next_view : emits next_view [].
Proof. intros s. exists []. simpl. rewrite app_nil_r. auto. Qed.

Lemma emits_readTexture : emits (readTexture W) [].
Proof.
  intros s. exists []. simpl.
  rewrite container_calls_app. simpl. auto.
Qed.

End Emits.

(** The wait loop: it calls [bgfx::frame] at least once, records nothing
    else, and the last frame number it sees has reached the token. *)
Lemma wait_until_available_spec (frame_id : Z) (s : St) :
  exists (frames : list Z) (n : Z),
    trace (fst (wait_until_available frame_id s)) =
      trace s ++ map EvFrame (frames ++ [n]) /\
    current_view (fst (wait_until_available frame_id s)) = current_view s /\
    snd (wait_until_available frame_id s) = Value n /\
    uint32 frame_id <= n.
Proof.
  funelim (wait_until_available frame_id s).
  - destruct H as (frames & n & Ht & Hv & Hr & Hn).
    exists (uint32 (frame_no s + 1) :: frames), n.
    rewrite Ht, Hv, Hr. simpl. rewrite <- app_assoc. simpl. auto.
  - exists [], (uint32 (frame_no s + 1)). simpl.
    repeat split; try reflexivity. lia.
Qed.

Lemma container_calls_frames (frames : list Z) :
  container_calls (map EvFrame frames) = [].
Proof. induction frames as [|n r IH]; simpl; [reflexivity|exact IH]. Qed.

Lemma flat_map_singleton {A B : Type} (f : A -> B) (l : list A) :
  flat_map (fun x => [f x]) l = map f l.
Proof. induction l as [|x r IH]; simpl; [reflexivity|]. rewrite IH. reflexivity. Qed.

Lemma emits_wait_until_available (frame_id : Z) :
  emits (wait_until_available frame_id) [].
Proof.
  intros s. exists [].
  destruct (wait_until_available_spec frame_id s) as (frames & n & Ht & _ & Hr & _).
  rewrite Ht, Hr, container_calls_app, container_calls_frames. auto.
Qed.

(** Steps that make no container call. *)
Ltac emits_step :=
  lazymatch goal with
  | |- emits (pure _) _ => apply emits_pure
  | |- emits (return_ _) _ => apply emits_return_1
  | |- emits (require _ _) _ => apply emits_require
  | |- emits (require_quiet _) _ => apply emits_require_quiet
  | |- emits get_view _ => apply emits_get_view
  | |- emits next_view _ => apply emits_next_view
  | |- emits (readTexture _) _ => apply emits_readTexture
  | |- emits (wait_until_available _) _ => apply emits_wait_until_available
  | |- emits (create _ _ _) _ => apply emits_create; reflexivity
  | |- emits (emit ?e) [] => exact (emits_emit e)
  | |- emits (print _) _ => unfold print
  | |- emits (call ?W ?e) [] => exact (emits_call W e)
  | |- emits (bind _ _) _ => apply emits_bind_nil; [|intros]
  | |- emits (for_each _ _) _ => apply emits_for_each_nil; intros
  | |- emits (if ?b then _ else _) _ => destruct b
  | |- emits (match ?x with _ => _ end) _ => destruct x
  end.

Ltac emits_silent := repeat (cbv beta zeta; emits_step).

Section EmitsProgram.

Variable W : World.

Lemma emits_read_back_surface (source : Texture) (size image_size : Z)
    (no_texture no_surface : string) :
  emits (read_back_surface W source size image_size no_texture no_surface) [].
Proof. unfold read_back_surface. emits_silent. Qed.

Lemma emits_create_program (shaders : Shaders) (fragment_name : string)
    (no_vertex no_fragment no_program : string) :
  emits (create_program W shaders fragment_name no_vertex no_fragment no_program) [].
Proof. unfold create_program. emits_silent. Qed.

Lemma emits_render_pass (target : Target) (size side : Z) (input : Texture)
    (program : Shaders) (settings : option (list float)) (message : string) :
  emits (render_pass W target size side input program settings message) [].
Proof. unfold render_pass. emits_silent. Qed.

Lemma emits_initialize : emits (initialize W) [].
Proof. unfold initialize. emits_silent. Qed.

Lemma emits_load_hdr (input : string) : emits (load_hdr W input) [].
Proof. unfold load_hdr. emits_silent. Qed.

Lemma emits_create_resources (w h output_size : Z) :
  emits (create_resources W w h output_size) [].
Proof.
  unfold create_resources, create_program, render_pass. emits_silent.
Qed.

Lemma emits_capture_cube_sides (output_size : Z) :
  emits (capture_cube_sides W output_size) [].
Proof.
  unfold capture_cube_sides, create_program, render_pass. emits_silent.
Qed.

Lemma emits_render_cube_map (output_size : Z) :
  emits (render_cube_map W output_size) [].
Proof.
  unfold render_cube_map, create_program, render_pass. emits_silent.
Qed.

Lemma emits_render_irradiance (irradiance_size : Z) :
  emits (render_irradiance W irradiance_size) [].
Proof.
  unfold render_irradiance, create_program, render_pass. emits_silent.
Qed.

Lemma emits_render_prefilter (prefilter_size output_size : Z) :
  emits (render_prefilter W prefilter_size output_size) [].
Proof.
  unfold render_prefilter, create_program, render_pass. emits_silent.
Qed.

End EmitsProgram.

(* ===================================================================== *)
(** ** Mip counts *)
(* ===================================================================== *)

Lemma log2_half (size : Z) : 1 < size -> Z.log2 size = Z.log2 (size / 2) + 1.
Proof.
  intros H.
  assert (Hq : 0 < size / 2) by (apply Z.div_str_pos; lia).
  pose proof (Z.div_mod size 2 ltac:(lia)) as Hdm.
  pose proof (Z.mod_pos_bound size 2 ltac:(lia)) as Hm.
  assert (Hcase : size mod 2 = 0 \/ size mod 2 = 1) by lia.
  destruct Hcase as [E|E]; rewrite E in Hdm.
  - rewrite Hdm at 1. rewrite Z.add_0_r, Z.log2_double by lia. lia.
  - rewrite Hdm at 1. rewrite Z.log2_succ_double by lia. lia.
Qed.

Lemma count_mip_maps_loop_log2 (size result : Z) :
  1 <= size -> count_mip_maps_loop size result = result + Z.log2 size.
Proof.
  funelim (count_mip_maps_loop size result); intros Hsize.
  - rewrite H by (apply Z.div_le_lower_bound; lia).
    rewrite (log2_half size) by lia. lia.
  - assert (size = 1) by lia. subst size. simpl. lia.
Qed.

Lemma range_nil (lo hi : Z) : hi <= lo -> range lo hi = [].
Proof.
  intros H. unfold range. replace (Z.to_nat (hi - lo)) with 0%nat by lia.
  reflexivity.
Qed.

Lemma range_cons (lo hi : Z) : lo < hi -> range lo hi = lo :: range (lo + 1) hi.
Proof.
  intros H. unfold range.
  replace (Z.to_nat (hi - lo)) with (S (Z.to_nat (hi - (lo + 1)))) by lia.
  simpl. rewrite Z.add_0_r. f_equal.
  rewrite <- seq_shift, map_map. apply map_ext. intros i. lia.
Qed.

Lemma mip_sizes_levels (size mip_level : Z) :
  1 <= size ->
  map snd (mip_sizes size mip_level) =
  range mip_level (mip_level + Z.log2 size + 1).
Proof.
  funelim (mip_sizes size mip_level); intros Hsize; [|lia].
  simpl. destruct (Z_le_dec 2 size) as [H2|H2].
  - rewrite H by (apply Z.div_le_lower_bound; lia).
    rewrite (log2_half size) by lia.
    rewrite (range_cons mip_level) by (pose proof (Z.log2_nonneg (size / 2)); lia).
    f_equal. f_equal. lia.
  - assert (size = 1) by lia. subst size.
    rewrite (range_cons mip_level) by (simpl; lia).
    rewrite (range_nil (mip_level + 1)) by (simpl; lia).
    f_equal.
Qed.

Lemma count_mip_maps_log2 (size : Z) :
  1 <= size -> count_mip_maps size = Z.log2 size + 1.
Proof.
  intros H. unfold count_mip_maps. rewrite count_mip_maps_loop_log2 by exact H. lia.
Qed.

Lemma mip_sizes_count (size : Z) :
  1 <= size -> map snd (mip_sizes size 0) = range 0 (count_mip_maps size).
Proof.
  intros H. rewrite mip_sizes_levels, count_mip_maps_log2 by exact H.
  f_equal.
Qed.

(* ===================================================================== *)
(** ** The container calls of [compile_cube_map] *)
(* ===================================================================== *)

Section Finishes.

Variable W : World.

Lemma finishes_return_0 {A : Type} : finishes (@return_ A 0) [].
Proof.
  intros s. exists []. simpl. rewrite app_nil_r. split; [reflexivity|].
  left. auto.
Qed.

Lemma finishes_bind {A B : Type} (m : M A) (k : A -> M B)
    (F1 F2 : list ContainerCall) :
  emits m F1 -> (forall a, finishes (k a) F2) -> finishes (bind m k) (F1 ++ F2).
Proof.
  intros Hm Hk s. unfold bind.
  destruct (Hm s) as [p1 [Ht1 Hr1]].
  destruct (m s) as [s1 [a|code]]; simpl in *.
  - subst p1. destruct (Hk a s1) as [p2 [Ht2 Hr2]].
    exists (F1 ++ p2). rewrite Ht2, Ht1, app_assoc. split; [reflexivity|].
    destruct Hr2 as [[Hr ->]|[Hr Hp]].
    + left. auto.
    + right. split; [exact Hr|]. apply prefix_app_l, Hp.
  - exists p1. split; [exact Ht1|]. destruct Hr1 as [-> Hp].
    right. split; [reflexivity|]. apply prefix_app_r, Hp.
Qed.

Lemma finishes_bind_nil {A B : Type} (m : M A) (k : A -> M B)
    (F : list ContainerCall) :
  emits m [] -> (forall a, finishes (k a) F) -> finishes (bind m k) F.
Proof. intros Hm Hk. apply (finishes_bind m k [] F); assumption. Qed.

Lemma emits_compress_mip_chain (file : string) (side total_mip_levels : Z)
    (options : CompressionOptions) (surface : Surface) :
  emits (compress_mip_chain W file side total_mip_levels options surface)
        (mip_chain_calls file side total_mip_levels options).
Proof.
  unfold compress_mip_chain, mip_chain_calls.
  rewrite <- flat_map_singleton. apply emits_fold_each.
  intros v mip_level.
  apply (emits_bind _ _ [Compress file side mip_level options] []).
  - exact (emits_call W (EvCompress file v side mip_level options)).
  - intros ok. emits_silent.
Qed.

Lemma emits_compress_cube_map (output : string) (output_size : Z)
    (compression : Compression) :
  emits (compress_cube_map W output output_size compression)
        (cube_container_calls output (int32 output_size)
           (count_mip_maps output_size)
           (cube_map_compression_options compression)).
Proof.
  unfold compress_cube_map, cube_container_calls.
  apply emits_bind_nil; [exact (emits_emit (EvSetFileName output))|intros _].
  apply (emits_bind _ _ [_] _);
    [exact (emits_call W (EvOutputHeader _ _ _ _ _ _ _))|intros ok].
  apply emits_bind_nil; [apply emits_require_quiet|intros _].
  apply emits_for_each. intros side.
  apply emits_bind_nil; [apply emits_read_back_surface|intros surface].
  rewrite <- (app_nil_r (mip_chain_calls _ _ _ _)).
  apply emits_bind; [apply emits_compress_mip_chain|intros _].
  apply emits_next_view.
Qed.

Lemma emits_compress_irradiance (output_irradiance : string)
    (irradiance_size : Z) :
  emits (compress_irradiance W output_irradiance irradiance_size)
        (cube_container_calls output_irradiance (int32 irradiance_size) 1
           irradiance_compression_options).
Proof.
  unfold compress_irradiance, cube_container_calls.
  apply emits_bind_nil; [exact (emits_emit (EvSetFileName output_irradiance))|intros _].
  apply (emits_bind _ _ [_] _);
    [exact (emits_call W (EvOutputHeader _ _ _ _ _ _ _))|intros ok].
  apply emits_bind_nil; [apply emits_require_quiet|intros _].
  apply emits_for_each. intros side.
  apply emits_bind_nil; [apply emits_read_back_surface|intros surface].
  apply (emits_bind _ _ [Compress output_irradiance side 0
                           irradiance_compression_options] []).
  - exact (emits_call W (EvCompress _ _ _ _ _)).
  - intros ok'. emits_silent.
Qed.

Lemma emits_compress_prefilter (output_prefilter : string)
    (prefilter_size : Z) (compression : Compression) :
  1 <= prefilter_size <= 65535 ->
  emits (compress_prefilter W output_prefilter prefilter_size compression)
        (cube_container_calls output_prefilter (int32 prefilter_size)
           (count_mip_maps prefilter_size)
           (prefilter_compression_options compression)).
Proof.
  intros Hsize.
  unfold compress_prefilter, cube_container_calls.
  apply emits_bind_nil; [exact (emits_emit (EvSetFileName output_prefilter))|intros _].
  apply (emits_bind _ _ [_] _);
    [exact (emits_call W (EvOutputHeader _ _ _ _ _ _ _))|intros ok].
  apply emits_bind_nil; [apply emits_require_quiet|intros _].
  apply emits_for_each. intros side.
  unfold mip_chain_calls.
  rewrite <- mip_sizes_count by lia. rewrite map_map, <- flat_map_singleton.
  unfold uint16. rewrite Z.mod_small by lia.
  apply emits_for_each. intros [mip_size mip_level].
  apply emits_bind_nil; [apply emits_read_back_surface|intros surface].
  apply (emits_bind _ _ [Compress output_prefilter side mip_level
                           (prefilter_compression_options compression)] []).
  - exact (emits_call W (EvCompress _ _ _ _ _)).
  - intros ok'. emits_silent.
Qed.

Lemma compile_cube_map_finishes (input output : string) (output_size : Z)
    (output_irradiance : string) (irradiance_size : Z)
    (output_prefilter : string) (prefilter_size : Z)
    (compression : Compression) :
  1 <= prefilter_size <= 65535 ->
  finishes (compile_cube_map W input output output_size output_irradiance
              irradiance_size output_prefilter prefilter_size compression)
           (expected_cube_map_calls output output_size output_irradiance
              irradiance_size output_prefilter prefilter_size compression).
Proof.
  intros Hsize. unfold compile_cube_map, expected_cube_map_calls.
  apply finishes_bind_nil; [apply emits_initialize|intros _].
  apply finishes_bind_nil; [apply emits_load_hdr|intros [w h]].
  apply finishes_bind_nil; [apply emits_create_resources|intros _].
  apply finishes_bind_nil; [apply emits_capture_cube_sides|intros _].
  apply finishes_bind; [apply emits_compress_cube_map|intros _].
  apply finishes_bind_nil; [apply emits_render_cube_map|intros _].
  apply finishes_bind_nil; [apply emits_render_irradiance|intros _].
  apply finishes_bind; [apply emits_compress_irradiance|intros _].
  apply finishes_bind_nil; [apply emits_render_prefilter|intros _].
  rewrite <- (app_nil_r (cube_container_calls output_prefilter _ _ _)).
  apply finishes_bind; [apply emits_compress_prefilter; exact Hsize|intros _].
  apply finishes_return_0.
Qed.

End Finishes.

Lemma finishes_run (m : M unit) (F : list ContainerCall) :
  finishes m F ->
  (snd (run m) = 0 /\ container_calls (fst (run m)) = F) \/
  (snd (run m) = 1 /\ prefix (container_calls (fst (run m))) F).
Proof.
  intros H. destruct (H initial) as [p [Ht Hr]]. unfold run.
  destruct (m initial) as [s r]; simpl in *.
  destruct Hr as [[-> ->]|[-> Hp]]; [left|right]; rewrite Ht; auto.
Qed.

Lemma compress_calls_container (t : list Event) :
  compress_calls t = flat_map compress_of (container_calls t).
Proof.
  unfold compress_calls, container_calls.
  induction t as [|e r IH]; simpl; [reflexivity|].
  rewrite flat_map_app, <- IH. destruct e; simpl; reflexivity.
Qed.

Lemma prefix_flat_map {A B : Type} (g : A -> list B) (p l : list A) :
  prefix p l -> prefix (flat_map g p) (flat_map g l).
Proof. intros [q ->]. exists (flat_map g q). apply flat_map_app. Qed.

Lemma compress_of_mip_chain (file : string) (side mips : Z)
    (options : CompressionOptions) :
  flat_map compress_of (mip_chain_calls file side mips options) =
  map (fun mip_level => (file, side, mip_level)) (range 0 mips).
Proof.
  unfold mip_chain_calls. induction (range 0 mips) as [|x r IH]; simpl;
    [reflexivity|]. rewrite IH. reflexivity.
Qed.

Lemma compress_of_cube_container (file : string) (size mips : Z)
    (options : CompressionOptions) :
  flat_map compress_of (cube_container_calls file size mips options) =
  face_major file mips.
Proof.
  unfold cube_container_calls, face_major.
  generalize (range 0 6). intros l.
  change (flat_map compress_of
            (flat_map (fun side => mip_chain_calls file side mips options) l) =
          flat_map (fun face => map (fun mip_level => (file, face, mip_level))
                                    (range 0 mips)) l).
  induction l as [|x r IH]; [reflexivity|].
  cbn [flat_map]. rewrite flat_map_app, IH, compress_of_mip_chain. reflexivity.
Qed.

(** C5. [count_mip_maps size] is [log2 size + 1], the integer logarithm
    rounding down, for every size from 1 on and so for every power of two
    (1024 gives 11, 32 gives 6, 1 gives 1); and when [compile_cube_map]
    returns 0, the base and the prefilter container declare that many levels
    in their header and have that many levels compressed for every face (the
    irradiance container, written between them, has the one level its header
    declares). *)
Theorem mip_count_declared_and_compressed :
  (forall size, 1 <= size -> count_mip_maps size = Z.log2 size + 1)
  /\ (forall k, 0 <= k -> count_mip_maps (2 ^ k) = k + 1)
  /\ count_mip_maps 1024 = 11 /\ count_mip_maps 32 = 6 /\ count_mip_maps 1 = 1
  /\ forall (W : World) (input output : string) (output_size : Z)
        (output_irradiance : string) (irradiance_size : Z)
        (output_prefilter : string) (prefilter_size : Z)
        (compression : Compression),
      1 <= prefilter_size <= 65535 ->
      snd (run (compile_cube_map W input output output_size output_irradiance
                  irradiance_size output_prefilter prefilter_size compression)) = 0 ->
      container_calls
        (fst (run (compile_cube_map W input output output_size output_irradiance
                     irradiance_size output_prefilter prefilter_size compression))) =
      cube_container_calls output (int32 output_size)
        (count_mip_maps output_size) (cube_map_compression_options compression)
      ++ cube_container_calls output_irradiance (int32 irradiance_size) 1
           irradiance_compression_options
      ++ cube_container_calls output_prefilter (int32 prefilter_size)
           (count_mip_maps prefilter_size)
           (prefilter_compression_options compression).
Proof.
  split; [exact count_mip_maps_log2|].
  split.
  { intros k Hk.
    rewrite count_mip_maps_log2
      by (pose proof (Z.pow_pos_nonneg 2 k ltac:(lia) Hk); lia).
    rewrite Z.log2_pow2 by exact Hk. reflexivity. }
  split; [reflexivity|]. split; [reflexivity|]. split; [reflexivity|].
  intros W input output output_size output_irradiance irradiance_size
    output_prefilter prefilter_size compression Hsize Hcode.
  destruct (finishes_run _ _
              (compile_cube_map_finishes W input output output_size
                 output_irradiance irradiance_size output_prefilter
                 prefilter_size compression Hsize)) as [[_ H]|[H _]].
  - exact H.
  - rewrite Hcode in H. discriminate.
Qed.

Lemma mip_count_declared_and_compressed_witness :
  1 <= 2 <= 65535 /\
  container_calls
    (fst (run (compile_cube_map (test_world None (Some hdr_3x5) always)
                 "in" "out" 2 "irradiance" 1 "prefilter" 2 GOOD_BUT_SLOW))) =
  cube_container_calls "out" 2 2 (cube_map_compression_options GOOD_BUT_SLOW)
  ++ cube_container_calls "irradiance" 1 1 irradiance_compression_options
  ++ cube_container_calls "prefilter" 2 2
       (prefilter_compression_options GOOD_BUT_SLOW).
Proof.
  split; [lia|].
  apply (proj2 (proj2 (proj2 (proj2 (proj2 mip_count_declared_and_compressed))))
           (test_world None (Some hdr_3x5) always)
           "in"%string "out"%string 2 "irradiance"%string 1
           "prefilter"%string 2 GOOD_BUT_SLOW).
  - lia.
  - vm_compute. reflexivity.
Defined.

(** C6. In every run of [compile_cube_map] the levels are compressed in the
    order base, irradiance, prefilter, and within each container face by
    face, 0 to 5, each face with its levels 0 to N-1 in increasing order:
    the sequence of compress calls is a prefix of that order, and the whole
    of it when the function returns 0. *)
Theorem cube_containers_face_major :
  forall (W : World) (input output : string) (output_size : Z)
         (output_irradiance : string) (irradiance_size : Z)
         (output_prefilter : string) (prefilter_size : Z)
         (compression : Compression),
    1 <= prefilter_size <= 65535 ->
    let r := run (compile_cube_map W input output output_size output_irradiance
                    irradiance_size output_prefilter prefilter_size compression) in
    let order := face_major output (count_mip_maps output_size)
                 ++ face_major output_irradiance 1
                 ++ face_major output_prefilter (count_mip_maps prefilter_size) in
    prefix (compress_calls (fst r)) order /\
    (snd r = 0 -> compress_calls (fst r) = order).
Proof.
  intros W input output output_size output_irradiance irradiance_size
    output_prefilter prefilter_size compression Hsize r order.
  assert (Horder : order =
            flat_map compress_of
              (expected_cube_map_calls output output_size output_irradiance
                 irradiance_size output_prefilter prefilter_size compression)).
  { unfold order, expected_cube_map_calls.
    rewrite !flat_map_app, !compress_of_cube_container. reflexivity. }
  rewrite Horder, compress_calls_container.
  destruct (finishes_run _ _
              (compile_cube_map_finishes W input output output_size
                 output_irradiance irradiance_size output_prefilter
                 prefilter_size compression Hsize)) as [[Hc H]|[Hc H]];
    fold r in Hc, H.
  - rewrite H. split; [apply prefix_refl|reflexivity].
  - split; [apply prefix_flat_map, H|]. intros H0. rewrite H0 in Hc. discriminate.
Qed.

Lemma cube_containers_face_major_witness :
  1 <= 2 <= 65535 /\
  compress_calls
    (fst (run (compile_cube_map (test_world None (Some hdr_3x5) always)
                 "in" "out" 2 "irradiance" 1 "prefilter" 2 GOOD_BUT_SLOW))) =
  face_major "out" 2 ++ face_major "irradiance" 1 ++ face_major "prefilter" 2.
Proof.
  split; [lia|].
  apply (cube_containers_face_major (test_world None (Some hdr_3x5) always)
           "in" "out" 2 "irradiance" 1 "prefilter" 2 GOOD_BUT_SLOW).
  - lia.
  - vm_compute. reflexivity.
Defined.

(* ===================================================================== *)
(** ** Properties of the trace that every step keeps *)
(* ===================================================================== *)

Section Keeps.

Variable W : World.
Variable P : list Event -> Prop.

Lemma keeps_pure {A : Type} (a : A) : keeps P (pure a).
Proof. intros s H. exact H. Qed.

Lemma keeps_return {A : Type} (code : Z) : keeps P (@return_ A code).
Proof. intros s H. exact H. Qed.

Lemma keeps_get_view : keeps P get_view.
Proof. intros s H. exact H. Qed.

Lemma keeps_next_view : keeps P next_view.
Proof. intros s H. exact H. Qed.

Lemma keeps_emit (e : Event) : stable P e -> keeps P (emit e).
Proof. intros He s H. simpl. apply He, H. Qed.

Lemma keeps_call (e : Event) : stable P e -> keeps P (call W e).
Proof. intros He s H. simpl. apply He, H. Qed.

Lemma keeps_bind {A B : Type} (m : M A) (k : A -> M B) :
  keeps P m -> (forall a, keeps P (k a)) -> keeps P (bind m k).
Proof.
  intros Hm Hk s H. unfold bind. specialize (Hm s H).
  destruct (m s) as [s1 [a|code]]; simpl in *.
  - apply Hk, Hm.
  - exact Hm.
Qed.

Lemma keeps_require (ok : bool) (message : string) :
  stable P (EvPrint message) -> keeps P (require ok message).
Proof.
  intros He. destruct ok; simpl.
  - apply keeps_pure.
  - apply keeps_bind; [apply keeps_emit, He|intros _; apply keeps_return].
Qed.

Lemma keeps_require_quiet (ok : bool) : keeps P (require_quiet ok).
Proof. destruct ok; simpl; [apply keeps_pure|apply keeps_return]. Qed.

Lemma keeps_create (e : Event) (message : string) :
  stable P e -> stable P (EvPrint message) -> keeps P (create W e message).
Proof.
  intros He Hp. unfold create.
  apply keeps_bind; [apply keeps_call, He|intros ok; apply keeps_require, Hp].
Qed.

Lemma keeps_for_each {A : Type} (l : list A) (body : A -> M unit) :
  (forall x, keeps P (body x)) -> keeps P (for_each l body).
Proof.
  intros Hbody. induction l as [|x r IH]; simpl.
  - apply keeps_pure.
  - apply keeps_bind; [apply Hbody|intros _; exact IH].
Qed.

Lemma keeps_fold_each {A V : Type} (l : list A) (body : V -> A -> M V) :
  (forall v x, keeps P (body v x)) -> forall v, keeps P (fold_each l body v).
Proof.
  intros Hbody. induction l as [|x r IH]; intros v; simpl.
  - apply keeps_pure.
  - apply keeps_bind; [apply Hbody|intros v'; apply IH].
Qed.

Lemma keeps_readTexture :
  (forall frame_id, stable P (EvReadTexture frame_id)) -> keeps P (readTexture W).
Proof. intros He s H. simpl. apply He, H. Qed.

Lemma stable_frames (frames : list Z) (t : list Event) :
  (forall n, stable P (EvFrame n)) -> P t -> P (t ++ map EvFrame frames).
Proof.
  intros He. revert t. induction frames as [|n r IH]; intros t H; simpl.
  - rewrite app_nil_r. exact H.
  - change (EvFrame n :: map EvFrame r) with ([EvFrame n] ++ map EvFrame r).
    rewrite app_assoc. apply IH, He, H.
Qed.

Lemma keeps_wait_until_available (frame_id : Z) :
  (forall n, stable P (EvFrame n)) -> keeps P (wait_until_available frame_id).
Proof.
  intros He s H.
  destruct (wait_until_available_spec frame_id s) as (frames & n & Ht & _).
  rewrite Ht. apply stable_frames; assumption.
Qed.

End Keeps.

Lemma stable_Forall (Q : Event -> Prop) (e : Event) : Q e -> stable (Forall Q) e.
Proof. intros He t H. apply Forall_app. split; [exact H|]. constructor; auto. Qed.

Lemma keeps_run (P : list Event -> Prop) (m : M unit) :
  keeps P m -> P [] -> P (fst (run m)).
Proof.
  intros Hm H0. unfold run. specialize (Hm initial H0).
  destruct (m initial) as [s r]. exact Hm.
Qed.

(** Steps that every property in use here lets pass once its events do. *)
Ltac keeps_step W solve_stable :=
  lazymatch goal with
  | |- keeps _ (pure _) => apply keeps_pure
  | |- keeps _ (return_ _) => apply keeps_return
  | |- keeps _ get_view => apply keeps_get_view
  | |- keeps _ next_view => apply keeps_next_view
  | |- keeps _ (require_quiet _) => apply keeps_require_quiet
  | |- keeps _ (bind _ _) => apply keeps_bind; [|intros]
  | |- keeps _ (for_each _ _) => apply keeps_for_each; intros
  | |- keeps _ (fold_each _ _ _) => apply keeps_fold_each; intros
  | |- keeps _ (emit _) => apply keeps_emit; solve_stable
  | |- keeps _ (print _) => unfold print
  | |- keeps _ (call _ _) => apply (keeps_call W); solve_stable
  | |- keeps _ (require _ _) => apply keeps_require; solve_stable
  | |- keeps _ (create _ _ _) => apply (keeps_create W); solve_stable
  | |- keeps _ (readTexture _) =>
      apply (keeps_readTexture W); intros; solve_stable
  | |- keeps _ (wait_until_available _) =>
      apply keeps_wait_until_available; intros; solve_stable
  | |- keeps _ (if ?b then _ else _) => destruct b
  | |- keeps _ (match ?x with _ => _ end) => destruct x
  end.

Ltac keeps_steps W special solve_stable :=
  repeat (cbv beta zeta; first [special | keeps_step W solve_stable]).

(* ===================================================================== *)
(** ** Prefilter settings *)
(* ===================================================================== *)

Lemma compile_cube_map_prefilter_settings (W : World) (input output : string)
    (output_size : Z) (output_irradiance : string) (irradiance_size : Z)
    (output_prefilter : string) (prefilter_size : Z)
    (compression : Compression) :
  Forall (prefilter_pass_settings output_size)
    (fst (run (compile_cube_map W input output output_size output_irradiance
                 irradiance_size output_prefilter prefilter_size compression))).
Proof.
  apply (keeps_run (Forall (prefilter_pass_settings output_size)));
    [|constructor].
  unfold compile_cube_map, initialize, load_hdr, create_resources,
    capture_cube_sides, compress_cube_map, render_cube_map, render_irradiance,
    compress_irradiance, render_prefilter, compress_prefilter,
    compress_mip_chain, read_back_surface, render_pass, create_program.
  keeps_steps W fail ltac:(apply stable_Forall; simpl; auto).
Qed.

(** The roughness [min(m, 4) / 4] is computed in single precision and is
    exact: four times the roughness is [min(m, 4)]; it does not decrease with
    the level and is 1 from level 4 on. *)
Lemma roughness_exact_and_monotone :
  (forall m output_size,
     prefilter_settings m output_size =
     [F32.div (F32.of_Z (Z.min m MAX_MIP_LEVELS)) (F32.of_Z MAX_MIP_LEVELS);
      F32.of_Z output_size; F32.zero; F32.zero])
  /\ (forall m, 0 <= m ->
        F32.mul (roughness m) (F32.of_Z MAX_MIP_LEVELS) =
        F32.of_Z (Z.min m MAX_MIP_LEVELS))
  /\ (forall m n, 0 <= m <= n -> F32.leb (roughness m) (roughness n) = true)
  /\ (forall m, MAX_MIP_LEVELS <= m -> roughness m = F32.one).
Proof.
  assert (Hcases : forall m, 0 <= m ->
            Z.min m MAX_MIP_LEVELS = 0 \/ Z.min m MAX_MIP_LEVELS = 1 \/
            Z.min m MAX_MIP_LEVELS = 2 \/ Z.min m MAX_MIP_LEVELS = 3 \/
            Z.min m MAX_MIP_LEVELS = 4) by (unfold MAX_MIP_LEVELS; lia).
  split; [reflexivity|]. split; [|split].
  - intros m Hm. unfold roughness, prefilter_settings. cbn [nth].
    destruct (Hcases m Hm) as [E|[E|[E|[E|E]]]]; rewrite E; vm_compute;
      reflexivity.
  - intros m n Hmn. unfold roughness, prefilter_settings. cbn [nth].
    assert (Hle : Z.min m MAX_MIP_LEVELS <= Z.min n MAX_MIP_LEVELS)
      by (unfold MAX_MIP_LEVELS; lia).
    destruct (Hcases m ltac:(lia)) as [E|[E|[E|[E|E]]]];
      destruct (Hcases n ltac:(lia)) as [G|[G|[G|[G|G]]]];
      rewrite E, G in *; try lia; vm_compute; reflexivity.
  - intros m Hm. unfold roughness, prefilter_settings. cbn [nth].
    replace (Z.min m MAX_MIP_LEVELS) with 4 by (unfold MAX_MIP_LEVELS in *; lia).
    vm_compute. reflexivity.
Qed.

(* ===================================================================== *)
(** ** Read back ordering *)
(* ===================================================================== *)

Lemma readback_scan_app (t : list Event) (e : Event) :
  readback_scan (t ++ [e]) = readback_step (readback_scan t) e.
Proof. unfold readback_scan. rewrite fold_left_app. reflexivity. Qed.

Lemma stable_no_pending (e : Event) :
  not_a_read e -> stable no_pending_readback e.
Proof.
  intros He t H. unfold no_pending_readback in *.
  rewrite readback_scan_app, H.
  destruct e; try reflexivity; try contradiction.
  destruct input_format as [[]|]; reflexivity.
Qed.

Lemma readback_frames_pending (frames : list Z) (frame_id : Z) :
  fold_left readback_step (map EvFrame frames) (true, Some frame_id) = (true, Some frame_id)
  \/ fold_left readback_step (map EvFrame frames) (true, Some frame_id) = (true, None).
Proof.
  induction frames as [|n r IH] using rev_ind; [left; reflexivity|].
  rewrite map_app, fold_left_app. simpl.
  destruct IH as [-> | ->]; simpl.
  - destruct (frame_id <=? n); auto.
  - auto.
Qed.

Lemma readback_frames_done (frames : list Z) (n frame_id : Z) :
  frame_id <= n ->
  fold_left readback_step (map EvFrame (frames ++ [n])) (true, Some frame_id) =
  (true, None).
Proof.
  intros H. rewrite map_app, fold_left_app. simpl.
  destruct (readback_frames_pending frames frame_id) as [-> | ->]; simpl.
  - destruct (Z.leb_spec frame_id n); [reflexivity|lia].
  - reflexivity.
Qed.

Lemma uint32_idem (n : Z) : uint32 (uint32 n) = uint32 n.
Proof. unfold uint32. apply Z.mod_mod. lia. Qed.

Lemma keeps_read_back_surface_no_pending (W : World) (source : Texture)
    (size image_size : Z) (no_texture no_surface : string) :
  keeps no_pending_readback
    (read_back_surface W source size image_size no_texture no_surface).
Proof.
  unfold read_back_surface.
  apply keeps_bind; [apply keeps_get_view|intros view].
  apply keeps_bind;
    [apply keeps_create; apply stable_no_pending; exact I|intros _].
  apply keeps_bind; [apply keeps_emit, stable_no_pending; exact I|intros _].
  intros s H. unfold bind at 1. cbn [readTexture].
  set (frame_id := uint32 (frame_no s + read_latency W (trace s))).
  set (s1 := add_event s (EvReadTexture frame_id)).
  unfold bind at 1.
  destruct (wait_until_available_spec frame_id s1) as (frames & n & Ht & _ & Hr & Hn).
  destruct (wait_until_available frame_id s1) as [s2 r] eqn:E. simpl in Ht, Hr.
  subst r.
  assert (H2 : no_pending_readback (trace s2)).
  { rewrite Ht. unfold no_pending_readback, readback_scan in *.
    rewrite fold_left_app. simpl trace. rewrite fold_left_app, H. simpl.
    apply readback_frames_done. unfold frame_id in *.
    rewrite uint32_idem in Hn. exact Hn. }
  revert s2 H2 E Ht. clear.
  intros s2 H2 _ _. revert s2 H2.
  change (keeps no_pending_readback
            (emit (EvDestroyTexture blit_texture) ;;
             ok <- call W (EvSetImage (Some InputFormat_RGBA_16F) image_size image_size) ;;
             require ok no_surface ;;
             pure (with_image null_surface image_size image_size
                     (image_of_rgba16f W image_size image_size
                        (read_back W (trace s1)))))%prog).
  keeps_steps W fail ltac:(apply stable_no_pending; exact I).
Qed.

Lemma compile_cube_map_no_pending (W : World) (input output : string)
    (output_size : Z) (output_irradiance : string) (irradiance_size : Z)
    (output_prefilter : string) (prefilter_size : Z)
    (compression : Compression) :
  no_pending_readback
    (fst (run (compile_cube_map W input output output_size output_irradiance
                 irradiance_size output_prefilter prefilter_size compression))).
Proof.
  apply (keeps_run no_pending_readback); [|reflexivity].
  unfold compile_cube_map, initialize, load_hdr, create_resources,
    capture_cube_sides, compress_cube_map, render_cube_map, render_irradiance,
    compress_irradiance, render_prefilter, compress_prefilter,
    compress_mip_chain, render_pass, create_program.
  keeps_steps W ltac:(apply keeps_read_back_surface_no_pending)
    ltac:(apply stable_no_pending; exact I).
Qed.

(** C7. In every run of [compile_cube_map], whatever the collaborators
    answer, no buffer filled by [readTexture] is made a surface (and so none
    is compressed) before [bgfx::frame] has returned a frame number at least
    the token [readTexture] returned; and the wait loop ends, its last frame
    number being at least the token. *)
Theorem readback_waits_for_frame :
  (forall (W : World) (input output : string) (output_size : Z)
          (output_irradiance : string) (irradiance_size : Z)
          (output_prefilter : string) (prefilter_size : Z)
          (compression : Compression),
     readback_ordered
       (fst (run (compile_cube_map W input output output_size
                    output_irradiance irradiance_size output_prefilter
                    prefilter_size compression))))
  /\ forall (frame_id : Z) (s : St),
       exists (frames : list Z) (current_frame_id : Z),
         wait_until_available frame_id s =
           ({| trace := trace s ++ map EvFrame (frames ++ [current_frame_id]);
               current_view := current_view s;
               frame_no := current_frame_id |},
            Value current_frame_id)
         /\ uint32 frame_id <= current_frame_id.
Proof.
  split.
  - intros. unfold readback_ordered.
    rewrite (compile_cube_map_no_pending W). reflexivity.
  - intros frame_id s. funelim (wait_until_available frame_id s).
    + destruct H as (frames & n & Hw & Hn).
      exists (uint32 (frame_no s + 1) :: frames), n.
      rewrite Hw. simpl. rewrite <- app_assoc. simpl. auto.
    + exists [], (uint32 (frame_no s + 1)). simpl. split; [reflexivity|lia].
Qed.

Example readback_scan_rejects_early_use :
  ~ readback_ordered
      [EvReadTexture 5; EvFrame 4; EvSetImage (Some InputFormat_RGBA_16F) 1 1].
Proof. unfold readback_ordered. simpl. discriminate. Qed.

(* ===================================================================== *)
(** ** Compression options *)
(* ===================================================================== *)





(* ===================================================================== *)
(** ** Validation of the image size *)
(* ===================================================================== *)

Lemma land_pred_nonzero (n : Z) :
  0 < n -> ~ power_of_two n -> Z.land n (n - 1) <> 0.
Proof.
  intros Hpos Hnot Hland.
  pose proof (Z.log2_spec n Hpos) as [Hlo Hhi].
  pose proof (Z.log2_nonneg n) as Hk.
  assert (Hne : n <> 2 ^ Z.log2 n).
  { intros E. apply Hnot. exists (Z.log2 n). auto. }
  assert (Hlog : Z.log2 (n - 1) = Z.log2 n).
  { apply Z.log2_unique; [exact Hk|]. rewrite <- Z.add_1_r in Hhi. lia. }
  assert (Hb1 : Z.testbit n (Z.log2 n) = true) by (apply Z.bit_log2; lia).
  assert (Hb2 : Z.testbit (n - 1) (Z.log2 n) = true).
  { rewrite <- Hlog. apply Z.bit_log2.
    pose proof (Z.pow_pos_nonneg 2 (Z.log2 n) ltac:(lia) Hk). lia. }
  pose proof (Z.land_spec n (n - 1) (Z.log2 n)) as Hs.
  rewrite Hland, Z.bits_0, Hb1, Hb2 in Hs. discriminate.
Qed.

Lemma land_pred_negative (n : Z) : n < 0 -> Z.land n (n - 1) <> 0.
Proof.
  intros H.
  assert (Z.land n (n - 1) < 0) by (apply Z.land_neg; lia). lia.
Qed.

Lemma int32_pred (n : Z) : int_dimension n -> int32 (n - 1) = n - 1.
Proof. unfold int_dimension, int32. intros H. rewrite Z.mod_small; lia. Qed.

Lemma size_rejected_bad (w h : Z) :
  int_dimension w -> int_dimension h -> bad_dimensions w h ->
  size_rejected w h = true.
Proof.
  intros Hw Hh Hbad. unfold size_rejected.
  rewrite !int32_pred by assumption.
  destruct (Z.leb_spec w 0); [reflexivity|].
  destruct (Z.leb_spec h 0); [reflexivity|].
  rewrite !Z.gtb_ltb.
  destruct (Z.ltb_spec 65535 w); [reflexivity|].
  destruct (Z.ltb_spec 65535 h); [reflexivity|].
  destruct (Z.eqb_spec (Z.land w (w - 1)) 0) as [Ew|Ew]; [|reflexivity].
  destruct (Z.eqb_spec (Z.land h (h - 1)) 0) as [Eh|Eh]; [|reflexivity].
  exfalso. destruct Hbad as [?|[?|[?|[?|[Hp|Hp]]]]]; try lia.
  - apply (land_pred_nonzero w); assumption.
  - apply (land_pred_nonzero h); assumption.
Qed.

Lemma size_rejected_parallax_bad (w h : Z) :
  int_dimension w -> int_dimension h -> bad_dimensions w h ->
  size_rejected_parallax w h = true.
Proof.
  intros Hw Hh Hbad. unfold size_rejected_parallax.
  rewrite !int32_pred by assumption.
  destruct (Z.eqb_spec w 0); [reflexivity|].
  destruct (Z.eqb_spec h 0); [reflexivity|].
  rewrite !Z.gtb_ltb.
  destruct (Z.ltb_spec 65535 w); [reflexivity|].
  destruct (Z.ltb_spec 65535 h); [reflexivity|].
  destruct (Z.eqb_spec (Z.land w (w - 1)) 0) as [Ew|Ew]; [|reflexivity].
  destruct (Z.eqb_spec (Z.land h (h - 1)) 0) as [Eh|Eh]; [|reflexivity].
  exfalso.
  assert (0 < w) by (destruct (Z_lt_dec w 0) as [Hn|Hn];
                     [exfalso; apply (land_pred_negative w); assumption|lia]).
  assert (0 < h) by (destruct (Z_lt_dec h 0) as [Hn|Hn];
                     [exfalso; apply (land_pred_negative h); assumption|lia]).
  destruct Hbad as [?|[?|[?|[?|[Hp|Hp]]]]]; try lia.
  - apply (land_pred_nonzero w); assumption.
  - apply (land_pred_nonzero h); assumption.
Qed.

Lemma hdr_size_rejected_out_of_range (w h : Z) :
  w <= 0 \/ h <= 0 \/ 65535 < w \/ 65535 < h -> hdr_size_rejected w h = true.
Proof.
  intros H. unfold hdr_size_rejected. rewrite !Z.gtb_ltb.
  destruct (Z.leb_spec w 0); [reflexivity|].
  destruct (Z.leb_spec h 0); [reflexivity|].
  destruct (Z.ltb_spec 65535 w); [reflexivity|].
  destruct (Z.ltb_spec 65535 h); [reflexivity|]. lia.
Qed.

Lemma load_hdr_rejects (W : World) (input : string) (w h : Z)
    (data : list float) (s : St) :
  stbi_loadf W input = Some (w, h, data) ->
  hdr_size_rejected w h = true ->
  load_hdr W input s =
  (add_event (add_event s (EvStbiLoadf input))
     (EvPrint "Texture compiler error. Texture is too big."), Returned 1).
Proof.
  intros Hload Hrej. unfold load_hdr, bind, emit. rewrite Hload, Hrej.
  reflexivity.
Qed.

Lemma compile_cube_map_rejects (W : World) (input output : string)
    (output_size : Z) (output_irradiance : string) (irradiance_size : Z)
    (output_prefilter : string) (prefilter_size : Z)
    (compression : Compression) (w h : Z) (data : list float) :
  stbi_loadf W input = Some (w, h, data) ->
  hdr_size_rejected w h = true ->
  let r := run (compile_cube_map W input output output_size output_irradiance
                  irradiance_size output_prefilter prefilter_size compression) in
  snd r = 1 /\ Forall (fun e => writes_output e = false) (fst r).
Proof.
  intros Hload Hrej r.
  assert (H : exists s',
             compile_cube_map W input output output_size output_irradiance
               irradiance_size output_prefilter prefilter_size compression
               initial = (s', Returned 1)
             /\ Forall (fun e => writes_output e = false) (trace s')).
  { unfold compile_cube_map.
    pose proof (emits_initialize W initial) as [p [_ Hcode]].
    assert (Hkeeps : keeps (Forall (fun e => writes_output e = false))
                       (initialize W)).
    { unfold initialize.
      keeps_steps W fail ltac:(apply stable_Forall; reflexivity). }
    specialize (Hkeeps initial (Forall_nil _)).
    unfold bind at 1.
    destruct (initialize W initial) as [s1 [[]|code]]; simpl in Hcode, Hkeeps.
    - unfold bind at 1.
      rewrite (load_hdr_rejects W input w h data s1 Hload Hrej).
      eexists. split; [reflexivity|]. simpl.
      apply Forall_app. split; [|repeat constructor].
      apply Forall_app. split; [exact Hkeeps|repeat constructor].
    - destruct Hcode as [-> _]. eexists. split; [reflexivity|exact Hkeeps]. }
  destruct H as [s' [E Hs']]. unfold r, run. rewrite E. simpl. auto.
Qed.

(** C2 fails for the cube map: a 3x5 panorama, of which neither side
    is a power of two, is compiled, all three containers are written and the
    result is 0. *)
Lemma cube_map_accepts_non_power_of_two :
  bad_dimensions 3 5 /\
  ~ rejected_before_any_work
      (run (compile_cube_map (test_world None (Some hdr_3x5) always)
              "in" "out" 2 "irradiance" 1 "prefilter" 2 GOOD_BUT_SLOW)).
Proof.
  split.
  - right. right. right. right. left. intros [k [Hk E]].
    assert (k < 2) by (apply (Z.pow_lt_mono_r_iff 2); lia).
    assert (k = 0 \/ k = 1) as [-> | ->] by lia; discriminate.
  - intros [Hcode _]. apply Hcode. vm_compute. reflexivity.
Qed.

Lemma create_succeeds (W : World) (e : Event) (message : string) (s : St) :
  (forall t, succeeds W t = true) ->
  create W e message s = (add_event s e, Value tt).
Proof. intros Hall. unfold create, call, bind. rewrite Hall. reflexivity. Qed.

Lemma initialize_succeeds (W : World) (s : St) :
  (forall t, succeeds W t = true) ->
  initialize W s =
  (add_event (add_event (add_event (add_event s EvSdlInit) EvCreateWindow)
                EvGetWindowWMInfo) EvBgfxInit, Value tt).
Proof.
  intros Hall. unfold initialize, bind.
  rewrite !create_succeeds by exact Hall. reflexivity.
Qed.

Lemma cube_map_validation_after_initialization (W : World)
    (input output : string) (output_size : Z) (output_irradiance : string)
    (irradiance_size : Z) (output_prefilter : string) (prefilter_size : Z)
    (compression : Compression) (w h : Z) (data : list float) :
  (forall t, succeeds W t = true) ->
  stbi_loadf W input = Some (w, h, data) ->
  hdr_size_rejected w h = true ->
  run (compile_cube_map W input output output_size output_irradiance
         irradiance_size output_prefilter prefilter_size compression) =
  ([EvSdlInit; EvCreateWindow; EvGetWindowWMInfo; EvBgfxInit;
    EvStbiLoadf input;
    EvPrint "Texture compiler error. Texture is too big."], 1).
Proof.
  intros Hall Hload Hrej.
  unfold run, compile_cube_map, bind.
  rewrite (initialize_succeeds W initial Hall).
  rewrite (load_hdr_rejects W input w h data _ Hload Hrej). reflexivity.
Qed.

(** C2, amended. The three 2D compile functions reject a decoded image whose
    width or height is zero, exceeds 65535 or is not a power of two before
    any other call: the run consists of the decoding and one message, and
    returns 1. [compile_cube_map] rejects a panorama whose width or height
    is not positive or exceeds 65535, returns 1 and writes no output; it
    checks after SDL and bgfx were initialised, and it does not require
    powers of two. *)
Theorem invalid_size_rejected :
  (forall (W : World) (input output : string) (compression : Compression)
          (w h : Z) (data : list Z),
     stbi_load W input = Some (w, h, data) ->
     int_dimension w -> int_dimension h ->
     bad_dimensions w h ->
     let rejection :=
       ([EvStbiLoad input;
         EvPrint "Texture compiler error. Image size is not power of two."], 1) in
     run (compile_albedo_roughness W input output compression) = rejection
     /\ run (compile_normal_metalness_ambient_occlusion W input output
               compression) = rejection
     /\ run (compile_parallax W input output compression) = rejection
     /\ rejected_before_any_work rejection)
  /\ (forall (W : World) (input output : string) (output_size : Z)
            (output_irradiance : string) (irradiance_size : Z)
            (output_prefilter : string) (prefilter_size : Z)
            (compression : Compression) (w h : Z) (data : list float),
       stbi_loadf W input = Some (w, h, data) ->
       w <= 0 \/ h <= 0 \/ 65535 < w \/ 65535 < h ->
       let r := run (compile_cube_map W input output output_size
                       output_irradiance irradiance_size output_prefilter
                       prefilter_size compression) in
       snd r = 1
       /\ Forall (fun e => writes_output e = false) (fst r)
       /\ ((forall t, succeeds W t = true) ->
           r = ([EvSdlInit; EvCreateWindow; EvGetWindowWMInfo; EvBgfxInit;
                 EvStbiLoadf input;
                 EvPrint "Texture compiler error. Texture is too big."], 1))).
Proof.
  split.
  - intros W input output compression w h data Hload Hw Hh Hbad rejection.
    pose proof (size_rejected_bad w h Hw Hh Hbad) as Hrej.
    pose proof (size_rejected_parallax_bad w h Hw Hh Hbad) as Hrejp.
    split; [|split; [|split]].
    + unfold run, compile_albedo_roughness, bind, emit.
      rewrite Hload, Hrej. reflexivity.
    + unfold run, compile_normal_metalness_ambient_occlusion, bind, emit.
      rewrite Hload, Hrej. reflexivity.
    + unfold run, compile_parallax, bind, emit.
      rewrite Hload, Hrejp. reflexivity.
    + split; [discriminate|]. repeat constructor.
  - intros W input output output_size output_irradiance irradiance_size
      output_prefilter prefilter_size compression w h data Hload Hrange r.
    pose proof (hdr_size_rejected_out_of_range w h Hrange) as Hrej.
    destruct (compile_cube_map_rejects W input output output_size
                output_irradiance irradiance_size output_prefilter
                prefilter_size compression w h data Hload Hrej) as [Hc Ht].
    split; [exact Hc|]. split; [exact Ht|].
    intros Hall.
    exact (cube_map_validation_after_initialization W input output output_size
             output_irradiance irradiance_size output_prefilter prefilter_size
             compression w h data Hall Hload Hrej).
Qed.

Lemma invalid_size_rejected_witness :
  stbi_load (test_world (Some (3, 4, [])) None always) "in" = Some (3, 4, [])
  /\ int_dimension 3 /\ int_dimension 4 /\ bad_dimensions 3 4
  /\ run (compile_parallax (test_world (Some (3, 4, [])) None always)
            "in" "out" NO_COMPRESSION) =
     ([EvStbiLoad "in";
       EvPrint "Texture compiler error. Image size is not power of two."], 1)
  /\ snd (run (compile_cube_map (test_world None (Some (70000, 4, [])) always)
                 "in" "out" 2 "irradiance" 1 "prefilter" 2 NO_COMPRESSION)) = 1.
Proof.
  assert (Hbad : bad_dimensions 3 4).
  { right. right. right. right. left. intros [k [Hk E]].
    assert (k < 2) by (apply (Z.pow_lt_mono_r_iff 2); lia).
    assert (k = 0 \/ k = 1) as [-> | ->] by lia; discriminate. }
  split; [reflexivity|]. split; [unfold int_dimension; lia|].
  split; [unfold int_dimension; lia|]. split; [exact Hbad|].
  split.
  - apply (proj1 invalid_size_rejected
             (test_world (Some (3, 4, [])) None always)
             "in"%string "out"%string NO_COMPRESSION 3 4 []);
      [reflexivity|unfold int_dimension; lia|unfold int_dimension; lia|exact Hbad].
  - apply (proj2 invalid_size_rejected
             (test_world None (Some (70000, 4, [])) always)
             "in"%string "out"%string 2 "irradiance"%string 1
             "prefilter"%string 2 NO_COMPRESSION 70000 4 []);
      [reflexivity|lia].
Defined.

(* ===================================================================== *)
(** ** The surfaces compressed for a normal, metalness and ambient
       occlusion texture *)
(* ===================================================================== *)

Lemma compressed_surfaces_app (t u : list Event) :
  compressed_surfaces (t ++ u) = compressed_surfaces t ++ compressed_surfaces u.
Proof. unfold compressed_surfaces. apply flat_map_app. Qed.

Section PackedLevels.

Variable W : World.
Hypothesis Hall : forall t, succeeds W t = true.
Variable output : string.
Variable compression_options : CompressionOptions.
Variable total_mip_levels : Z.

Lemma compress_packed_level_succeeds (surface normal mao : Surface)
    (mip_level : Z) (s : St) :
  default_flags surface ->
  exists s',
    compress_packed_level W output compression_options total_mip_levels
      (surface, normal, mao) mip_level s =
    (s', Value (packed_surface normal mao,
                if mip_level + 1 <? total_mip_levels
                then next_normal W normal else normal,
                if mip_level + 1 <? total_mip_levels
                then box_mipmap W mao else mao))
    /\ compressed_surfaces (trace s') =
       compressed_surfaces (trace s) ++ [(mip_level, packed_surface normal mao)].
Proof.
  intros (Hw & Ha & Hn).
  assert (Hpack : with_image surface (width normal) (height normal)
                    (image_of_planes (width normal) (height normal)
                       (channel normal 0) (channel normal 1)
                       (channel mao 2) (channel mao 3)) =
                  packed_surface normal mao).
  { unfold packed_surface, with_image. rewrite Hw, Ha, Hn. reflexivity. }
  unfold compress_packed_level, bind, call, require_quiet, require.
  cbn [add_event trace]. rewrite !Hall. rewrite Hpack.
  destruct (mip_level + 1 <? total_mip_levels);
    repeat first [progress rewrite Hall | progress cbn [pure add_event trace]];
    (eexists; split; [reflexivity|]);
    cbn [trace add_event]; rewrite !compressed_surfaces_app; simpl;
    rewrite ?app_nil_r; reflexivity.
Qed.

Lemma iterate_next {A : Type} (f : A -> A) (n : nat) (x : A) :
  iterate f (S n) x = iterate f n (f x).
Proof. reflexivity. Qed.

Lemma packed_levels (n : nat) :
  forall (j : Z) (surface normal mao : Surface) (s : St),
    default_flags surface ->
    Z.to_nat (total_mip_levels - j) = n ->
    exists s' v,
      fold_each (range j total_mip_levels)
        (compress_packed_level W output compression_options total_mip_levels)
        (surface, normal, mao) s = (s', Value v)
      /\ compressed_surfaces (trace s') =
         compressed_surfaces (trace s) ++
         map (fun k => (k, packed_surface
                             (iterate (next_normal W) (Z.to_nat (k - j)) normal)
                             (iterate (box_mipmap W) (Z.to_nat (k - j)) mao)))
             (range j total_mip_levels).
Proof.
  induction n as [|n IH]; intros j surface normal mao s Hflags Hn.
  - rewrite range_nil by lia. simpl. exists s, (surface, normal, mao).
    rewrite app_nil_r. auto.
  - rewrite range_cons by lia. cbn [fold_each map].
    destruct (compress_packed_level_succeeds surface normal mao j s Hflags)
      as [s1 [E1 Ht1]].
    unfold bind at 1. rewrite E1.
    destruct (IH (j + 1) (packed_surface normal mao)
                (if j + 1 <? total_mip_levels then next_normal W normal else normal)
                (if j + 1 <? total_mip_levels then box_mipmap W mao else mao)
                s1 ltac:(repeat split) ltac:(lia)) as [s2 [v [E2 Ht2]]].
    exists s2, v. split; [exact E2|].
    rewrite Ht2, Ht1, <- app_assoc. f_equal. cbn [app].
    replace (Z.to_nat (j - j)) with 0%nat by lia. cbn [iterate]. f_equal.
    apply map_ext_in. intros k Hk.
    destruct (Z.ltb_spec (j + 1) total_mip_levels) as [Hlt|Hge].
    + apply in_map_iff in Hk as [i [Hi _]].
      replace (Z.to_nat (k - j)) with (S (Z.to_nat (k - (j + 1)))) by lia.
      reflexivity.
    + rewrite range_nil in Hk by lia. destruct Hk.
Qed.

End PackedLevels.

Lemma length_deinterleave {A B : Type} (convert : A -> B) (d : A)
    (data : list A) (count c : nat) :
  List.length (deinterleave convert d data count c) = count.
Proof. unfold deinterleave. rewrite length_map, length_seq. reflexivity. Qed.

Lemma length_blue_normal_channel (size : nat) (red green : list float) :
  List.length (blue_normal_channel size red green) = size.
Proof. unfold blue_normal_channel. rewrite length_map, length_seq. reflexivity. Qed.

Lemma firstn_exact {A : Type} (l : list A) (n : nat) :
  List.length l = n -> firstn n l = l.
Proof. intros H. apply firstn_all2. lia. Qed.

Lemma normal_surface_planes (w h : Z) (data : list Z) :
  let surface := decoded_surface w h data in
  planes (normal_surface w h data) =
  [channel surface 0; channel surface 1;
   blue_normal_channel (pixel_count w h) (channel surface 0) (channel surface 1);
   repeat F32.one (pixel_count w h)].
Proof.
  cbv zeta. unfold normal_surface, decoded_surface, image_of_planes.
  cbn [planes surface_flags setNormalMap setAlphaMode setWrapMode with_image
       channel image_of_bgra8 nth map].
  rewrite !(firstn_exact _ _ (length_deinterleave _ _ _ _ _)).
  rewrite (firstn_exact _ _ (length_blue_normal_channel _ _ _)).
  rewrite (firstn_exact _ _ (repeat_length _ _)). reflexivity.
Qed.

Lemma metalness_ambient_occlusion_channels (W : World) (w h : Z) (data : list Z) :
  let surface := decoded_surface w h data in
  let mao := metalness_ambient_occlusion_surface W w h data in
  channel mao 2 = channel surface 2 /\ channel mao 3 = channel surface 3.
Proof.
  cbv zeta. unfold metalness_ambient_occlusion_surface, decoded_surface, copyChannel.
  cbn [width height with_image]. rewrite ?Z.eqb_refl.
  cbn [andb width height with_image planes]. rewrite ?Z.eqb_refl.
  split; reflexivity.
Qed.

Lemma first_packed_surface_planes (W : World) (w h : Z) (data : list Z) :
  planes (packed_surface (normal_surface w h data)
            (metalness_ambient_occlusion_surface W w h data)) =
  planes (decoded_surface w h data).
Proof.
  destruct (metalness_ambient_occlusion_channels W w h data) as [H2 H3].
  unfold packed_surface. cbn [planes with_image]. unfold image_of_planes.
  rewrite H2, H3.
  unfold channel at 1 2. rewrite normal_surface_planes. cbn [nth].
  unfold normal_surface, decoded_surface.
  cbn [width height planes surface_flags setNormalMap setAlphaMode setWrapMode
       with_image channel image_of_bgra8 nth map].
  rewrite !(firstn_exact _ _ (length_deinterleave _ _ _ _ _)). reflexivity.
Qed.

Lemma compile_normal_metalness_ambient_occlusion_succeeds (W : World)
    (input output : string) (compression : Compression) (w h : Z)
    (data : list Z) :
  (forall t, succeeds W t = true) ->
  stbi_load W input = Some (w, h, data) ->
  size_rejected w h = false ->
  let r := run (compile_normal_metalness_ambient_occlusion W input output
                  compression) in
  snd r = 0 /\
  compressed_surfaces (fst r) =
  map (fun k => (k, packed_surface
                      (iterate (next_normal W) (Z.to_nat k)
                         (normal_surface w h data))
                      (iterate (box_mipmap W) (Z.to_nat k)
                         (metalness_ambient_occlusion_surface W w h data))))
      (range 0 (countMipmaps W (decoded_surface w h data))).
Proof.
  intros Hall Hload Hvalid r. unfold r, run.
  unfold compile_normal_metalness_ambient_occlusion.
  unfold bind, emit, call, require, require_quiet.
  rewrite Hload, Hvalid. cbn [negb pure add_event trace initial app].
  repeat (rewrite Hall; cbn [pure add_event trace]).
  match goal with
  | |- context [fold_each _ _ _ ?s] =>
      destruct (packed_levels W Hall output (color_compression_options compression)
                  (countMipmaps W (decoded_surface w h data))
                  (Z.to_nat (countMipmaps W (decoded_surface w h data) - 0))
                  0 (decoded_surface w h data) (normal_surface w h data)
                  (metalness_ambient_occlusion_surface W w h data) s
                  ltac:(repeat split) eq_refl) as [s' [last [E Ht]]]
  end.
  match goal with
  | |- context [fold_each ?l ?b ?v0 ?s0] =>
      assert (E' : fold_each l b v0 s0 = (s', Value last)) by exact E;
      rewrite E'
  end.
  cbn [return_ fst snd exit_code]. split; [reflexivity|].
  rewrite Ht. cbn [trace compressed_surfaces flat_map app].
  apply map_ext. intros k. rewrite Z.sub_0_r. reflexivity.
Qed.

(** C4 fails: for a 1x1 image exactly one surface is compressed, and
    no compressed surface is tagged as a normal map. *)
Lemma normal_map_is_not_compressed :
  let t := fst (run (compile_normal_metalness_ambient_occlusion
                       (test_world (Some image_1x1) None always)
                       "in" "out" GOOD_BUT_SLOW)) in
  ~ normal_map_compressed t /\ List.length (compressed_surfaces t) = 1%nat.
Proof.
  cbv zeta. split; [|vm_compute; reflexivity].
  intros (file & surface & face & mip_level & options & Hin & Hflag).
  vm_compute in Hin.
  repeat (destruct Hin as [Hin|Hin]; [try discriminate Hin|]);
    try contradiction.
  inversion Hin; subst. discriminate Hflag.
Qed.

(** C4, amended. For a valid input and collaborators that succeed, the
    function builds a normal map with the channels (R, G, reconstructed Z,
    1), tagged as a normal map, and a metalness and ambient occlusion map
    holding metalness and ambient occlusion in channels 2 and 3. Neither is
    compressed. At every mip level one surface is compressed, made of
    channels 0 and 1 of the normal map and channels 2 and 3 of the other map
    at that level; it is not tagged as a normal map, and at level 0 its
    planes are those of the decoded image. The function returns 0. *)
Theorem packed_surface_compressed :
  forall (W : World) (input output : string) (compression : Compression)
         (w h : Z) (data : list Z),
    (forall t, succeeds W t = true) ->
    stbi_load W input = Some (w, h, data) ->
    size_rejected w h = false ->
    let surface := decoded_surface w h data in
    let normal := normal_surface w h data in
    let metalness_ambient_occlusion :=
      metalness_ambient_occlusion_surface W w h data in
    let r := run (compile_normal_metalness_ambient_occlusion W input output
                    compression) in
    planes normal =
      [channel surface 0; channel surface 1;
       blue_normal_channel (pixel_count w h) (channel surface 0)
         (channel surface 1);
       repeat F32.one (pixel_count w h)]
    /\ isNormalMap normal = true
    /\ channel metalness_ambient_occlusion 2 = channel surface 2
    /\ channel metalness_ambient_occlusion 3 = channel surface 3
    /\ isNormalMap metalness_ambient_occlusion = false
    /\ snd r = 0
    /\ compressed_surfaces (fst r) =
       map (fun k => (k, packed_surface
                           (iterate (next_normal W) (Z.to_nat k) normal)
                           (iterate (box_mipmap W) (Z.to_nat k)
                              metalness_ambient_occlusion)))
           (range 0 (countMipmaps W surface))
    /\ (forall n m, isNormalMap (packed_surface n m) = false)
    /\ planes (packed_surface normal metalness_ambient_occlusion) =
       planes surface.
Proof.
  intros W input output compression w h data Hall Hload Hvalid
    surface normal mao r.
  destruct (metalness_ambient_occlusion_channels W w h data) as [H2 H3].
  destruct (compile_normal_metalness_ambient_occlusion_succeeds W input output
              compression w h data Hall Hload Hvalid) as [Hcode Hsurfaces].
  split; [apply normal_surface_planes|]. split; [reflexivity|].
  split; [exact H2|]. split; [exact H3|]. split; [reflexivity|].
  split; [exact Hcode|]. split; [exact Hsurfaces|].
  split; [reflexivity|]. apply first_packed_surface_planes.
Qed.

Lemma packed_surface_compressed_witness :
  size_rejected 1 1 = false /\
  compressed_surfaces
    (fst (run (compile_normal_metalness_ambient_occlusion
                 (test_world (Some image_1x1) None always)
                 "in" "out" GOOD_BUT_SLOW))) =
  [(0, packed_surface (normal_surface 1 1 [128; 128; 0; 0])
         (metalness_ambient_occlusion_surface
            (test_world (Some image_1x1) None always) 1 1 [128; 128; 0; 0]))].
Proof.
  split; [reflexivity|].
  pose proof (packed_surface_compressed
                (test_world (Some image_1x1) None always)
                "in"%string "out"%string GOOD_BUT_SLOW 1 1 [128; 128; 0; 0]
                (fun _ => eq_refl) eq_refl eq_refl) as H.
  cbv zeta in H.
  destruct H as (_ & _ & _ & _ & _ & _ & H & _). rewrite H.
  vm_compute. reflexivity.
Defined.

(* ===================================================================== *)
(** ** A failed mip build *)
(* ===================================================================== *)

(** C1 at a failing input. A 2x2 image has two mip levels; the codec fails to
    build the second. [compile_albedo_roughness] and
    [compile_normal_metalness_ambient_occlusion] compress level 0, report the
    failure and return 1. [compile_parallax] reports the failure, goes on to
    compress level 1 from the surface of level 0, and returns 0. *)
Theorem parallax_continues_after_mip_failure :
  let W := test_world (Some image_2x2) None mip_build_fails in
  let albedo := run (compile_albedo_roughness W "in" "out" GOOD_BUT_SLOW) in
  let normal := run (compile_normal_metalness_ambient_occlusion W "in" "out"
                       GOOD_BUT_SLOW) in
  let parallax := run (compile_parallax W "in" "out" GOOD_BUT_SLOW) in
  (snd albedo = 1 /\ compress_calls (fst albedo) = [("out"%string, 0, 0)])
  /\ (snd normal = 1 /\ compress_calls (fst normal) = [("out"%string, 0, 0)])
  /\ snd parallax = 0
  /\ compress_calls (fst parallax) = [("out"%string, 0, 0); ("out"%string, 0, 1)]
  /\ In (EvPrint "Texture compiler error. Failed to build a mip map.")
        (fst parallax)
  /\ map snd (compressed_surfaces (fst parallax)) =
     [surface_flags false (with_image null_surface 2 2
                             (image_of_bgra8 2 2 (snd image_2x2)));
      surface_flags false (with_image null_surface 2 2
                             (image_of_bgra8 2 2 (snd image_2x2)))].
Proof.
  cbv zeta. repeat split; try (vm_compute; reflexivity).
  vm_compute. tauto.
Qed.

(** The cube map aborts as well when a mip build of the base container
    fails. *)
Lemma cube_map_aborts_on_mip_failure :
  let r := run (compile_cube_map
                  (test_world None (Some hdr_3x5) mip_build_fails)
                  "in" "out" 2 "irradiance" 1 "prefilter" 2 GOOD_BUT_SLOW) in
  snd r = 1 /\ compress_calls (fst r) = [("out"%string, 0, 0)].
Proof. cbv zeta. split; vm_compute; reflexivity. Qed.

(* ===================================================================== *)
(** ** The range of the reconstructed channel *)
(* ===================================================================== *)

Lemma nth_is_byte (l : list Z) (j : nat) :
  Forall is_byte l -> is_byte (nth j l 0).
Proof.
  intros H. destruct (Nat.lt_ge_cases j (List.length l)) as [Hj|Hj].
  - rewrite Forall_forall in H. apply H, nth_In, Hj.
  - rewrite nth_overflow by exact Hj. unfold is_byte. lia.
Qed.

Lemma swap_red_blue_bytes (count : nat) (data : list Z) :
  Forall is_byte data -> Forall is_byte (swap_red_blue count data).
Proof.
  intros H. unfold swap_red_blue. apply Forall_forall. intros b Hb.
  apply in_map_iff in Hb as [j [<- _]].
  destruct (j / 4 <? count)%nat; [|apply nth_is_byte, H].
  destruct (j mod 4)%nat as [|[|[|k]]]; apply nth_is_byte, H.
Qed.

Lemma nth_deinterleave (data : list Z) (count c i : nat) :
  (i < count)%nat ->
  nth i (deinterleave unorm8 0 data count c) F32.zero =
  unorm8 (nth (4 * i + c) data 0).
Proof.
  intros Hi. unfold deinterleave.
  set (f := fun i => unorm8 (nth (4 * i + c) data 0)).
  rewrite (nth_indep _ F32.zero (f 0%nat))
    by (rewrite length_map, length_seq; exact Hi).
  rewrite map_nth, seq_nth by exact Hi. reflexivity.
Qed.

(** C10. For every input pixel the reconstructed blue value lies in the
    closed interval [0.5, 1.0]: for every pair of 8-bit red and green
    samples, normalised to [0,1] as nvtt does, and so for every element of
    channel 2 of the normal map built from any decoded image. *)
Theorem blue_channel_in_upper_half :
  (forall red green : Z,
     0 <= red <= 255 -> 0 <= green <= 255 ->
     F32.leb F32.half (blue_normal_pixel (unorm8 red) (unorm8 green)) = true /\
     F32.leb (blue_normal_pixel (unorm8 red) (unorm8 green)) F32.one = true)
  /\ forall (w h : Z) (data : list Z) (z : float),
       Forall (fun byte => 0 <= byte <= 255) data ->
       In z (channel (normal_surface w h data) 2) ->
       F32.leb F32.half z = true /\ F32.leb z F32.one = true.
Proof.
  split.
  - intros red green Hr Hg. apply andb_true_iff.
    apply blue_normal_pixel_in_range; assumption.
  - intros w h data z Hdata Hz. apply andb_true_iff.
    unfold channel in Hz at 1. rewrite normal_surface_planes in Hz.
    cbn [nth] in Hz. unfold blue_normal_channel in Hz.
    apply in_map_iff in Hz as [i [<- Hi]]. apply in_seq in Hi.
    unfold decoded_surface.
    cbn [channel planes with_image image_of_bgra8 nth].
    rewrite !nth_deinterleave by lia.
    pose proof (swap_red_blue_bytes (pixel_count w h) data Hdata) as Hbytes.
    apply blue_normal_pixel_in_range; apply nth_is_byte, Hbytes.
Qed.

Lemma blue_channel_in_upper_half_witness :
  0 <= 128 <= 255 /\
  F32.leb F32.half (blue_normal_pixel (unorm8 128) (unorm8 128)) = true /\
  Forall (fun byte => 0 <= byte <= 255) [255; 0; 7; 9] /\
  In F32.half (channel (normal_surface 1 1 [255; 0; 7; 9]) 2) /\
  F32.leb F32.half F32.half = true.
Proof.
  assert (Hbyte : 0 <= 128 <= 255) by lia.
  assert (Hdata : Forall (fun byte => 0 <= byte <= 255) [255; 0; 7; 9])
    by (repeat constructor; lia).
  assert (Hin : In F32.half (channel (normal_surface 1 1 [255; 0; 7; 9]) 2))
    by (vm_compute; left; reflexivity).
  split; [exact Hbyte|]. split.
  - exact (proj1 (proj1 blue_channel_in_upper_half 128 128 Hbyte Hbyte)).
  - split; [exact Hdata|]. split; [exact Hin|].
    exact (proj1 (proj2 blue_channel_in_upper_half 1 1 [255; 0; 7; 9]
                    F32.half Hdata Hin)).
Defined.

(* ===================================================================== *)
(** ** The images the 2D compile functions accept *)
(* ===================================================================== *)

Lemma land_pred_power_of_two (n : Z) :
  0 < n -> Z.land n (n - 1) = 0 -> power_of_two n.
Proof.
  intros Hpos Hland.
  destruct (Z.eq_dec n (2 ^ Z.log2 n)) as [E|E].
  - exists (Z.log2 n). split; [apply Z.log2_nonneg|exact E].
  - exfalso. apply (land_pred_nonzero n Hpos); [|exact Hland].
    intros [k [Hk Ek]]. apply E. rewrite Ek at 2.
    rewrite Z.log2_pow2 by exact Hk. exact Ek.
Qed.

Lemma land_pow2_pred (k : Z) : 0 <= k -> Z.land (2 ^ k) (2 ^ k - 1) = 0.
Proof.
  intros Hk. rewrite Z.sub_1_r, <- Z.ones_equiv, Z.land_ones by exact Hk.
  apply Z.mod_same. pose proof (Z.pow_pos_nonneg 2 k ltac:(lia) Hk). lia.
Qed.

Lemma accepted_side_spec (n : Z) :
  int_dimension n ->
  (0 < n /\ n <= 65535 /\ Z.land n (int32 (n - 1)) = 0) <-> accepted_side n.
Proof.
  intros Hn. rewrite int32_pred by exact Hn. split.
  - intros (Hpos & Hmax & Hland).
    destruct (land_pred_power_of_two n Hpos Hland) as [k [Hk E]].
    exists k. split; [|exact E]. split; [exact Hk|].
    destruct (Z_le_dec k 15) as [H|H]; [exact H|].
    assert (2 ^ 16 <= 2 ^ k) by (apply Z.pow_le_mono_r; lia).
    change (2 ^ 16) with 65536 in *. lia.
  - intros [k [Hk ->]].
    assert (0 < 2 ^ k) by (apply Z.pow_pos_nonneg; lia).
    assert (2 ^ k <= 2 ^ 15) by (apply Z.pow_le_mono_r; lia).
    change (2 ^ 15) with 32768 in *.
    split; [lia|]. split; [lia|]. apply land_pow2_pred. lia.
Qed.

Lemma size_rejected_spec :
  forall w h : Z,
    int_dimension w -> int_dimension h ->
    (size_rejected w h = false <-> accepted_side w /\ accepted_side h)
    /\ size_rejected_parallax w h = size_rejected w h.
Proof.
  intros w h Hw Hh.
  pose proof (accepted_side_spec w Hw) as Sw.
  pose proof (accepted_side_spec h Hh) as Sh.
  assert (Nw : w < 0 -> Z.land w (int32 (w - 1)) <> 0)
    by (intros H; rewrite int32_pred by exact Hw; apply land_pred_negative, H).
  assert (Nh : h < 0 -> Z.land h (int32 (h - 1)) <> 0)
    by (intros H; rewrite int32_pred by exact Hh; apply land_pred_negative, H).
  split.
  - unfold size_rejected.
    rewrite !orb_false_iff, !negb_false_iff, !Z.leb_gt, !Z.gtb_ltb, !Z.ltb_ge,
      !Z.eqb_eq.
    rewrite <- Sw, <- Sh. tauto.
  - unfold size_rejected, size_rejected_parallax.
    destruct (Z.eqb_spec (Z.land w (int32 (w - 1))) 0) as [Bw|Bw];
      [|rewrite !orb_true_r; reflexivity].
    destruct (Z.eqb_spec (Z.land h (int32 (h - 1))) 0) as [Bh|Bh];
      [|rewrite !orb_true_r; reflexivity].
    assert (Pw : 0 <= w)
      by (destruct (Z_lt_dec w 0) as [H|H]; [exfalso; apply (Nw H Bw)|lia]).
    assert (Ph : 0 <= h)
      by (destruct (Z_lt_dec h 0) as [H|H]; [exfalso; apply (Nh H Bh)|lia]).
    replace (w <=? 0) with (w =? 0)
      by (destruct (Z.leb_spec w 0), (Z.eqb_spec w 0); try reflexivity; lia).
    replace (h <=? 0) with (h =? 0)
      by (destruct (Z.leb_spec h 0), (Z.eqb_spec h 0); try reflexivity; lia).
    reflexivity.
Qed.

(** X1. For a width and a height of type [int] other than [INT_MIN], at
    which [width - 1] overflows: the check of [compile_albedo_roughness] and
    [compile_normal_metalness_ambient_occlusion] lets an image pass exactly
    when each side is one of the powers of two 1, 2, 4, ..., 32768; and the
    check of [compile_parallax], written with [== 0] where the others have
    [<= 0], decides the same. *)
Theorem accepted_images_are_powers_of_two :
  forall w h : Z,
    int_dimension w -> int_dimension h ->
    (size_rejected w h = false <-> accepted_side w /\ accepted_side h)
    /\ size_rejected_parallax w h = size_rejected w h.
Proof. exact size_rejected_spec. Qed.

Lemma accepted_images_are_powers_of_two_witness :
  int_dimension 512 /\ int_dimension 4 /\
  (size_rejected 512 4 = false <-> accepted_side 512 /\ accepted_side 4).
Proof.
  assert (Hw : int_dimension 512) by (unfold int_dimension; lia).
  assert (Hh : int_dimension 4) by (unfold int_dimension; lia).
  split; [exact Hw|]. split; [exact Hh|].
  exact (proj1 (accepted_images_are_powers_of_two 512 4 Hw Hh)).
Defined.

(* ===================================================================== *)
(** ** The halving loops and the wait loop *)
(* ===================================================================== *)

Lemma mip_sizes_halving (size mip_level : Z) :
  1 <= size ->
  mip_sizes size mip_level =
  map (fun k => (size / 2 ^ (k - mip_level), k))
      (range mip_level (mip_level + Z.log2 size + 1)).
Proof.
  funelim (mip_sizes size mip_level); intros Hsize; [|lia].
  rewrite (range_cons mip_level) by (pose proof (Z.log2_nonneg size); lia).
  cbn [map]. rewrite Z.sub_diag, Z.pow_0_r, Z.div_1_r. f_equal.
  destruct (Z_le_dec 2 size) as [H2|H2].
  - rewrite H by (apply Z.div_le_lower_bound; lia).
    rewrite (log2_half size) by lia.
    replace (mip_level + 1 + Z.log2 (size / 2) + 1)
      with (mip_level + (Z.log2 (size / 2) + 1) + 1) by lia.
    apply map_ext_in. intros k Hk. f_equal.
    apply in_map_iff in Hk as [i [<- _]].
    replace (mip_level + 1 + Z.of_nat i - mip_level) with (Z.succ (Z.of_nat i)) by lia.
    replace (mip_level + 1 + Z.of_nat i - (mip_level + 1)) with (Z.of_nat i) by lia.
    rewrite Z.pow_succ_r by lia.
    rewrite Z.div_div by (try apply Z.pow_pos_nonneg; lia). reflexivity.
  - assert (size = 1) by lia. subst size.
    change (1 / 2) with 0. rewrite range_nil by (simpl; lia).
    simp mip_sizes. reflexivity.
Qed.

(** X2. The loop [for (size, mip_level = 0; size >= 1; size /= 2, mip_level++)]
    of the cube map passes runs once for each of the [count_mip_maps size]
    levels the header declares, with level [k] at the size [size / 2^k]
    rounded down. *)
Theorem halving_loop_visits_declared_levels :
  forall size : Z,
    1 <= size ->
    mip_sizes size 0 =
    map (fun k => (size / 2 ^ k, k)) (range 0 (count_mip_maps size)).
Proof.
  intros size Hsize.
  rewrite mip_sizes_halving, count_mip_maps_log2 by exact Hsize.
  cbn [Z.add]. apply map_ext. intros k. rewrite Z.sub_0_r. reflexivity.
Qed.

Lemma halving_loop_visits_declared_levels_witness :
  1 <= 5 /\ mip_sizes 5 0 = [(5, 0); (2, 1); (1, 2)].
Proof.
  split; [lia|].
  rewrite (halving_loop_visits_declared_levels 5) by lia. reflexivity.
Defined.

(** X3. The wait loop calls [bgfx::frame] at least once and stops at the
    first frame number that has reached the token: from frame counter [n] and
    token [frame_id] it sees the frames [n+1, ..., max (n+1) frame_id] (as
    [uint32_t] values), nothing else happens, and the last one is its
    result. *)
Theorem wait_loop_stops_at_token :
  forall (frame_id : Z) (s : St),
    let first := uint32 (frame_no s + 1) in
    let last := Z.max first (uint32 frame_id) in
    wait_until_available frame_id s =
    ({| trace := trace s ++ map EvFrame (range first (last + 1));
        current_view := current_view s;
        frame_no := last |}, Value last).
Proof.
  intros frame_id s. cbv zeta.
  funelim (wait_until_available frame_id s).
  - rewrite H. cbn [trace current_view frame_no].
    set (first := uint32 (frame_no s + 1)) in *.
    assert (Hid : uint32 frame_id < 4294967296)
      by (unfold uint32; apply Z.mod_pos_bound; lia).
    assert (Hfirst : 0 <= first)
      by (unfold first, uint32; apply Z.mod_pos_bound; lia).
    assert (Hnext : uint32 (first + 1) = first + 1)
      by (unfold uint32; apply Z.mod_small; lia).
    rewrite Hnext.
    rewrite (Z.max_r (first + 1)), (Z.max_r first) by lia.
    rewrite (range_cons first) by lia.
    cbn [map]. rewrite <- app_assoc. reflexivity.
  - set (first := uint32 (frame_no s + 1)) in *.
    rewrite Z.max_l by lia.
    rewrite (range_cons first), range_nil by lia. reflexivity.
Qed.

(* ===================================================================== *)
(** ** The channels of a decoded image *)
(* ===================================================================== *)

Lemma length_swap_red_blue (count : nat) (data : list Z) :
  List.length (swap_red_blue count data) = List.length data.
Proof. unfold swap_red_blue. rewrite length_map, length_seq. reflexivity. Qed.

Lemma nth_swap_red_blue (count : nat) (data : list Z) (j : nat) :
  (j < List.length data)%nat ->
  nth j (swap_red_blue count data) 0 =
  if (j / 4 <? count)%nat then
    match (j mod 4)%nat with
    | 0%nat => nth (j + 2) data 0
    | 2%nat => nth (j - 2) data 0
    | _ => nth j data 0
    end
  else nth j data 0.
Proof.
  intros Hj. unfold swap_red_blue.
  set (f := fun j : nat => if (j / 4 <? count)%nat then
                      match (j mod 4)%nat with
                      | 0%nat => nth (j + 2) data 0
                      | 2%nat => nth (j - 2) data 0
                      | _ => nth j data 0
                      end
                    else nth j data 0).
  change (nth j (map f (seq 0 (List.length data))) 0 = f j).
  rewrite (nth_indep _ 0 (f 0%nat)) by (rewrite length_map, length_seq; exact Hj).
  rewrite map_nth, seq_nth by exact Hj. reflexivity.
Qed.

Lemma pixel_sample (i c : nat) :
  (c < 4)%nat -> ((4 * i + c) / 4 = i /\ (4 * i + c) mod 4 = c)%nat.
Proof.
  intros Hc. split.
  - symmetry. apply (Nat.div_unique (4 * i + c) 4 i c); lia.
  - symmetry. apply (Nat.mod_unique (4 * i + c) 4 i c); lia.
Qed.

(** Sample [c] of pixel [i] after the exchange of red and blue. *)
Lemma swap_red_blue_sample (count : nat) (data : list Z) (i c : nat) :
  (i < count)%nat -> (c < 4)%nat -> (4 * count <= List.length data)%nat ->
  nth (4 * i + c) (swap_red_blue count data) 0 =
  nth (4 * i + match c with 0 => 2 | 2 => 0 | _ => c end)%nat data 0.
Proof.
  intros Hi Hc Hlen. rewrite nth_swap_red_blue by lia.
  destruct (pixel_sample i c Hc) as [-> ->].
  destruct (Nat.ltb_spec i count); [|lia].
  destruct c as [|[|[|[|c]]]]; try lia; f_equal; lia.
Qed.

(** X4. The exchange of the red and blue bytes that precedes [setImage] is
    its own inverse on a buffer that holds the [count] pixels: applied twice
    it gives the buffer back. *)
Theorem swap_red_blue_involutive :
  forall (count : nat) (data : list Z),
    (4 * count <= List.length data)%nat ->
    swap_red_blue count (swap_red_blue count data) = data.
Proof.
  intros count data Hlen.
  apply (nth_ext _ _ 0 0).
  - rewrite !length_swap_red_blue. reflexivity.
  - intros j Hj. rewrite !length_swap_red_blue in Hj.
    pose proof (Nat.div_mod_eq j 4) as Hdm.
    pose proof (Nat.mod_upper_bound j 4 ltac:(lia)) as Hm.
    destruct (Nat.ltb_spec (j / 4) count) as [Hin|Hout].
    + rewrite Hdm.
      rewrite (swap_red_blue_sample count _ (j / 4) (j mod 4))
        by (rewrite ?length_swap_red_blue; lia).
      remember (j mod 4)%nat as c eqn:Ec. clear Ec Hdm.
      destruct c as [|[|[|[|c]]]]; try lia;
        rewrite (swap_red_blue_sample count data (j / 4))
          by lia; reflexivity.
    + rewrite nth_swap_red_blue by (rewrite length_swap_red_blue; exact Hj).
      destruct (Nat.ltb_spec (j / 4) count); [lia|].
      rewrite nth_swap_red_blue by exact Hj.
      destruct (Nat.ltb_spec (j / 4) count); [lia|]. reflexivity.
Qed.

Lemma swap_red_blue_involutive_witness :
  (4 * 1 <= List.length [1; 2; 3; 4; 5])%nat /\
  swap_red_blue 1 [1; 2; 3; 4; 5] = [3; 2; 1; 4; 5] /\
  swap_red_blue 1 (swap_red_blue 1 [1; 2; 3; 4; 5]) = [1; 2; 3; 4; 5].
Proof.
  split; [simpl; lia|]. split; [reflexivity|].
  apply (swap_red_blue_involutive 1 [1; 2; 3; 4; 5]). simpl; lia.
Defined.

Lemma nth_channel_bgra8 (w h : Z) (data : list Z) (i c : nat) :
  (i < pixel_count w h)%nat -> (c < 4)%nat ->
  nth i (channel (with_image null_surface w h (image_of_bgra8 w h data)) c)
      F32.zero =
  unorm8 (nth (4 * i + match c with 0 => 2 | 2 => 0 | _ => c end)%nat data 0).
Proof.
  intros Hi Hc. unfold channel. cbn [planes with_image image_of_bgra8].
  destruct c as [|[|[|[|c]]]]; try lia; cbn [nth];
    apply nth_deinterleave; exact Hi.
Qed.

(* ===================================================================== *)
(** ** The mip chains of the 2D textures *)
(* ===================================================================== *)

Section ChainLevels.

Variable W : World.
Variable total_mip_levels : Z.
Variable body : Surface -> Z -> M Surface.

Hypothesis body_level :
  forall (surface : Surface) (mip_level : Z) (s : St),
    exists s',
      body surface mip_level s =
      (s', Value (if mip_level + 1 <? total_mip_levels
                  then box_mipmap W surface else surface))
      /\ compressed_surfaces (trace s') =
         compressed_surfaces (trace s) ++ [(mip_level, surface)].

Lemma chain_levels (n : nat) :
  forall (j : Z) (surface : Surface) (s : St),
    Z.to_nat (total_mip_levels - j) = n ->
    exists s' last,
      fold_each (range j total_mip_levels) body surface s = (s', Value last)
      /\ compressed_surfaces (trace s') =
         compressed_surfaces (trace s) ++
         map (fun k => (k, iterate (box_mipmap W) (Z.to_nat (k - j)) surface))
             (range j total_mip_levels).
Proof.
  induction n as [|n IH]; intros j surface s Hn.
  - rewrite range_nil by lia. simpl. exists s, surface.
    rewrite app_nil_r. auto.
  - rewrite range_cons by lia. cbn [fold_each map].
    destruct (body_level surface j s) as [s1 [E1 Ht1]].
    unfold bind at 1. rewrite E1.
    destruct (IH (j + 1)
                (if j + 1 <? total_mip_levels then box_mipmap W surface
                 else surface) s1 ltac:(lia)) as [s2 [last [E2 Ht2]]].
    exists s2, last. split; [exact E2|].
    rewrite Ht2, Ht1, <- app_assoc. f_equal. cbn [app].
    replace (Z.to_nat (j - j)) with 0%nat by lia. cbn [iterate]. f_equal.
    apply map_ext_in. intros k Hk.
    destruct (Z.ltb_spec (j + 1) total_mip_levels) as [Hlt|Hge].
    + apply in_map_iff in Hk as [i [Hi _]].
      replace (Z.to_nat (k - j)) with (S (Z.to_nat (k - (j + 1)))) by lia.
      reflexivity.
    + rewrite range_nil in Hk by lia. destruct Hk.
Qed.

End ChainLevels.

Lemma compile_albedo_roughness_succeeds (W : World) (input output : string)
    (compression : Compression) (w h : Z) (data : list Z) :
  (forall t, succeeds W t = true) ->
  stbi_load W input = Some (w, h, data) ->
  size_rejected w h = false ->
  let r := run (compile_albedo_roughness W input output compression) in
  snd r = 0 /\
  compressed_surfaces (fst r) = box_levels W (albedo_roughness_surface w h data).
Proof.
  intros Hall Hload Hvalid r.
  assert (H : exists s',
             compile_albedo_roughness W input output compression initial =
             (s', Returned 0)
             /\ compressed_surfaces (trace s') =
                box_levels W (albedo_roughness_surface w h data)).
  { unfold compile_albedo_roughness.
    unfold bind at 1. cbn [emit]. rewrite Hload.
    unfold bind at 1. rewrite Hvalid. cbn [negb require pure].
    unfold bind at 1. cbn [call]. rewrite Hall.
    unfold bind at 1. cbn [require pure].
    unfold bind at 1. cbn [emit].
    unfold bind at 1. cbn [call]. rewrite Hall.
    unfold bind at 1. cbn [require_quiet pure].
    fold (decoded_surface w h data). fold (albedo_roughness_surface w h data).
    set (surface := albedo_roughness_surface w h data).
    set (total := countMipmaps W surface).
    set (options := color_compression_options compression).
    unfold bind at 1.
    match goal with
    | |- context [fold_each (range 0 total) ?b surface ?st] =>
        destruct (chain_levels W total b) with (n := Z.to_nat (total - 0))
          (j := 0) (surface := surface) (s := st) as [s' [last [E Ht]]];
          [|reflexivity|]
    end.
    { intros v k s. unfold bind, call, require_quiet, require.
      cbn [add_event trace]. rewrite !Hall.
      destruct (k + 1 <? total);
        repeat first [progress rewrite Hall | progress cbn [pure add_event trace]];
        (eexists; split; [reflexivity|]);
        cbn [trace add_event]; rewrite !compressed_surfaces_app; simpl;
        rewrite ?app_nil_r; reflexivity. }
    match goal with
    | |- context [fold_each ?l ?b ?v0 ?s0] =>
        assert (E' : fold_each l b v0 s0 = (s', Value last)) by exact E;
        rewrite E'
    end.
    exists s'. split; [reflexivity|].
    rewrite Ht. cbn [trace add_event initial app].
    cbn [compressed_surfaces flat_map app].
    unfold box_levels. fold total.
    apply map_ext. intros k. rewrite Z.sub_0_r. reflexivity. }
  destruct H as [s' [E Hs]]. unfold r, run. rewrite E. simpl. auto.
Qed.

Lemma compile_parallax_succeeds (W : World) (input output : string)
    (compression : Compression) (w h : Z) (data : list Z) :
  (forall t, succeeds W t = true) ->
  stbi_load W input = Some (w, h, data) ->
  size_rejected_parallax w h = false ->
  let r := run (compile_parallax W input output compression) in
  snd r = 0 /\
  compressed_surfaces (fst r) = box_levels W (parallax_surface w h data).
Proof.
  intros Hall Hload Hvalid r.
  assert (H : exists s',
             compile_parallax W input output compression initial =
             (s', Returned 0)
             /\ compressed_surfaces (trace s') =
                box_levels W (parallax_surface w h data)).
  { unfold compile_parallax.
    unfold bind at 1. cbn [emit]. rewrite Hload.
    unfold bind at 1. rewrite Hvalid. cbn [negb require pure].
    unfold bind at 1. cbn [call]. rewrite Hall.
    unfold bind at 1. cbn [require pure].
    unfold bind at 1. cbn [emit].
    unfold bind at 1. cbn [call]. rewrite Hall.
    unfold bind at 1. cbn [require_quiet pure].
    fold (parallax_surface w h data).
    set (surface := parallax_surface w h data).
    set (total := countMipmaps W surface).
    set (options := parallax_compression_options compression).
    unfold bind at 1.
    match goal with
    | |- context [fold_each (range 0 total) ?b surface ?st] =>
        destruct (chain_levels W total b) with (n := Z.to_nat (total - 0))
          (j := 0) (surface := surface) (s := st) as [s' [last [E Ht]]];
          [|reflexivity|]
    end.
    { intros v k s. unfold bind, call, require_quiet, require.
      cbn [add_event trace]. rewrite !Hall.
      destruct (k + 1 <? total);
        repeat first [progress rewrite Hall | progress cbn [pure add_event trace]];
        (eexists; split; [reflexivity|]);
        cbn [trace add_event]; rewrite !compressed_surfaces_app; simpl;
        rewrite ?app_nil_r; reflexivity. }
    match goal with
    | |- context [fold_each ?l ?b ?v0 ?s0] =>
        assert (E' : fold_each l b v0 s0 = (s', Value last)) by exact E;
        rewrite E'
    end.
    exists s'. split; [reflexivity|].
    rewrite Ht. cbn [trace add_event initial app].
    cbn [compressed_surfaces flat_map app].
    unfold box_levels. fold total.
    apply map_ext. intros k. rewrite Z.sub_0_r. reflexivity. }
  destruct H as [s' [E Hs]]. unfold r, run. rewrite E. simpl. auto.
Qed.

(** X5. When the image is accepted and no call fails,
    [compile_albedo_roughness] returns 0 after compressing, level by level,
    the decoded surface and its successive box-filtered reductions, as many
    as nvtt counts for it. The surface repeats, has a transparency alpha and
    is no normal map, and its channels 0 to 3 hold the red, green, blue and
    alpha samples of each decoded pixel in this order: the exchange of red
    and blue and the BGRA input format cancel out. *)
Theorem albedo_roughness_levels_and_channels :
  forall (W : World) (input output : string) (compression : Compression)
         (w h : Z) (data : list Z),
    (forall t, succeeds W t = true) ->
    stbi_load W input = Some (w, h, data) ->
    size_rejected w h = false ->
    (4 * pixel_count w h <= List.length data)%nat ->
    let surface := albedo_roughness_surface w h data in
    let r := run (compile_albedo_roughness W input output compression) in
    snd r = 0
    /\ compressed_surfaces (fst r) =
       map (fun k => (k, iterate (box_mipmap W) (Z.to_nat k) surface))
           (range 0 (countMipmaps W surface))
    /\ wrapMode surface = WrapMode_Repeat
    /\ alphaMode surface = AlphaMode_Transparency
    /\ isNormalMap surface = false
    /\ forall i c : nat,
         (i < pixel_count w h)%nat -> (c < 4)%nat ->
         nth i (channel surface c) F32.zero = unorm8 (nth (4 * i + c) data 0).
Proof.
  intros W input output compression w h data Hall Hload Hvalid Hlen surface r.
  destruct (compile_albedo_roughness_succeeds W input output compression w h
              data Hall Hload Hvalid) as [Hcode Hlevels].
  split; [exact Hcode|]. split; [exact Hlevels|].
  split; [reflexivity|]. split; [reflexivity|]. split; [reflexivity|].
  intros i c Hi Hc.
  change (channel surface c)
    with (channel (with_image null_surface w h
                     (image_of_bgra8 w h
                        (swap_red_blue (pixel_count w h) data))) c).
  rewrite nth_channel_bgra8 by assumption.
  rewrite swap_red_blue_sample by (destruct c as [|[|[|[|c]]]]; lia).
  destruct c as [|[|[|[|c]]]]; try lia; reflexivity.
Qed.

Lemma albedo_roughness_levels_and_channels_witness :
  size_rejected 1 1 = false /\
  (4 * pixel_count 1 1 <= List.length [10; 20; 30; 40])%nat /\
  compressed_surfaces
    (fst (run (compile_albedo_roughness
                 (test_world (Some (1, 1, [10; 20; 30; 40])) None always)
                 "in" "out" GOOD_BUT_SLOW))) =
  [(0, albedo_roughness_surface 1 1 [10; 20; 30; 40])] /\
  map (fun c => nth 0 (channel (albedo_roughness_surface 1 1 [10; 20; 30; 40]) c)
                  F32.zero) [0; 1; 2; 3]%nat =
  [unorm8 10; unorm8 20; unorm8 30; unorm8 40].
Proof.
  assert (Hlen : (4 * pixel_count 1 1 <= List.length [10; 20; 30; 40])%nat)
    by (vm_compute; lia).
  pose proof (albedo_roughness_levels_and_channels
                (test_world (Some (1, 1, [10; 20; 30; 40])) None always)
                "in"%string "out"%string GOOD_BUT_SLOW 1 1 [10; 20; 30; 40]
                (fun _ => eq_refl) eq_refl eq_refl Hlen) as H.
  cbv zeta in H. destruct H as (_ & Hlevels & _ & _ & _ & Hchannels).
  split; [reflexivity|]. split; [exact Hlen|]. split.
  - rewrite Hlevels. reflexivity.
  - cbn [map].
    rewrite !Hchannels by (vm_compute; lia). reflexivity.
Defined.

(** X6. [compile_parallax] hands the decoded bytes to nvtt as BGRA without
    exchanging red and blue first. When the image is accepted and no call
    fails it returns 0 after compressing the surface and its box-filtered
    reductions, and in that surface channel 0, the one the BC4 block and the
    raw 8-bit layout keep, holds the third sample (blue) of each decoded
    pixel, channel 2 the first (red). *)
Theorem parallax_levels_and_channels :
  forall (W : World) (input output : string) (compression : Compression)
         (w h : Z) (data : list Z),
    (forall t, succeeds W t = true) ->
    stbi_load W input = Some (w, h, data) ->
    size_rejected_parallax w h = false ->
    let surface := parallax_surface w h data in
    let r := run (compile_parallax W input output compression) in
    snd r = 0
    /\ compressed_surfaces (fst r) =
       map (fun k => (k, iterate (box_mipmap W) (Z.to_nat k) surface))
           (range 0 (countMipmaps W surface))
    /\ forall i : nat,
         (i < pixel_count w h)%nat ->
         nth i (channel surface 0) F32.zero = unorm8 (nth (4 * i + 2) data 0)
         /\ nth i (channel surface 1) F32.zero = unorm8 (nth (4 * i + 1) data 0)
         /\ nth i (channel surface 2) F32.zero = unorm8 (nth (4 * i + 0) data 0)
         /\ nth i (channel surface 3) F32.zero = unorm8 (nth (4 * i + 3) data 0).
Proof.
  intros W input output compression w h data Hall Hload Hvalid surface r.
  destruct (compile_parallax_succeeds W input output compression w h
              data Hall Hload Hvalid) as [Hcode Hlevels].
  split; [exact Hcode|]. split; [exact Hlevels|].
  intros i Hi.
  change (channel surface)
    with (channel (with_image null_surface w h (image_of_bgra8 w h data))).
  rewrite !nth_channel_bgra8 by (assumption || lia). auto.
Qed.

Lemma parallax_levels_and_channels_witness :
  size_rejected_parallax 1 1 = false /\
  compressed_surfaces
    (fst (run (compile_parallax
                 (test_world (Some (1, 1, [10; 20; 30; 40])) None always)
                 "in" "out" NO_COMPRESSION))) =
  [(0, parallax_surface 1 1 [10; 20; 30; 40])] /\
  nth 0 (channel (parallax_surface 1 1 [10; 20; 30; 40]) 0) F32.zero = unorm8 30.
Proof.
  pose proof (parallax_levels_and_channels
                (test_world (Some (1, 1, [10; 20; 30; 40])) None always)
                "in"%string "out"%string NO_COMPRESSION 1 1 [10; 20; 30; 40]
                (fun _ => eq_refl) eq_refl eq_refl) as H.
  cbv zeta in H. destruct H as (_ & Hlevels & Hchannels).
  split; [reflexivity|]. split.
  - rewrite Hlevels. reflexivity.
  - exact (proj1 (Hchannels 0%nat ltac:(vm_compute; lia))).
Defined.

(* ===================================================================== *)
(** ** The containers of the 2D textures *)
(* ===================================================================== *)

Lemma finishes_return_1 {A : Type} (F : list ContainerCall) :
  finishes (@return_ A 1) F.
Proof.
  intros s. exists []. simpl. rewrite app_nil_r. split; [reflexivity|].
  right. split; [reflexivity|apply prefix_nil].
Qed.

Lemma finishes_emits_return_0 {V : Type} (m : M V) (F : list ContainerCall) :
  emits m F -> finishes (m ;; @return_ unit 0) F.
Proof.
  intros H. rewrite <- (app_nil_r F).
  apply finishes_bind; [exact H|intros _; apply finishes_return_0].
Qed.

Section FlatContainers.

Variable W : World.
Variables input output : string.
Variable compression : Compression.
Variables w h : Z.
Variable data : list Z.
Hypothesis Hload : stbi_load W input = Some (w, h, data).

Lemma compile_albedo_roughness_finishes :
  finishes (compile_albedo_roughness W input output compression)
    (flat_container_calls output w h
       (countMipmaps W (albedo_roughness_surface w h data))
       (color_compression_options compression)).
Proof.
  unfold compile_albedo_roughness. rewrite Hload.
  fold (decoded_surface w h data). fold (albedo_roughness_surface w h data).
  set (surface := albedo_roughness_surface w h data).
  unfold flat_container_calls.
  apply finishes_bind_nil; [exact (emits_emit _)|intros _].
  apply finishes_bind_nil; [apply emits_require|intros _].
  apply finishes_bind_nil; [exact (emits_call W _)|intros ok].
  apply finishes_bind_nil; [apply emits_require|intros _].
  apply finishes_bind_nil; [exact (emits_emit _)|intros _].
  apply (finishes_bind _ _ [_] _);
    [exact (emits_call W (EvOutputHeader _ _ _ _ _ _ _))|intros ok'].
  apply finishes_bind_nil; [apply emits_require_quiet|intros _].
  apply finishes_emits_return_0.
  unfold mip_chain_calls.
  match goal with
  | |- emits _ (map ?f ?l) => rewrite <- (flat_map_singleton f l)
  end.
  apply emits_fold_each. intros v mip_level.
  apply (emits_bind _ _ [Compress output 0 mip_level _] []);
    [exact (emits_call W (EvCompress _ _ _ _ _))|intros; emits_silent].
Qed.

Lemma compile_normal_metalness_ambient_occlusion_finishes :
  finishes (compile_normal_metalness_ambient_occlusion W input output
              compression)
    (flat_container_calls output w h
       (countMipmaps W (decoded_surface w h data))
       (color_compression_options compression)).
Proof.
  unfold compile_normal_metalness_ambient_occlusion. rewrite Hload.
  fold (decoded_surface w h data).
  set (surface := decoded_surface w h data).
  unfold flat_container_calls.
  apply finishes_bind_nil; [exact (emits_emit _)|intros _].
  apply finishes_bind_nil; [apply emits_require|intros _].
  apply finishes_bind_nil; [exact (emits_call W _)|intros ok].
  apply finishes_bind_nil; [apply emits_require|intros _].
  apply finishes_bind_nil; [exact (emits_call W _)|intros ok1].
  apply finishes_bind_nil; [apply emits_require|intros _].
  apply finishes_bind_nil; [exact (emits_call W _)|intros ok2].
  apply finishes_bind_nil; [apply emits_require|intros _].
  apply finishes_bind_nil; [exact (emits_emit _)|intros _].
  apply (finishes_bind _ _ [_] _);
    [exact (emits_call W (EvOutputHeader _ _ _ _ _ _ _))|intros ok'].
  apply finishes_bind_nil; [apply emits_require_quiet|intros _].
  apply finishes_emits_return_0.
  unfold mip_chain_calls.
  match goal with
  | |- emits _ (map ?f ?l) => rewrite <- (flat_map_singleton f l)
  end.
  apply emits_fold_each. intros [[packed normal] mao] mip_level.
  unfold compress_packed_level.
  apply emits_bind_nil; [exact (emits_call W (EvSetImage _ _ _))|intros ok3].
  apply (emits_bind _ _ [Compress output 0 mip_level _] []);
    [exact (emits_call W (EvCompress _ _ _ _ _))|intros; emits_silent].
Qed.

Lemma compile_parallax_finishes :
  finishes (compile_parallax W input output compression)
    (flat_container_calls output w h
       (countMipmaps W (parallax_surface w h data))
       (parallax_compression_options compression)).
Proof.
  unfold compile_parallax. rewrite Hload.
  fold (parallax_surface w h data).
  set (surface := parallax_surface w h data).
  unfold flat_container_calls.
  apply finishes_bind_nil; [exact (emits_emit _)|intros _].
  apply finishes_bind_nil; [apply emits_require|intros _].
  apply finishes_bind_nil; [exact (emits_call W _)|intros ok].
  apply finishes_bind_nil; [apply emits_require|intros _].
  apply finishes_bind_nil; [exact (emits_emit _)|intros _].
  apply (finishes_bind _ _ [_] _);
    [exact (emits_call W (EvOutputHeader _ _ _ _ _ _ _))|intros ok'].
  apply finishes_bind_nil; [apply emits_require_quiet|intros _].
  apply finishes_emits_return_0.
  unfold mip_chain_calls.
  match goal with
  | |- emits _ (map ?f ?l) => rewrite <- (flat_map_singleton f l)
  end.
  apply emits_fold_each. intros v mip_level.
  apply (emits_bind _ _ [Compress output 0 mip_level _] []);
    [exact (emits_call W (EvCompress _ _ _ _ _))|intros; emits_silent].
Qed.


End FlatContainers.

(** X7. The three 2D compile functions write one container: the header,
    declaring the decoded width and height and the number of levels nvtt
    counts for the surface, then the levels 0, 1, ... of face 0 in this
    order, header and levels with the options of the tier. A run that
    returns 0 has written all of it; every other run returns 1 and has
    written a first part of it. *)
Theorem flat_texture_container :
  forall (W : World) (input output : string) (compression : Compression)
         (w h : Z) (data : list Z),
    stbi_load W input = Some (w, h, data) ->
    complete_or_prefix
      (run (compile_albedo_roughness W input output compression))
      (Header output TextureType_2D w h
         (countMipmaps W (albedo_roughness_surface w h data))
         (color_compression_options compression)
       :: map (fun mip_level =>
                 Compress output 0 mip_level
                   (color_compression_options compression))
              (range 0 (countMipmaps W (albedo_roughness_surface w h data))))
    /\ complete_or_prefix
         (run (compile_normal_metalness_ambient_occlusion W input output
                 compression))
         (Header output TextureType_2D w h
            (countMipmaps W (decoded_surface w h data))
            (color_compression_options compression)
          :: map (fun mip_level =>
                    Compress output 0 mip_level
                      (color_compression_options compression))
                 (range 0 (countMipmaps W (decoded_surface w h data))))
    /\ complete_or_prefix
         (run (compile_parallax W input output compression))
         (Header output TextureType_2D w h
            (countMipmaps W (parallax_surface w h data))
            (parallax_compression_options compression)
          :: map (fun mip_level =>
                    Compress output 0 mip_level
                      (parallax_compression_options compression))
                 (range 0 (countMipmaps W (parallax_surface w h data)))).
Proof.
  intros W input output compression w h data Hload.
  split; [|split]; apply finishes_run.
  - exact (compile_albedo_roughness_finishes W input output compression w h
             data Hload).
  - exact (compile_normal_metalness_ambient_occlusion_finishes W input output
             compression w h data Hload).
  - exact (compile_parallax_finishes W input output compression w h data Hload).
Qed.

Lemma flat_texture_container_witness :
  stbi_load (test_world (Some image_2x2) None mip_build_fails) "in" =
    Some image_2x2
  /\ complete_or_prefix
       (run (compile_albedo_roughness
               (test_world (Some image_2x2) None mip_build_fails)
               "in" "out" POOR_BUT_FAST))
       [Header "out" TextureType_2D 2 2 2 (color_compression_options POOR_BUT_FAST);
        Compress "out" 0 0 (color_compression_options POOR_BUT_FAST);
        Compress "out" 0 1 (color_compression_options POOR_BUT_FAST)].
Proof.
  split; [reflexivity|].
  exact (proj1 (flat_texture_container
                  (test_world (Some image_2x2) None mip_build_fails)
                  "in"%string "out"%string POOR_BUT_FAST 2 2 (snd image_2x2)
                  eq_refl)).
Defined.

(* ===================================================================== *)
(** ** [main] *)
(* ===================================================================== *)

Lemma empty_false (s : string) : s <> EmptyString -> empty s = false.
Proof. destruct s; [congruence|reflexivity]. Qed.

Lemma empty_spec (s : string) : empty s = true -> s = EmptyString.
Proof. destruct s; [reflexivity|discriminate]. Qed.

Lemma empty_not (s : string) : empty s = false -> s <> EmptyString.
Proof. destruct s; [discriminate|discriminate]. Qed.

Lemma main_accepts (W : World) (usage : string) (c : CommandLine)
    (class : TextureClass) (tier : Compression) :
  well_formed c class tier -> main W usage (Parsed c) = compile W c class tier.
Proof.
  intros (Hhelp & Hin & Hout & Hclass & Htier & Hargs).
  unfold main, compile. rewrite Hhelp.
  rewrite (empty_false _ Hin), (empty_false _ Hout).
  unfold requested_classes in Hclass. unfold requested_tiers in Htier.
  destruct (is_albedo_roughness c), (is_normal_metalness_ambient_occlusion c),
    (is_parallax c), (is_cube_map c); try discriminate Hclass;
    injection Hclass as <-;
    destruct (is_production c), (is_development c), (is_no_compression c);
    try discriminate Htier; injection Htier as <-;
    cbn [int32_of_bool Z.add Z.eqb Pos.add Pos.eqb Pos.succ negb require bind pure];
    try (destruct Hargs as (-> & -> & -> & -> & ->); reflexivity).
  all: destruct Hargs as (Ho & Hi & His & Hp & Hps);
    rewrite (empty_false _ Hi), (empty_false _ Hp);
    destruct (N.eqb_spec (output_size c) 0); [lia|];
    destruct (N.eqb_spec (output_irradiance_size c) 0); [lia|];
    destruct (N.eqb_spec (output_prefilter_size c) 0); [lia|];
    destruct (N.ltb_spec 65535 (output_size c)); [lia|];
    destruct (N.ltb_spec 65535 (output_irradiance_size c)); [lia|];
    destruct (N.ltb_spec 65535 (output_prefilter_size c)); [lia|];
    reflexivity.
Qed.

Lemma main_rejects (W : World) (usage : string) (result : ParseResult) :
  (exists message, run (main W usage result) = ([EvPrint message], 1))
  \/ (exists c class tier, result = Parsed c /\ well_formed c class tier).
Proof.
  destruct result as [errorMessage|c]; [left; eexists; reflexivity|].
  unfold main.
  destruct (is_help c) eqn:Hhelp; [left; eexists; reflexivity|].
  destruct (empty (input c)) eqn:Hin; [left; eexists; reflexivity|].
  destruct (empty (output c)) eqn:Hout; [left; eexists; reflexivity|].
  apply empty_not in Hin, Hout.
  destruct (int32_of_bool (is_albedo_roughness c)
            + int32_of_bool (is_normal_metalness_ambient_occlusion c)
            + int32_of_bool (is_parallax c)
            + int32_of_bool (is_cube_map c) =? 1) eqn:Hclass;
    [|left; eexists; reflexivity].
  destruct (int32_of_bool (is_production c)
            + int32_of_bool (is_development c)
            + int32_of_bool (is_no_compression c) =? 1) eqn:Htier;
    [|left; eexists; reflexivity].
  assert (Ht : exists tier, requested_tiers c = [tier]).
  { unfold requested_tiers.
    destruct (is_production c), (is_development c), (is_no_compression c);
      try discriminate Htier; eexists; reflexivity. }
  destruct Ht as [tier Ht].
  destruct (is_cube_map c) eqn:Hcube.
  - assert (Hc : requested_classes c = [CubeMap]).
    { unfold requested_classes. rewrite Hcube.
      destruct (is_albedo_roughness c),
        (is_normal_metalness_ambient_occlusion c), (is_parallax c);
        try discriminate Hclass; reflexivity. }
    destruct (N.eqb_spec (output_size c) 0) as [H1|H1];
      [left; eexists; reflexivity|].
    destruct (empty (output_irradiance c)) eqn:H2;
      [left; eexists; reflexivity|].
    destruct (N.eqb_spec (output_irradiance_size c) 0) as [H3|H3];
      [left; eexists; reflexivity|].
    destruct (empty (output_prefilter c)) eqn:H4;
      [left; eexists; reflexivity|].
    destruct (N.eqb_spec (output_prefilter_size c) 0) as [H5|H5];
      [left; eexists; reflexivity|].
    destruct (N.ltb_spec 65535 (output_size c)) as [H6|H6];
      [left; eexists; reflexivity|].
    destruct (N.ltb_spec 65535 (output_irradiance_size c)) as [H7|H7];
      [left; eexists; reflexivity|].
    destruct (N.ltb_spec 65535 (output_prefilter_size c)) as [H8|H8];
      [left; eexists; reflexivity|].
    apply empty_not in H2, H4.
    right. exists c, CubeMap, tier. split; [reflexivity|].
    unfold well_formed, cube_map_arguments_given.
    repeat split; try assumption; lia.
  - assert (Hc : exists class, requested_classes c = [class] /\ class <> CubeMap).
    { unfold requested_classes. rewrite Hcube.
      destruct (is_albedo_roughness c),
        (is_normal_metalness_ambient_occlusion c), (is_parallax c);
        try discriminate Hclass; eexists; (split; [reflexivity|discriminate]). }
    destruct Hc as [class [Hc Hne]].
    destruct (N.eqb_spec (output_size c) 0) as [H1|H1];
      [|left; eexists; reflexivity].
    destruct (empty (output_irradiance c)) eqn:H2;
      [|left; eexists; reflexivity].
    destruct (N.eqb_spec (output_irradiance_size c) 0) as [H3|H3];
      [|left; eexists; reflexivity].
    destruct (empty (output_prefilter c)) eqn:H4;
      [|left; eexists; reflexivity].
    destruct (N.eqb_spec (output_prefilter_size c) 0) as [H5|H5];
      [|left; eexists; reflexivity].
    apply empty_spec in H2, H4.
    right. exists c, class, tier. split; [reflexivity|].
    unfold well_formed, cube_map_arguments_absent.
    repeat split; try assumption.
    destruct class; try congruence; repeat split; assumption.
Qed.

Lemma compile_albedo_roughness_no_gpu (W : World) (input output : string)
    (compression : Compression) :
  keeps (Forall (fun e => uses_gpu e = false))
    (compile_albedo_roughness W input output compression).
Proof.
  unfold compile_albedo_roughness.
  keeps_steps W fail ltac:(apply stable_Forall; reflexivity).
Qed.

Lemma compile_normal_metalness_ambient_occlusion_no_gpu (W : World)
    (input output : string) (compression : Compression) :
  keeps (Forall (fun e => uses_gpu e = false))
    (compile_normal_metalness_ambient_occlusion W input output compression).
Proof.
  unfold compile_normal_metalness_ambient_occlusion, compress_packed_level.
  keeps_steps W fail ltac:(apply stable_Forall; reflexivity).
Qed.

Lemma compile_parallax_no_gpu (W : World) (input output : string)
    (compression : Compression) :
  keeps (Forall (fun e => uses_gpu e = false))
    (compile_parallax W input output compression).
Proof.
  unfold compile_parallax.
  keeps_steps W fail ltac:(apply stable_Forall; reflexivity).
Qed.

(** X8. A command line that asks for one texture class and one compression
    tier, names the input and the output, and gives the five cube map
    arguments (sizes from 1 to 65535) exactly when the class is the cube map,
    makes [main] behave as the compile function of that class, called with
    the files, sizes and tier of the command line. *)
Theorem main_runs_the_selected_function :
  forall (W : World) (usage : string) (c : CommandLine)
         (class : TextureClass) (tier : Compression),
    well_formed c class tier ->
    main W usage (Parsed c) =
    match class with
    | AlbedoRoughness => compile_albedo_roughness W (input c) (output c) tier
    | NormalMetalnessAmbientOcclusion =>
        compile_normal_metalness_ambient_occlusion W (input c) (output c) tier
    | Parallax => compile_parallax W (input c) (output c) tier
    | CubeMap =>
        compile_cube_map W (input c) (output c) (Z.of_N (output_size c))
          (output_irradiance c) (Z.of_N (output_irradiance_size c))
          (output_prefilter c) (Z.of_N (output_prefilter_size c)) tier
    end.
Proof. intros W usage c class tier H. exact (main_accepts W usage c class tier H). Qed.

(** X9. An invocation that is not well formed is turned down before
    anything is done: whatever the parser returned, either the command line
    asks for one texture class and one tier, names input and output and
    gives the cube map arguments exactly when the class is the cube map, or
    [main] prints one message and returns 1 without decoding a file or
    calling nvtt, SDL or bgfx. *)
Theorem main_rejects_before_any_work :
  forall (W : World) (usage : string) (result : ParseResult),
    (exists message, run (main W usage result) = ([EvPrint message], 1))
    \/ (exists c class tier, result = Parsed c /\ well_formed c class tier).
Proof. exact main_rejects. Qed.

Lemma parallax_command_line_well_formed :
  well_formed parallax_command_line Parallax POOR_BUT_FAST.
Proof. repeat split; discriminate. Qed.

Lemma cube_map_command_line_well_formed :
  well_formed cube_map_command_line CubeMap GOOD_BUT_SLOW.
Proof.
  unfold well_formed, cube_map_arguments_given. cbn.
  repeat split; try discriminate; lia.
Qed.

Lemma main_runs_the_selected_function_witness :
  well_formed parallax_command_line Parallax POOR_BUT_FAST /\
  main (test_world (Some image_2x2) None always) "usage"
    (Parsed parallax_command_line) =
  compile_parallax (test_world (Some image_2x2) None always) "in" "out"
    POOR_BUT_FAST.
Proof.
  split; [exact parallax_command_line_well_formed|].
  exact (main_runs_the_selected_function
           (test_world (Some image_2x2) None always) "usage"%string
           parallax_command_line Parallax POOR_BUT_FAST
           parallax_command_line_well_formed).
Defined.

Lemma compile_exit_code (W : World) (c : CommandLine) (class : TextureClass)
    (tier : Compression) :
  well_formed c class tier ->
  snd (run (compile W c class tier)) = 0 \/ snd (run (compile W c class tier)) = 1.
Proof.
  intros (_ & _ & _ & _ & _ & Hargs).
  assert (Hfin : forall m F, finishes m F -> snd (run m) = 0 \/ snd (run m) = 1).
  { intros m F H. destruct (finishes_run m F H) as [[H0 _]|[H1 _]]; auto. }
  destruct class; cbn [compile].
  - destruct (stbi_load W (input c)) as [[[w h] data]|] eqn:Hload.
    + exact (Hfin _ _ (compile_albedo_roughness_finishes W _ _ tier w h data Hload)).
    + right. unfold run, compile_albedo_roughness, bind, emit. rewrite Hload.
      reflexivity.
  - destruct (stbi_load W (input c)) as [[[w h] data]|] eqn:Hload.
    + exact (Hfin _ _ (compile_normal_metalness_ambient_occlusion_finishes
                         W _ _ tier w h data Hload)).
    + right. unfold run, compile_normal_metalness_ambient_occlusion, bind, emit.
      rewrite Hload. reflexivity.
  - destruct (stbi_load W (input c)) as [[[w h] data]|] eqn:Hload.
    + exact (Hfin _ _ (compile_parallax_finishes W _ _ tier w h data Hload)).
    + right. unfold run, compile_parallax, bind, emit. rewrite Hload.
      reflexivity.
  - destruct Hargs as (_ & _ & _ & _ & Hp).
    assert (Hps : 1 <= Z.of_N (output_prefilter_size c) <= 65535) by lia.
    exact (Hfin _ _ (compile_cube_map_finishes W _ _ _ _ _ _ _ tier Hps)).
Qed.

(** X10. The exit code of [main] is 0 or 1, whatever the command line and
    whatever the decoder, the codec and the GPU do. *)
Theorem main_exit_code :
  forall (W : World) (usage : string) (result : ParseResult),
    snd (run (main W usage result)) = 0 \/ snd (run (main W usage result)) = 1.
Proof.
  intros W usage result.
  destruct (main_rejects W usage result) as [[message E]|(c & class & tier & -> & Hc)].
  - right. rewrite E. reflexivity.
  - rewrite (main_accepts W usage c class tier Hc).
    apply compile_exit_code, Hc.
Qed.

(** X11. Compiling a 2D texture needs no GPU: unless the command line asks
    for a cube map, no run of [main] calls SDL or bgfx. *)
Theorem flat_textures_need_no_gpu :
  forall (W : World) (usage : string) (result : ParseResult),
    (forall c, result = Parsed c -> is_cube_map c = false) ->
    Forall (fun e => uses_gpu e = false) (fst (run (main W usage result))).
Proof.
  intros W usage result Hflat.
  apply (keeps_run (Forall _)); [|constructor].
  unfold main. destruct result as [errorMessage|c].
  - keeps_steps W fail ltac:(apply stable_Forall; reflexivity).
  - rewrite (Hflat c eq_refl).
    keeps_steps W
      ltac:(idtac; lazymatch goal with
            | |- keeps _ (compile_albedo_roughness _ _ _ _) =>
                apply compile_albedo_roughness_no_gpu
            | |- keeps _ (compile_normal_metalness_ambient_occlusion _ _ _ _) =>
                apply compile_normal_metalness_ambient_occlusion_no_gpu
            | |- keeps _ (compile_parallax _ _ _ _) =>
                apply compile_parallax_no_gpu
            end)
      ltac:(apply stable_Forall; reflexivity).
Qed.

Lemma flat_textures_need_no_gpu_witness :
  is_cube_map parallax_command_line = false /\
  Forall (fun e => uses_gpu e = false)
    (fst (run (main (test_world (Some image_2x2) None always) "usage"
                 (Parsed parallax_command_line)))).
Proof.
  split; [reflexivity|].
  apply (flat_textures_need_no_gpu (test_world (Some image_2x2) None always)
           "usage"%string (Parsed parallax_command_line)).
  intros c E. injection E as <-. reflexivity.
Defined.

(** X12. For a cube map no size is lost on the way from the command line to
    the output: when [main] returns 0 the three containers were written in
    full, each header declaring the size given on the command line and, for
    the base and the prefilter container, as many levels as the integer
    logarithm of that size plus one. *)
Theorem cube_map_containers_as_requested :
  forall (W : World) (usage : string) (c : CommandLine) (tier : Compression),
    well_formed c CubeMap tier ->
    let r := run (main W usage (Parsed c)) in
    let output_size := Z.of_N (output_size c) in
    let irradiance_size := Z.of_N (output_irradiance_size c) in
    let prefilter_size := Z.of_N (output_prefilter_size c) in
    snd r = 0 ->
    container_calls (fst r) =
    cube_container_calls (output c) output_size (Z.log2 output_size + 1)
      (cube_map_compression_options tier)
    ++ cube_container_calls (output_irradiance c) irradiance_size 1
         irradiance_compression_options
    ++ cube_container_calls (output_prefilter c) prefilter_size
         (Z.log2 prefilter_size + 1) (prefilter_compression_options tier).
Proof.
  intros W usage c tier Hc r os isz ps Hcode. unfold r in *.
  rewrite (main_accepts W usage c CubeMap tier Hc) in *. cbn [compile] in *.
  destruct Hc as (_ & _ & _ & _ & _ & Ho & _ & Hi & _ & Hp).
  fold os isz ps in Hcode |- *.
  assert (Hos : 1 <= os <= 65535) by (unfold os; lia).
  assert (His : 1 <= isz <= 65535) by (unfold isz; lia).
  assert (Hps : 1 <= ps <= 65535) by (unfold ps; lia).
  destruct (finishes_run _ _
              (compile_cube_map_finishes W (input c) (output c) os
                 (output_irradiance c) isz (output_prefilter c) ps tier Hps))
    as [[_ H]|[H _]]; [|rewrite Hcode in H; discriminate].
  rewrite H. unfold expected_cube_map_calls.
  rewrite !count_mip_maps_log2 by lia.
  unfold int32. rewrite !Z.mod_small by lia.
  repeat f_equal; lia.
Qed.

Lemma cube_map_containers_as_requested_witness :
  well_formed cube_map_command_line CubeMap GOOD_BUT_SLOW /\
  container_calls
    (fst (run (main (test_world None (Some hdr_3x5) always) "usage"
                 (Parsed cube_map_command_line)))) =
  cube_container_calls "out" 2 2 (cube_map_compression_options GOOD_BUT_SLOW)
  ++ cube_container_calls "irradiance" 1 1 irradiance_compression_options
  ++ cube_container_calls "prefilter" 2 2
       (prefilter_compression_options GOOD_BUT_SLOW).
Proof.
  split; [exact cube_map_command_line_well_formed|].
  apply (cube_map_containers_as_requested
           (test_world None (Some hdr_3x5) always) "usage"%string
           cube_map_command_line GOOD_BUT_SLOW
           cube_map_command_line_well_formed).
  vm_compute. reflexivity.
Defined.

(* ===================================================================== *)
(** ** An input that cannot be decoded *)
(* ===================================================================== *)

Lemma load_hdr_fails (W : World) (input : string) (s : St) :
  stbi_loadf W input = None ->
  load_hdr W input s =
  (add_event (add_event s (EvStbiLoadf input))
     (EvPrint "Texture compiler error. Failed to open texture file."),
   Returned 1).
Proof.
  intros Hload. unfold load_hdr, bind, emit. rewrite Hload. reflexivity.
Qed.

(** X13. When stb_image cannot decode the input, every compile function
    returns 1 and writes no output. The 2D functions do nothing but report
    it; [compile_cube_map] has initialised SDL and bgfx by then, and creates
    no texture, buffer or shader. *)
Theorem undecodable_input_rejected :
  (forall (W : World) (input output : string) (compression : Compression),
     stbi_load W input = None ->
     let rejection :=
       ([EvStbiLoad input;
         EvPrint "Texture compiler error. Failed to load a texture."], 1) in
     run (compile_albedo_roughness W input output compression) = rejection
     /\ run (compile_normal_metalness_ambient_occlusion W input output
               compression) = rejection
     /\ run (compile_parallax W input output compression) = rejection)
  /\ (forall (W : World) (input output : string) (output_size : Z)
            (output_irradiance : string) (irradiance_size : Z)
            (output_prefilter : string) (prefilter_size : Z)
            (compression : Compression),
       stbi_loadf W input = None ->
       let r := run (compile_cube_map W input output output_size
                       output_irradiance irradiance_size output_prefilter
                       prefilter_size compression) in
       snd r = 1
       /\ Forall (fun e => writes_output e = false) (fst r)
       /\ Forall (fun e => In e [EvSdlInit; EvCreateWindow; EvGetWindowWMInfo;
                                 EvBgfxInit; EvStbiLoadf input]
                           \/ exists message, e = EvPrint message) (fst r)
       /\ ((forall t, succeeds W t = true) ->
           r = ([EvSdlInit; EvCreateWindow; EvGetWindowWMInfo; EvBgfxInit;
                 EvStbiLoadf input;
                 EvPrint "Texture compiler error. Failed to open texture file."],
                1))).
Proof.
  split.
  - intros W input output compression Hload rejection.
    split; [|split].
    + unfold run, compile_albedo_roughness, bind, emit. rewrite Hload.
      reflexivity.
    + unfold run, compile_normal_metalness_ambient_occlusion, bind, emit.
      rewrite Hload. reflexivity.
    + unfold run, compile_parallax, bind, emit. rewrite Hload. reflexivity.
  - intros W input output output_size output_irradiance irradiance_size
      output_prefilter prefilter_size compression Hload r.
    set (allowed := fun e => In e [EvSdlInit; EvCreateWindow; EvGetWindowWMInfo;
                                   EvBgfxInit; EvStbiLoadf input]
                             \/ exists message, e = EvPrint message).
    assert (H : exists s',
               compile_cube_map W input output output_size output_irradiance
                 irradiance_size output_prefilter prefilter_size compression
                 initial = (s', Returned 1)
               /\ Forall (fun e => writes_output e = false) (trace s')
               /\ Forall allowed (trace s')).
    { unfold compile_cube_map.
      pose proof (emits_initialize W initial) as [p [_ Hcode]].
      assert (Hkeeps : keeps (Forall (fun e => writes_output e = false))
                         (initialize W)).
      { unfold initialize.
        keeps_steps W fail ltac:(apply stable_Forall; reflexivity). }
      assert (Hallowed : keeps (Forall allowed) (initialize W)).
      { unfold initialize.
        keeps_steps W fail
          ltac:(apply stable_Forall; unfold allowed; simpl; eauto 10). }
      specialize (Hkeeps initial (Forall_nil _)).
      specialize (Hallowed initial (Forall_nil _)).
      unfold bind at 1.
      destruct (initialize W initial) as [s1 [[]|code]];
        simpl in Hcode, Hkeeps, Hallowed.
      - unfold bind at 1. rewrite (load_hdr_fails W input s1 Hload).
        eexists. split; [reflexivity|]. simpl. split.
        + apply Forall_app. split; [|repeat constructor].
          apply Forall_app. split; [exact Hkeeps|repeat constructor].
        + apply Forall_app. split.
          * apply Forall_app. split; [exact Hallowed|].
            constructor; [|constructor]. unfold allowed. simpl. auto 10.
          * constructor; [|constructor]. unfold allowed. right. eauto.
      - destruct Hcode as [-> _]. eexists. split; [reflexivity|]. auto. }
    destruct H as [s' [E [Hw Ha]]]. unfold r, run. rewrite E. simpl.
    split; [reflexivity|]. split; [exact Hw|]. split; [exact Ha|].
    intros Hall. revert E. unfold compile_cube_map, bind.
    rewrite (initialize_succeeds W initial Hall).
    rewrite (load_hdr_fails W input _ Hload). intros E.
    injection E as <-. reflexivity.
Qed.

Lemma undecodable_input_rejected_witness :
  stbi_load (test_world None None always) "in" = None /\
  run (compile_parallax (test_world None None always) "in" "out"
         NO_COMPRESSION) =
  ([EvStbiLoad "in";
    EvPrint "Texture compiler error. Failed to load a texture."], 1) /\
  snd (run (compile_cube_map (test_world None None always)
              "in" "out" 2 "irradiance" 1 "prefilter" 2 NO_COMPRESSION)) = 1.
Proof.
  split; [reflexivity|]. split.
  - apply (proj1 undecodable_input_rejected (test_world None None always)
             "in"%string "out"%string NO_COMPRESSION). reflexivity.
  - apply (proj2 undecodable_input_rejected (test_world None None always)
             "in"%string "out"%string 2 "irradiance"%string 1
             "prefilter"%string 2 NO_COMPRESSION). reflexivity.
Defined.

(* ===================================================================== *)
(** ** Runs in which no call fails *)
(* ===================================================================== *)

Section FallsThrough.

Variable W : World.
Hypothesis Hall : forall t, succeeds W t = true.

Lemma falls_pure {A : Type} (a : A) : falls_through (pure a).
Proof. intros s. exists s, a. reflexivity. Qed.

Lemma falls_emit (e : Event) : falls_through (emit e).
Proof. intros s. eexists _, _. reflexivity. Qed.

Lemma falls_get_view : falls_through get_view.
Proof. intros s. eexists _, _. reflexivity. Qed.

Lemma falls_next_view : falls_through next_view.
Proof. intros s. eexists _, _. reflexivity. Qed.

Lemma falls_readTexture : falls_through (readTexture W).
Proof. intros s. eexists _, _. reflexivity. Qed.

Lemma falls_wait_until_available (frame_id : Z) :
  falls_through (wait_until_available frame_id).
Proof.
  intros s.
  destruct (wait_until_available_spec frame_id s) as (frames & n & _ & _ & Hr & _).
  destruct (wait_until_available frame_id s) as [s' r]. simpl in Hr. subst r.
  exists s', n. reflexivity.
Qed.

Lemma falls_bind {A B : Type} (m : M A) (k : A -> M B) :
  falls_through m -> (forall a, falls_through (k a)) -> falls_through (bind m k).
Proof.
  intros Hm Hk s. unfold bind. destruct (Hm s) as (s1 & a & ->). apply Hk.
Qed.

Lemma falls_bind_call {B : Type} (e : Event) (k : bool -> M B) :
  falls_through (k true) -> falls_through (bind (call W e) k).
Proof. intros Hk s. unfold bind, call. rewrite Hall. apply Hk. Qed.

Lemma falls_for_each {A : Type} (l : list A) (body : A -> M unit) :
  (forall x, falls_through (body x)) -> falls_through (for_each l body).
Proof.
  intros Hbody. induction l as [|x r IH]; simpl.
  - apply falls_pure.
  - apply falls_bind; [apply Hbody|intros _; exact IH].
Qed.

Lemma falls_fold_each {A V : Type} (l : list A) (body : V -> A -> M V) :
  (forall v x, falls_through (body v x)) ->
  forall v, falls_through (fold_each l body v).
Proof.
  intros Hbody. induction l as [|x r IH]; intros v; simpl.
  - apply falls_pure.
  - apply falls_bind; [apply Hbody|intros v'; apply IH].
Qed.

Lemma returns_0_return {A : Type} : returns_0 (@return_ A 0).
Proof. intros s. exists s. reflexivity. Qed.

Lemma returns_0_bind {A B : Type} (m : M A) (k : A -> M B) :
  falls_through m -> (forall a, returns_0 (k a)) -> returns_0 (bind m k).
Proof.
  intros Hm Hk s. unfold bind. destruct (Hm s) as (s1 & a & ->). apply Hk.
Qed.

End FallsThrough.

Ltac falls_step W Hall :=
  lazymatch goal with
  | |- falls_through (pure _) => apply falls_pure
  | |- falls_through (emit _) => apply falls_emit
  | |- falls_through (print _) => unfold print
  | |- falls_through get_view => apply falls_get_view
  | |- falls_through next_view => apply falls_next_view
  | |- falls_through (readTexture _) => apply falls_readTexture
  | |- falls_through (wait_until_available _) =>
      apply falls_wait_until_available
  | |- falls_through (create _ _ _) => unfold create
  | |- falls_through (require true _) => apply falls_pure
  | |- falls_through (require_quiet true) => apply falls_pure
  | |- falls_through (bind (call _ _) _) => apply (falls_bind_call W Hall)
  | |- falls_through (bind _ _) => apply falls_bind; [|intros]
  | |- falls_through (for_each _ _) => apply falls_for_each; intros
  | |- falls_through (fold_each _ _ _) => apply falls_fold_each; intros
  | |- falls_through (if ?b then _ else _) => destruct b
  | |- falls_through (match ?x with _ => _ end) => destruct x
  end.

Ltac falls_steps W Hall := repeat (cbv beta zeta; falls_step W Hall).

Lemma compile_cube_map_succeeds (W : World) (input output : string)
    (output_size : Z) (output_irradiance : string) (irradiance_size : Z)
    (output_prefilter : string) (prefilter_size : Z)
    (compression : Compression) (w h : Z) (data : list float) :
  (forall t, succeeds W t = true) ->
  stbi_loadf W input = Some (w, h, data) ->
  hdr_size_rejected w h = false ->
  snd (run (compile_cube_map W input output output_size output_irradiance
              irradiance_size output_prefilter prefilter_size compression)) = 0.
Proof.
  intros Hall Hload Hvalid.
  assert (H : returns_0 (compile_cube_map W input output output_size
                           output_irradiance irradiance_size output_prefilter
                           prefilter_size compression)).
  { unfold compile_cube_map.
    apply returns_0_bind; [unfold initialize; falls_steps W Hall|intros _].
    apply returns_0_bind.
    { unfold load_hdr. rewrite Hload, Hvalid. cbn [negb]. falls_steps W Hall. }
    intros [w' h'].
    apply returns_0_bind;
      [unfold create_resources, create_program; falls_steps W Hall|intros _].
    apply returns_0_bind;
      [unfold capture_cube_sides, render_pass; falls_steps W Hall|intros _].
    apply returns_0_bind;
      [unfold compress_cube_map, read_back_surface, compress_mip_chain;
       falls_steps W Hall|intros _].
    apply returns_0_bind;
      [unfold render_cube_map, render_pass; falls_steps W Hall|intros _].
    apply returns_0_bind;
      [unfold render_irradiance, render_pass, create_program;
       falls_steps W Hall|intros _].
    apply returns_0_bind;
      [unfold compress_irradiance, read_back_surface; falls_steps W Hall|intros _].
    apply returns_0_bind;
      [unfold render_prefilter, render_pass, create_program;
       falls_steps W Hall|intros _].
    apply returns_0_bind;
      [unfold compress_prefilter, read_back_surface; falls_steps W Hall|intros _].
    apply returns_0_return. }
  unfold run. destruct (H initial) as [s' ->]. reflexivity.
Qed.

Lemma accepted_side_int_dimension (n : Z) : accepted_side n -> int_dimension n.
Proof.
  intros [k [Hk ->]]. unfold int_dimension.
  assert (0 < 2 ^ k) by (apply Z.pow_pos_nonneg; lia).
  assert (2 ^ k <= 2 ^ 15) by (apply Z.pow_le_mono_r; lia).
  change (2 ^ 15) with 32768 in *. lia.
Qed.

(** X14. [main] succeeds when nothing fails: for a well-formed command
    line, an input that decodes to an image the class accepts (sides that
    are powers of two up to 32768 for the 2D classes, sides from 1 to 65535
    for the panorama of a cube map) and collaborators whose calls all
    succeed, the exit code is 0. *)
Theorem main_succeeds_when_nothing_fails :
  forall (W : World) (usage : string) (c : CommandLine)
         (class : TextureClass) (tier : Compression),
    well_formed c class tier ->
    (forall t, succeeds W t = true) ->
    match class with
    | CubeMap =>
        exists w h data, stbi_loadf W (input c) = Some (w, h, data)
                         /\ 1 <= w <= 65535 /\ 1 <= h <= 65535
    | _ =>
        exists w h data, stbi_load W (input c) = Some (w, h, data)
                         /\ accepted_side w /\ accepted_side h
    end ->
    snd (run (main W usage (Parsed c))) = 0.
Proof.
  intros W usage c class tier Hc Hall Himage.
  rewrite (main_accepts W usage c class tier Hc).
  assert (Hflat : forall w h, accepted_side w -> accepted_side h ->
                    size_rejected w h = false
                    /\ size_rejected_parallax w h = false).
  { intros w h Hw Hh.
    destruct (size_rejected_spec w h (accepted_side_int_dimension w Hw)
                (accepted_side_int_dimension h Hh)) as [Hiff Hp].
    rewrite Hp. split; apply Hiff; auto. }
  destruct class; cbn [compile].
  - destruct Himage as (w & h & data & Hload & Hw & Hh).
    apply (compile_albedo_roughness_succeeds W _ _ tier w h data Hall Hload).
    apply Hflat; assumption.
  - destruct Himage as (w & h & data & Hload & Hw & Hh).
    apply (compile_normal_metalness_ambient_occlusion_succeeds W _ _ tier w h
             data Hall Hload).
    apply Hflat; assumption.
  - destruct Himage as (w & h & data & Hload & Hw & Hh).
    apply (compile_parallax_succeeds W _ _ tier w h data Hall Hload).
    apply Hflat; assumption.
  - destruct Himage as (w & h & data & Hload & Hw & Hh).
    apply (compile_cube_map_succeeds W _ _ _ _ _ _ _ tier w h data Hall Hload).
    unfold hdr_size_rejected. rewrite !Z.gtb_ltb.
    destruct (Z.leb_spec w 0); [lia|]. destruct (Z.leb_spec h 0); [lia|].
    destruct (Z.ltb_spec 65535 w); [lia|]. destruct (Z.ltb_spec 65535 h); [lia|].
    reflexivity.
Qed.

Lemma main_succeeds_when_nothing_fails_witness :
  well_formed cube_map_command_line CubeMap GOOD_BUT_SLOW /\
  (forall t, succeeds (test_world None (Some hdr_3x5) always) t = true) /\
  snd (run (main (test_world None (Some hdr_3x5) always) "usage"
              (Parsed cube_map_command_line))) = 0.
Proof.
  split; [exact cube_map_command_line_well_formed|].
  split; [reflexivity|].
  apply (main_succeeds_when_nothing_fails
           (test_world None (Some hdr_3x5) always) "usage"%string
           cube_map_command_line CubeMap GOOD_BUT_SLOW
           cube_map_command_line_well_formed (fun _ => eq_refl)).
  exists 3, 5, (repeat F32.one 60). split; [reflexivity|]. lia.
Defined.

(* ===================================================================== *)
(** ** The progress display *)
(* ===================================================================== *)

Lemma nondecreasing_sorted (l : list Z) : nondecreasing l = true -> Sorted Z.le l.
Proof.
  induction l as [|a [|b r] IH]; intros H.
  - constructor.
  - repeat constructor.
  - cbn [nondecreasing] in H. apply andb_true_iff in H as [Hab Hr].
    constructor; [apply IH, Hr|]. constructor. apply Z.leb_le, Hab.
Qed.

Lemma reaches_100b_sound (shown : list Z) :
  reaches_100b shown = true -> reaches_100 shown.
Proof.
  unfold reaches_100b, reaches_100. intros H.
  apply andb_true_iff in H as [H Hlast].
  apply andb_true_iff in H as [Hsorted Hrange].
  split; [apply nondecreasing_sorted, Hsorted|]. split.
  - apply Forall_forall. intros p Hp.
    rewrite forallb_forall in Hrange. specialize (Hrange p Hp).
    apply andb_true_iff in Hrange as [H0 H100].
    apply Z.leb_le in H0, H100. lia.
  - apply Z.eqb_eq, Hlast.
Qed.

Lemma in_range (lo hi n : Z) : lo <= n < hi -> In n (range lo hi).
Proof.
  intros H. unfold range. apply in_map_iff.
  exists (Z.to_nat (n - lo)). split; [lia|]. apply in_seq. lia.
Qed.

(** X15. The progress display of every compression loop never goes back,
    stays between 0 and 100 and ends at exactly 100 when the last level is
    done, in the single-precision arithmetic of the program: for the 2D
    textures, the base cube map and the prefilter map with any number of
    levels from 1 to 32, and for the irradiance map. *)
Theorem progress_reaches_100 :
  forall total_mip_levels : Z,
    1 <= total_mip_levels <= 32 ->
    reaches_100 (progress_shown total_mip_levels)
    /\ reaches_100 (cube_map_progress_shown total_mip_levels)
    /\ reaches_100 irradiance_progress_shown
    /\ reaches_100 (prefilter_progress_shown total_mip_levels).
Proof.
  intros total Htotal.
  assert (Hall : forallb (fun total =>
                    reaches_100b (progress_shown total)
                    && reaches_100b (cube_map_progress_shown total)
                    && reaches_100b irradiance_progress_shown
                    && reaches_100b (prefilter_progress_shown total))
                   (range 1 33) = true)
    by (vm_compute; reflexivity).
  rewrite forallb_forall in Hall.
  specialize (Hall total (in_range 1 33 total ltac:(lia))).
  apply andb_true_iff in Hall as [Hall H4].
  apply andb_true_iff in Hall as [Hall H3].
  apply andb_true_iff in Hall as [H1 H2].
  split; [|split; [|split]]; apply reaches_100b_sound; assumption.
Qed.

Lemma progress_reaches_100_witness :
  1 <= 3 <= 32 /\ reaches_100 (progress_shown 3) /\
  progress_shown 3 = [33; 66; 100].
Proof.
  split; [lia|]. split.
  - exact (proj1 (progress_reaches_100 3 ltac:(lia))).
  - vm_compute. reflexivity.
Defined.

(* ===================================================================== *)
(** ** Handles held in plain variables *)
(* ===================================================================== *)

Lemma raw_handles_scan_app (W : World) (t : list Event) (e : Event) :
  raw_handles_scan W (t ++ [e]) = raw_handles_step W (raw_handles_scan W t) e.
Proof. unfold raw_handles_scan. rewrite fold_left_app. reflexivity. Qed.

Lemma holds_neutral (W : World) (shaders : list string) (blit_textures : Z)
    (e : Event) (t : list Event) :
  keeps_raw_handles e ->
  holds W shaders blit_textures t -> holds W shaders blit_textures (t ++ [e]).
Proof.
  unfold holds. intros He H. rewrite raw_handles_scan_app, H.
  unfold raw_handles_step.
  destruct e; try reflexivity; try contradiction;
    match goal with
    | |- context [match ?texture with blit_texture => _ | _ => _ end] =>
        destruct texture
    end; try reflexivity; contradiction.
Qed.

Lemma stable_holds (W : World) (shaders : list string) (blit_textures : Z)
    (e : Event) :
  keeps_raw_handles e -> stable (holds W shaders blit_textures) e.
Proof. intros He t H. apply holds_neutral; assumption. Qed.

Lemma holds_frames (W : World) (shaders : list string) (blit_textures : Z)
    (frames : list Z) (t : list Event) :
  holds W shaders blit_textures t ->
  holds W shaders blit_textures (t ++ map EvFrame frames).
Proof.
  apply stable_frames. intros n. apply stable_holds. exact I.
Qed.

Lemma holds_step (W : World) (shaders : list string) (blit_textures : Z)
    (e : Event) (t : list Event) :
  holds W shaders blit_textures t ->
  raw_handles_scan W (t ++ [e]) =
  raw_handles_step W (t, (shaders, blit_textures)) e.
Proof. intros H. rewrite raw_handles_scan_app, H. reflexivity. Qed.

Lemma remove_first_head (name : string) (l : list string) :
  remove_first name (name :: l) = l.
Proof. simpl. rewrite String.eqb_refl. reflexivity. Qed.

(** Reasoning with a precondition, a postcondition for the value a step
    falls through with, and a condition for the state it returns in. *)
Section Hoare.

Variable W : World.

Lemma hoare_pure {A : Type} (P : St -> Prop) (a : A) (Q : A -> St -> Prop)
    (R : St -> Prop) :
  (forall s, P s -> Q a s) -> hoare P (pure a) Q R.
Proof. intros H s Hs. apply H, Hs. Qed.

Lemma hoare_return {A : Type} (P : St -> Prop) (code : Z)
    (Q : A -> St -> Prop) (R : St -> Prop) :
  (forall s, P s -> R s) -> hoare P (return_ code) Q R.
Proof. intros H s Hs. apply H, Hs. Qed.

Lemma hoare_bind {A B : Type} (P : St -> Prop) (m : M A) (k : A -> M B)
    (Q : A -> St -> Prop) (Q' : B -> St -> Prop) (R : St -> Prop) :
  hoare P m Q R -> (forall a, hoare (Q a) (k a) Q' R) ->
  hoare P (bind m k) Q' R.
Proof.
  intros Hm Hk s Hs. unfold bind. specialize (Hm s Hs).
  destruct (m s) as [s1 [a|code]].
  - apply Hk, Hm.
  - exact Hm.
Qed.

Lemma hoare_emit (P : St -> Prop) (e : Event) (Q : unit -> St -> Prop)
    (R : St -> Prop) :
  (forall s, P s -> Q tt (add_event s e)) -> hoare P (emit e) Q R.
Proof. intros H s Hs. apply H, Hs. Qed.

Lemma hoare_call (P : St -> Prop) (e : Event) (Q : bool -> St -> Prop)
    (R : St -> Prop) :
  (forall s, P s -> Q (succeeds W (trace s ++ [e])) (add_event s e)) ->
  hoare P (call W e) Q R.
Proof. intros H s Hs. apply H, Hs. Qed.

Lemma hoare_require (P : St -> Prop) (ok : bool) (message : string)
    (Q : unit -> St -> Prop) (R : St -> Prop) :
  (ok = true -> forall s, P s -> Q tt s) ->
  (ok = false -> forall s, P s -> R (add_event s (EvPrint message))) ->
  hoare P (require ok message) Q R.
Proof.
  intros Ht Hf. destruct ok; simpl.
  - apply hoare_pure, Ht. reflexivity.
  - intros s Hs. apply Hf; [reflexivity|exact Hs].
Qed.

Lemma hoare_for_each {A : Type} (I : St -> Prop) (l : list A)
    (body : A -> M unit) (R : St -> Prop) :
  (forall x, hoare I (body x) (fun _ => I) R) ->
  hoare I (for_each l body) (fun _ => I) R.
Proof.
  intros Hbody. induction l as [|x r IH]; simpl.
  - apply hoare_pure. auto.
  - apply (hoare_bind _ _ _ (fun _ => I)); [apply Hbody|intros _; exact IH].
Qed.

Lemma hoare_fold_each {A V : Type} (I : St -> Prop) (l : list A)
    (body : V -> A -> M V) (R : St -> Prop) :
  (forall v x, hoare I (body v x) (fun _ => I) R) ->
  forall v, hoare I (fold_each l body v) (fun _ => I) R.
Proof.
  intros Hbody. induction l as [|x r IH]; intros v; simpl.
  - apply hoare_pure. auto.
  - apply (hoare_bind _ _ _ (fun _ => I)); [apply Hbody|intros v'; apply IH].
Qed.

Lemma hoare_keeps {A : Type} (P : list Event -> Prop) (m : M A) :
  keeps P m ->
  hoare (fun s => P (trace s)) m (fun _ s => P (trace s))
    (fun s => P (trace s)).
Proof.
  intros H s Hs. specialize (H s Hs). destruct (m s) as [s' [a|code]]; exact H.
Qed.

Lemma keeps_hoare {A : Type} (P : list Event -> Prop) (m : M A) :
  hoare (fun s => P (trace s)) m (fun _ s => P (trace s))
    (fun s => P (trace s)) ->
  keeps P m.
Proof.
  intros H s Hs. specialize (H s Hs). destruct (m s) as [s' [a|code]]; exact H.
Qed.

End Hoare.

Lemma keeps_create_program_holds (W : World) (shaders : Shaders)
    (fragment_name : string) (no_vertex no_fragment no_program : string) :
  keeps (holds W [] 0)
    (create_program W shaders fragment_name no_vertex no_fragment no_program).
Proof.
  apply keeps_hoare. unfold create_program, create.
  set (v := "cube_map_shader_vertex"%string).
  apply (hoare_bind _ _ _ (fun (_ : unit) (s : St) => holds W [v] 0 (trace s))).
  { apply (hoare_bind _ _ _
             (fun (ok : bool) (s : St) => holds W (if ok then [v] else []) 0 (trace s))).
    - apply hoare_call. intros s H. cbn [add_event trace]. unfold holds.
      rewrite (holds_step W [] 0 _ _ H). unfold raw_handles_step.
      destruct (succeeds W _); reflexivity.
    - intros ok. apply hoare_require.
      + intros -> s H. exact H.
      + intros -> s H. apply holds_neutral; [exact I|exact H]. }
  intros _.
  apply (hoare_bind _ _ _
           (fun (ok : bool) (s : St) => holds W (if ok then [fragment_name; v] else [v]) 0
                          (trace s))).
  { apply hoare_call. intros s H. cbn [add_event trace]. unfold holds.
    rewrite (holds_step W [v] 0 _ _ H). unfold raw_handles_step.
    destruct (succeeds W _); reflexivity. }
  intros ok.
  apply (hoare_bind _ _ _ (fun (_ : unit) (s : St) => holds W [fragment_name; v] 0 (trace s))).
  { destruct ok.
    - apply hoare_pure. auto.
    - apply (hoare_bind _ _ _ (fun (_ : unit) (s : St) => holds W [v] 0 (trace s))).
      + apply hoare_emit. intros s H. apply holds_neutral; [exact I|exact H].
      + intros _.
        apply (hoare_bind _ _ _ (fun (_ : unit) (s : St) => holds W [] 0 (trace s))).
        * apply hoare_emit. intros s H. cbn [add_event trace]. unfold holds.
          rewrite (holds_step W [v] 0 _ _ H). unfold raw_handles_step.
          rewrite remove_first_head. reflexivity.
        * intros _. apply hoare_return. auto. }
  intros _.
  apply (hoare_bind _ _ _
           (fun (ok : bool) (s : St) => holds W (if ok then [] else [fragment_name; v]) 0
                          (trace s))).
  { apply hoare_call. intros s H. cbn [add_event trace]. unfold holds.
    rewrite (holds_step W [fragment_name; v] 0 _ _ H). unfold raw_handles_step.
    destruct (succeeds W _); reflexivity. }
  intros ok'. destruct ok'.
  - apply hoare_pure. auto.
  - apply (hoare_bind _ _ _ (fun (_ : unit) (s : St) => holds W [fragment_name; v] 0 (trace s))).
    + apply hoare_emit. intros s H. apply holds_neutral; [exact I|exact H].
    + intros _.
      apply (hoare_bind _ _ _ (fun (_ : unit) (s : St) => holds W [v] 0 (trace s))).
      * apply hoare_emit. intros s H. cbn [add_event trace]. unfold holds.
        rewrite (holds_step W _ 0 _ _ H). unfold raw_handles_step.
        rewrite remove_first_head. reflexivity.
      * intros _.
        apply (hoare_bind _ _ _ (fun (_ : unit) (s : St) => holds W [] 0 (trace s))).
        -- apply hoare_emit. intros s H. cbn [add_event trace]. unfold holds.
           rewrite (holds_step W [v] 0 _ _ H). unfold raw_handles_step.
           rewrite remove_first_head. reflexivity.
        -- intros _. apply hoare_return. auto.
Qed.

Lemma hoare_falls {A : Type} (P : list Event -> Prop) (m : M A)
    (R : St -> Prop) :
  keeps P m -> falls_through m ->
  hoare (fun s => P (trace s)) m (fun _ s => P (trace s)) R.
Proof.
  intros Hk Hf s Hs. specialize (Hk s Hs).
  destruct (Hf s) as (s' & a & E). rewrite E in *. exact Hk.
Qed.

Lemma keeps_read_back_surface_holds (W : World) (source : Texture)
    (size image_size : Z) (no_texture no_surface : string) :
  keeps (holds W [] 0)
    (read_back_surface W source size image_size no_texture no_surface).
Proof.
  apply keeps_hoare. unfold read_back_surface, create.
  apply (hoare_bind _ _ _ (fun (_ : Z) (s : St) => holds W [] 0 (trace s)));
    [apply hoare_keeps, keeps_get_view|intros view].
  apply (hoare_bind _ _ _ (fun (_ : unit) (s : St) => holds W [] 1 (trace s))).
  { apply (hoare_bind _ _ _
             (fun (ok : bool) (s : St) =>
                holds W [] (if ok then 1 else 0) (trace s))).
    - apply hoare_call. intros s H. cbn [add_event trace]. unfold holds.
      rewrite (holds_step W [] 0 _ _ H). unfold raw_handles_step.
      destruct (succeeds W _); reflexivity.
    - intros ok. apply hoare_require.
      + intros -> s H. exact H.
      + intros -> s H. apply holds_neutral; [exact I|exact H]. }
  intros _.
  apply (hoare_bind _ _ _ (fun (_ : unit) (s : St) => holds W [] 1 (trace s))).
  { apply (hoare_falls (holds W [] 1)); [|apply falls_emit].
    apply keeps_emit, stable_holds. exact I. }
  intros _.
  apply (hoare_bind _ _ _
           (fun (_ : Z * list Z) (s : St) => holds W [] 1 (trace s))).
  { apply (hoare_falls (holds W [] 1)); [|apply falls_readTexture].
    apply keeps_readTexture. intros frame_id. apply stable_holds. exact I. }
  intros [frame_id data_to_save].
  apply (hoare_bind _ _ _ (fun (_ : Z) (s : St) => holds W [] 1 (trace s))).
  { apply (hoare_falls (holds W [] 1)); [|apply falls_wait_until_available].
    apply keeps_wait_until_available. intros n. apply stable_holds. exact I. }
  intros _.
  apply (hoare_bind _ _ _ (fun (_ : unit) (s : St) => holds W [] 0 (trace s))).
  { apply hoare_emit. intros s H. cbn [add_event trace]. unfold holds.
    rewrite (holds_step W [] 1 _ _ H). reflexivity. }
  intros _. apply hoare_keeps.
  keeps_steps W fail ltac:(apply stable_holds; exact I).
Qed.

Lemma compile_cube_map_holds_nothing (W : World) (input output : string)
    (output_size : Z) (output_irradiance : string) (irradiance_size : Z)
    (output_prefilter : string) (prefilter_size : Z)
    (compression : Compression) :
  holds W [] 0
    (fst (run (compile_cube_map W input output output_size output_irradiance
                 irradiance_size output_prefilter prefilter_size compression))).
Proof.
  apply (keeps_run (holds W [] 0)); [|reflexivity].
  unfold compile_cube_map, initialize, load_hdr, create_resources,
    capture_cube_sides, compress_cube_map, render_cube_map, render_irradiance,
    compress_irradiance, render_prefilter, compress_prefilter,
    compress_mip_chain, render_pass.
  keeps_steps W
    ltac:(idtac; lazymatch goal with
          | |- keeps _ (create_program _ _ _ _ _ _) =>
              apply keeps_create_program_holds
          | |- keeps _ (read_back_surface _ _ _ _ _ _) =>
              apply keeps_read_back_surface_holds
          end)
    ltac:(apply stable_holds; exact I).
Qed.

(** X16. The handles [compile_cube_map] keeps in plain variables are given
    back on every path. Whatever fails and wherever the function returns,
    each shader it created was either made part of a program or destroyed,
    and each read back texture it created was destroyed. *)
Theorem raw_handles_released :
  forall (W : World) (input output : string) (output_size : Z)
         (output_irradiance : string) (irradiance_size : Z)
         (output_prefilter : string) (prefilter_size : Z)
         (compression : Compression),
    raw_handles W
      (fst (run (compile_cube_map W input output output_size output_irradiance
                   irradiance_size output_prefilter prefilter_size
                   compression))) = ([], 0).
Proof.
  intros. unfold raw_handles.
  rewrite (compile_cube_map_holds_nothing W). reflexivity.
Qed.

(** The scan is not blind: a shader that is created and neither destroyed
    nor made part of a program is still held at the end. *)
Example raw_handles_sees_a_leak :
  raw_handles (test_world None None always)
    [EvCreateShader CUBE_MAP_SHADER "cube_map_shader_vertex";
     EvPrint "Texture compiler error. Failed to create cube map fragment shader."]
  = (["cube_map_shader_vertex"%string], 0).
Proof. reflexivity. Qed.

(* ===================================================================== *)
(** ** The views of the passes *)
(* ===================================================================== *)

Lemma views_used_app (t u : list Event) :
  views_used (t ++ u) = views_used t ++ views_used u.
Proof. unfold views_used. apply flat_map_app. Qed.

Lemma views_used_frames (frames : list Z) : views_used (map EvFrame frames) = [].
Proof. induction frames as [|n r IH]; simpl; [reflexivity|exact IH]. Qed.

Section Quiet.

Variable W : World.

Lemma quiet_pure {A : Type} (a : A) : quiet (pure a).
Proof. intros s. split; reflexivity. Qed.

Lemma quiet_return {A : Type} (code : Z) : quiet (@return_ A code).
Proof. intros s. split; reflexivity. Qed.

Lemma quiet_get_view : quiet get_view.
Proof. intros s. split; reflexivity. Qed.

Lemma quiet_emit (e : Event) : view_of e = [] -> quiet (emit e).
Proof.
  intros He s. simpl. rewrite views_used_app. simpl. rewrite He, !app_nil_r.
  split; reflexivity.
Qed.

Lemma quiet_call (e : Event) : view_of e = [] -> quiet (call W e).
Proof.
  intros He s. simpl. rewrite views_used_app. simpl. rewrite He, !app_nil_r.
  split; reflexivity.
Qed.

Lemma quiet_bind {A B : Type} (m : M A) (k : A -> M B) :
  quiet m -> (forall a, quiet (k a)) -> quiet (bind m k).
Proof.
  intros Hm Hk s. unfold bind. specialize (Hm s).
  destruct (m s) as [s1 [a|code]]; simpl in *.
  - destruct (Hk a s1) as [Ht Hv]. destruct Hm as [Ht1 Hv1].
    rewrite Ht, Hv. auto.
  - exact Hm.
Qed.

Lemma quiet_require (ok : bool) (message : string) :
  quiet (require ok message).
Proof.
  destruct ok; simpl.
  - apply quiet_pure.
  - apply quiet_bind; [apply quiet_emit; reflexivity|intros _; apply quiet_return].
Qed.

Lemma quiet_require_quiet (ok : bool) : quiet (require_quiet ok).
Proof. destruct ok; simpl; [apply quiet_pure|apply quiet_return]. Qed.

Lemma quiet_create (e : Event) (message : string) :
  view_of e = [] -> quiet (create W e message).
Proof.
  intros He. unfold create.
  apply quiet_bind; [apply quiet_call, He|intros ok; apply quiet_require].
Qed.

Lemma quiet_for_each {A : Type} (l : list A) (body : A -> M unit) :
  (forall x, quiet (body x)) -> quiet (for_each l body).
Proof.
  intros Hbody. induction l as [|x r IH]; simpl.
  - apply quiet_pure.
  - apply quiet_bind; [apply Hbody|intros _; exact IH].
Qed.

Lemma quiet_fold_each {A V : Type} (l : list A) (body : V -> A -> M V) :
  (forall v x, quiet (body v x)) -> forall v, quiet (fold_each l body v).
Proof.
  intros Hbody. induction l as [|x r IH]; intros v; simpl.
  - apply quiet_pure.
  - apply quiet_bind; [apply Hbody|intros v'; apply IH].
Qed.

Lemma quiet_readTexture : quiet (readTexture W).
Proof.
  intros s. simpl. rewrite views_used_app. simpl. rewrite app_nil_r.
  split; reflexivity.
Qed.

Lemma quiet_wait_until_available (frame_id : Z) :
  quiet (wait_until_available frame_id).
Proof.
  intros s.
  destruct (wait_until_available_spec frame_id s) as (frames & n & Ht & Hv & _).
  rewrite Ht, Hv, views_used_app, views_used_frames, app_nil_r.
  split; reflexivity.
Qed.

(** A condition that looks at the views used and at [current_view] only
    passes over a quiet step. *)
Lemma hoare_quiet {A : Type} (I : St -> Prop) (m : M A) (R : St -> Prop) :
  (forall s s', views_used (trace s') = views_used (trace s) ->
                current_view s' = current_view s -> I s -> I s') ->
  (forall s, I s -> R s) ->
  quiet m -> hoare I m (fun _ => I) R.
Proof.
  intros Hdep Hexit Hm s Hs. destruct (Hm s) as [Ht Hv].
  destruct (m s) as [s' [a|code]]; simpl in *.
  - apply (Hdep s s'); assumption.
  - apply Hexit, (Hdep s s'); assumption.
Qed.

End Quiet.

Ltac quiet_step W :=
  lazymatch goal with
  | |- quiet (pure _) => apply quiet_pure
  | |- quiet (return_ _) => apply quiet_return
  | |- quiet get_view => apply quiet_get_view
  | |- quiet (require_quiet _) => apply quiet_require_quiet
  | |- quiet (require _ _) => apply quiet_require
  | |- quiet (create _ _ _) => apply (quiet_create W); reflexivity
  | |- quiet (emit _) => apply quiet_emit; reflexivity
  | |- quiet (print _) => unfold print
  | |- quiet (call _ _) => apply (quiet_call W); reflexivity
  | |- quiet (readTexture _) => apply (quiet_readTexture W)
  | |- quiet (wait_until_available _) => apply quiet_wait_until_available
  | |- quiet (bind _ _) => apply quiet_bind; [|intros]
  | |- quiet (for_each _ _) => apply quiet_for_each; intros
  | |- quiet (fold_each _ _ _) => apply quiet_fold_each; intros
  | |- quiet (if ?b then _ else _) => destruct b
  | |- quiet (match ?x with _ => _ end) => destruct x
  end.

Ltac quiet_steps W := repeat (cbv beta zeta; quiet_step W).

Lemma view_free_depends (s s' : St) :
  views_used (trace s') = views_used (trace s) ->
  current_view s' = current_view s -> view_free s -> view_free s'.
Proof.
  intros Ht Hv (n & Hn & Hu & Hc). exists n. rewrite Ht, Hv. auto.
Qed.

Lemma view_read_depends (view : Z) (s s' : St) :
  views_used (trace s') = views_used (trace s) ->
  current_view s' = current_view s -> view_read view s -> view_read view s'.
Proof.
  intros Ht Hv [Hf E]. split; [exact (view_free_depends s s' Ht Hv Hf)|].
  rewrite Hv. exact E.
Qed.

Lemma view_taken_depends (s s' : St) :
  views_used (trace s') = views_used (trace s) ->
  current_view s' = current_view s -> view_taken s -> view_taken s'.
Proof.
  intros Ht Hv (n & Hn & Hu & Hc). exists n. rewrite Ht, Hv. auto.
Qed.

Lemma view_free_in_order (s : St) : view_free s -> views_in_order s.
Proof. intros (n & Hn & Hu & _). exists n. auto. Qed.

Lemma view_read_in_order (view : Z) (s : St) :
  view_read view s -> views_in_order s.
Proof. intros [H _]. apply view_free_in_order, H. Qed.

Lemma view_taken_in_order (s : St) : view_taken s -> views_in_order s.
Proof. intros (n & Hn & Hu & _). exists (n + 1). split; [lia|exact Hu]. Qed.

Lemma first_views_next (n : Z) :
  0 <= n -> first_views (n + 1) = first_views n ++ [uint16 n].
Proof.
  intros Hn. unfold first_views, range.
  replace (Z.to_nat (n + 1 - 0)) with (S (Z.to_nat (n - 0))) by lia.
  rewrite seq_S, map_app, map_app. cbn [map]. repeat f_equal. lia.
Qed.

(** Using the view that was read takes it. *)
Lemma view_read_taken (view : Z) (e : Event) (s : St) :
  view_of e = [view] -> view_read view s -> view_taken (add_event s e).
Proof.
  intros He [(n & Hn & Hu & Hc) Hview]. exists n. cbn [add_event trace current_view].
  rewrite views_used_app, Hu. cbn [views_used flat_map]. rewrite He, app_nil_r.
  rewrite first_views_next by exact Hn. rewrite Hview, Hc. auto.
Qed.

Lemma hoare_next_view (R : St -> Prop) :
  hoare view_taken next_view (fun _ => view_free) R.
Proof.
  intros s (n & Hn & Hu & Hc). cbn [next_view]. exists (n + 1).
  cbn [trace current_view]. split; [lia|]. split; [exact Hu|].
  rewrite Hc. unfold uint16. apply Z.add_mod_idemp_l. lia.
Qed.

Section Views.

Variable W : World.

Lemma hoare_render_pass (target : Target) (size side : Z) (input : Texture)
    (program : Shaders) (settings : option (list float)) (message : string) :
  hoare view_free
    (render_pass W target size side input program settings message)
    (fun _ => view_taken) views_in_order.
Proof.
  unfold render_pass.
  apply (hoare_bind _ _ _ view_read).
  { intros s H. cbn [get_view]. split; [exact H|reflexivity]. }
  intros view.
  apply (hoare_bind _ _ _ (fun _ : unit => view_read view)).
  { apply hoare_quiet;
      [apply view_read_depends|apply view_read_in_order|quiet_steps W]. }
  intros _. apply hoare_emit. intros s H.
  apply (view_read_taken view); [reflexivity|exact H].
Qed.

Lemma hoare_read_back_surface (source : Texture) (size image_size : Z)
    (no_texture no_surface : string) :
  hoare view_free
    (read_back_surface W source size image_size no_texture no_surface)
    (fun _ => view_taken) views_in_order.
Proof.
  unfold read_back_surface.
  apply (hoare_bind _ _ _ view_read).
  { intros s H. cbn [get_view]. split; [exact H|reflexivity]. }
  intros view.
  apply (hoare_bind _ _ _ (fun _ : unit => view_read view)).
  { apply hoare_quiet;
      [apply view_read_depends|apply view_read_in_order|quiet_steps W]. }
  intros _.
  apply (hoare_bind _ _ _ (fun _ : unit => view_taken)).
  { apply hoare_emit. intros s H.
    apply (view_read_taken view); [reflexivity|exact H]. }
  intros _.
  apply hoare_quiet;
    [apply view_taken_depends|apply view_taken_in_order|quiet_steps W].
Qed.

Lemma hoare_free_quiet {A : Type} (m : M A) :
  quiet m -> hoare view_free m (fun _ => view_free) views_in_order.
Proof.
  apply hoare_quiet; [apply view_free_depends|apply view_free_in_order].
Qed.

Lemma hoare_taken_quiet {A : Type} (m : M A) :
  quiet m -> hoare view_taken m (fun _ => view_taken) views_in_order.
Proof.
  apply hoare_quiet; [apply view_taken_depends|apply view_taken_in_order].
Qed.

(** A pass followed by [current_view++]. *)
Lemma hoare_pass_then_next (pass : M unit) :
  hoare view_free pass (fun _ => view_taken) views_in_order ->
  hoare view_free (pass ;; next_view) (fun _ => view_free) views_in_order.
Proof.
  intros H. apply (hoare_bind _ _ _ (fun _ : unit => view_taken)); [exact H|].
  intros _. apply hoare_next_view.
Qed.

Lemma compile_cube_map_views (input output : string) (output_size : Z)
    (output_irradiance : string) (irradiance_size : Z)
    (output_prefilter : string) (prefilter_size : Z)
    (compression : Compression) :
  hoare view_free
    (compile_cube_map W input output output_size output_irradiance
       irradiance_size output_prefilter prefilter_size compression)
    (fun _ => view_free) views_in_order.
Proof.
  unfold compile_cube_map.
  apply (hoare_bind _ _ _ (fun _ : unit => view_free)).
  { apply hoare_free_quiet. unfold initialize. quiet_steps W. }
  intros _.
  apply (hoare_bind _ _ _ (fun _ : Z * Z => view_free)).
  { apply hoare_free_quiet. unfold load_hdr. quiet_steps W. }
  intros [w h].
  apply (hoare_bind _ _ _ (fun _ : unit => view_free)).
  { apply hoare_free_quiet. unfold create_resources, create_program.
    quiet_steps W. }
  intros _.
  apply (hoare_bind _ _ _ (fun _ : unit => view_free)).
  { unfold capture_cube_sides. apply hoare_for_each. intros side.
    apply hoare_pass_then_next, hoare_render_pass. }
  intros _.
  apply (hoare_bind _ _ _ (fun _ : unit => view_free)).
  { unfold compress_cube_map.
    apply (hoare_bind _ _ _ (fun _ : unit => view_free));
      [apply hoare_free_quiet; quiet_steps W|intros _].
    apply (hoare_bind _ _ _ (fun _ : bool => view_free));
      [apply hoare_free_quiet; quiet_steps W|intros ok].
    apply (hoare_bind _ _ _ (fun _ : unit => view_free));
      [apply hoare_free_quiet; quiet_steps W|intros _].
    apply hoare_for_each. intros side.
    apply (hoare_bind _ _ _ (fun _ : Surface => view_taken));
      [apply hoare_read_back_surface|intros surface].
    apply (hoare_bind _ _ _ (fun _ : Surface => view_taken));
      [apply hoare_taken_quiet; unfold compress_mip_chain; quiet_steps W
      |intros _].
    apply hoare_next_view. }
  intros _.
  apply (hoare_bind _ _ _ (fun _ : unit => view_free)).
  { unfold render_cube_map.
    apply (hoare_bind _ _ _ (fun _ : unit => view_free));
      [apply hoare_free_quiet; quiet_steps W|intros _].
    apply hoare_for_each. intros side.
    apply hoare_for_each. intros [size mip_level].
    apply hoare_pass_then_next, hoare_render_pass. }
  intros _.
  apply (hoare_bind _ _ _ (fun _ : unit => view_free)).
  { unfold render_irradiance.
    apply (hoare_bind _ _ _ (fun _ : unit => view_free));
      [apply hoare_free_quiet; quiet_steps W|intros _].
    apply (hoare_bind _ _ _ (fun _ : unit => view_free));
      [apply hoare_free_quiet; unfold create_program; quiet_steps W|intros _].
    apply hoare_for_each. intros side.
    apply hoare_pass_then_next, hoare_render_pass. }
  intros _.
  apply (hoare_bind _ _ _ (fun _ : unit => view_free)).
  { unfold compress_irradiance.
    apply (hoare_bind _ _ _ (fun _ : unit => view_free));
      [apply hoare_free_quiet; quiet_steps W|intros _].
    apply (hoare_bind _ _ _ (fun _ : bool => view_free));
      [apply hoare_free_quiet; quiet_steps W|intros ok].
    apply (hoare_bind _ _ _ (fun _ : unit => view_free));
      [apply hoare_free_quiet; quiet_steps W|intros _].
    apply hoare_for_each. intros side.
    apply (hoare_bind _ _ _ (fun _ : Surface => view_taken));
      [apply hoare_read_back_surface|intros surface].
    apply (hoare_bind _ _ _ (fun _ : bool => view_taken));
      [apply hoare_taken_quiet; quiet_steps W|intros ok'].
    apply (hoare_bind _ _ _ (fun _ : unit => view_taken));
      [apply hoare_taken_quiet; quiet_steps W|intros _].
    apply hoare_next_view. }
  intros _.
  apply (hoare_bind _ _ _ (fun _ : unit => view_free)).
  { unfold render_prefilter.
    apply (hoare_bind _ _ _ (fun _ : unit => view_free));
      [apply hoare_free_quiet; quiet_steps W|intros _].
    apply (hoare_bind _ _ _ (fun _ : unit => view_free));
      [apply hoare_free_quiet; unfold create_program; quiet_steps W|intros _].
    apply (hoare_bind _ _ _ (fun _ : unit => view_free));
      [apply hoare_free_quiet; quiet_steps W|intros _].
    apply hoare_for_each. intros side.
    apply hoare_for_each. intros [mip_size mip_level].
    apply hoare_pass_then_next, hoare_render_pass. }
  intros _.
  apply (hoare_bind _ _ _ (fun _ : unit => view_free)).
  { unfold compress_prefilter.
    apply (hoare_bind _ _ _ (fun _ : unit => view_free));
      [apply hoare_free_quiet; quiet_steps W|intros _].
    apply (hoare_bind _ _ _ (fun _ : bool => view_free));
      [apply hoare_free_quiet; quiet_steps W|intros ok].
    apply (hoare_bind _ _ _ (fun _ : unit => view_free));
      [apply hoare_free_quiet; quiet_steps W|intros _].
    apply hoare_for_each. intros side.
    apply hoare_for_each. intros [mip_size mip_level].
    apply (hoare_bind _ _ _ (fun _ : Surface => view_taken));
      [apply hoare_read_back_surface|intros surface].
    apply (hoare_bind _ _ _ (fun _ : bool => view_taken));
      [apply hoare_taken_quiet; quiet_steps W|intros ok'].
    apply (hoare_bind _ _ _ (fun _ : unit => view_taken));
      [apply hoare_taken_quiet; quiet_steps W|intros _].
    apply hoare_next_view. }
  intros _. apply hoare_return. apply view_free_in_order.
Qed.

End Views.

(** X17. Every rendering pass and every read back of [compile_cube_map] gets
    a bgfx view of its own, numbered in program order: in every run the
    views that passes are submitted to and blits are queued on are 0, 1, 2,
    ... (as 16-bit view ids), one after the other, so bgfx, which executes
    views in the order of their ids, executes them in the order the program
    set them up. *)
Theorem views_numbered_in_program_order :
  forall (W : World) (input output : string) (output_size : Z)
         (output_irradiance : string) (irradiance_size : Z)
         (output_prefilter : string) (prefilter_size : Z)
         (compression : Compression),
    let used :=
      views_used
        (fst (run (compile_cube_map W input output output_size
                     output_irradiance irradiance_size output_prefilter
                     prefilter_size compression))) in
    used = map uint16 (range 0 (Z.of_nat (List.length used))).
Proof.
  intros W input output output_size output_irradiance irradiance_size
    output_prefilter prefilter_size compression used.
  assert (H : views_in_order
                (fst (compile_cube_map W input output output_size
                        output_irradiance irradiance_size output_prefilter
                        prefilter_size compression initial))).
  { pose proof (compile_cube_map_views W input output output_size
                  output_irradiance irradiance_size output_prefilter
                  prefilter_size compression initial) as H.
    assert (H0 : view_free initial)
      by (exists 0; repeat split; reflexivity || lia).
    specialize (H H0).
    destruct (compile_cube_map _ _ _ _ _ _ _ _ _ initial) as [s' [a|code]];
      [apply view_free_in_order, H|exact H]. }
  assert (E : used = views_used
                (trace (fst (compile_cube_map W input output output_size
                        output_irradiance irradiance_size output_prefilter
                        prefilter_size compression initial)))).
  { unfold used, run.
    destruct (compile_cube_map _ _ _ _ _ _ _ _ _ initial) as [s' r].
    reflexivity. }
  destruct H as (n & Hn & Hu). rewrite <- E in Hu.
  assert (Hlen : Z.of_nat (List.length used) = n).
  { rewrite Hu. unfold first_views, range.
    rewrite !length_map, length_seq. lia. }
  rewrite Hlen. exact Hu.
Qed.

(** The views of a small cube map: 6 captures, 6 read backs, 12 passes for
    the two levels of the cube map, 6 passes and 6 read backs for the
    irradiance map, 12 passes and 12 read backs for the prefilter map. *)
Example views_of_a_small_cube_map :
  views_used
    (fst (run (compile_cube_map (test_world None (Some hdr_3x5) always)
                 "in" "out" 2 "irradiance" 1 "prefilter" 2 GOOD_BUT_SLOW)))
  = range 0 60.
Proof. vm_compute. reflexivity. Qed.

(* ===================================================================== *)
(** ** The sizes of the mip levels *)
(* ===================================================================== *)

Lemma keeps_for_each_in {A : Type} (P : list Event -> Prop) (l : list A)
    (body : A -> M unit) :
  (forall x, In x l -> keeps P (body x)) -> keeps P (for_each l body).
Proof.
  induction l as [|x r IH]; intros Hbody; simpl.
  - apply keeps_pure.
  - apply keeps_bind; [apply Hbody; left; reflexivity|intros _].
    apply IH. intros y Hy. apply Hbody. right. exact Hy.
Qed.

Lemma mip_sizes_in (size0 size mip_level : Z) :
  1 <= size0 ->
  In (size, mip_level) (mip_sizes size0 0) ->
  0 <= mip_level <= Z.log2 size0 /\ size = mip_size size0 mip_level.
Proof.
  intros H0 Hin. rewrite mip_sizes_halving in Hin by exact H0.
  apply in_map_iff in Hin as [k [E Hk]]. injection E as <- <-.
  unfold range in Hk. apply in_map_iff in Hk as [i [<- Hi]].
  apply in_seq in Hi. rewrite Z.sub_0_r. unfold mip_size.
  split; [lia|reflexivity].
Qed.

Lemma mip_size_bounds (size0 mip_level : Z) :
  1 <= size0 <= 65535 -> 0 <= mip_level <= Z.log2 size0 ->
  0 <= mip_level < 16 /\ 1 <= mip_size size0 mip_level <= 65535.
Proof.
  intros Hs Hm.
  assert (Hlog : Z.log2 size0 < 16).
  { apply Z.log2_lt_pow2; [lia|]. change (2 ^ 16) with 65536. lia. }
  assert (Hpow : 0 < 2 ^ mip_level) by (apply Z.pow_pos_nonneg; lia).
  assert (Hle : 2 ^ mip_level <= size0).
  { transitivity (2 ^ Z.log2 size0).
    - apply Z.pow_le_mono_r; lia.
    - apply Z.log2_spec. lia. }
  unfold mip_size. split; [lia|]. split.
  - apply Z.div_le_lower_bound; lia.
  - transitivity size0; [|lia]. apply Z.div_le_upper_bound; nia.
Qed.

Lemma uint16_small (n : Z) : 0 <= n <= 65535 -> uint16 n = n.
Proof. intros H. unfold uint16. apply Z.mod_small. lia. Qed.

(** X18. For sizes as [main] lets them through, every mip level of the cube
    map and of the prefilter textures is dealt with at its own size, the
    size of the texture halved once per level and rounded down: the pass that
    renders level [k] of a cube map face covers that size, and each
    prefilter texture of level [k] is created, rendered and copied for
    read back at that size. *)
Theorem mip_levels_at_their_own_size (W : World) (input output : string)
    (output_size : Z) (output_irradiance : string) (irradiance_size : Z)
    (output_prefilter : string) (prefilter_size : Z)
    (compression : Compression) :
  1 <= output_size <= 65535 -> 1 <= prefilter_size <= 65535 ->
  Forall (sized_for_its_level output_size prefilter_size)
    (fst (run (compile_cube_map W input output output_size output_irradiance
                 irradiance_size output_prefilter prefilter_size compression))).
Proof.
  intros Ho Hp.
  apply (keeps_run (Forall _)); [|constructor].
  assert (Hlevel : forall size0 size mip_level,
            1 <= size0 <= 65535 ->
            In (size, mip_level) (mip_sizes size0 0) ->
            size = mip_size size0 mip_level
            /\ uint16 size = mip_size size0 mip_level
            /\ uint16 mip_level = mip_level).
  { intros size0 size mip_level Hs Hin.
    destruct (mip_sizes_in size0 size mip_level ltac:(lia) Hin) as [Hm ->].
    destruct (mip_size_bounds size0 mip_level Hs Hm) as [Hm16 Hsz].
    rewrite !uint16_small by lia. auto. }
  unfold compile_cube_map.
  apply keeps_bind;
    [unfold initialize;
     keeps_steps W fail ltac:(apply stable_Forall; simpl; auto)|intros _].
  apply keeps_bind;
    [unfold load_hdr;
     keeps_steps W fail ltac:(apply stable_Forall; simpl; auto)|intros [w h]].
  apply keeps_bind;
    [unfold create_resources, create_program;
     keeps_steps W fail ltac:(apply stable_Forall; simpl; auto)|intros _].
  apply keeps_bind;
    [unfold capture_cube_sides, render_pass;
     keeps_steps W fail ltac:(apply stable_Forall; simpl; auto)|intros _].
  apply keeps_bind;
    [unfold compress_cube_map, compress_mip_chain, read_back_surface;
     keeps_steps W fail ltac:(apply stable_Forall; simpl; auto)|intros _].
  apply keeps_bind; [|intros _].
  { unfold render_cube_map.
    apply keeps_bind;
      [keeps_steps W fail ltac:(apply stable_Forall; simpl; auto)|intros _].
    apply keeps_for_each. intros side.
    apply keeps_for_each_in. intros [size mip_level] Hin.
    destruct (Hlevel output_size size mip_level Ho Hin) as (_ & Es & Em).
    unfold render_pass. rewrite Es, Em.
    keeps_steps W fail ltac:(apply stable_Forall; simpl; auto). }
  apply keeps_bind;
    [unfold render_irradiance, render_pass, create_program;
     keeps_steps W fail ltac:(apply stable_Forall; simpl; auto)|intros _].
  apply keeps_bind;
    [unfold compress_irradiance, read_back_surface;
     keeps_steps W fail ltac:(apply stable_Forall; simpl; auto)|intros _].
  apply keeps_bind; [|intros _].
  { unfold render_prefilter.
    rewrite (uint16_small prefilter_size) by lia.
    apply keeps_bind.
    { apply keeps_for_each. intros side.
      apply keeps_for_each_in. intros [size mip_level] Hin.
      destruct (Hlevel prefilter_size size mip_level Hp Hin) as (-> & _ & _).
      keeps_steps W fail ltac:(apply stable_Forall; simpl; auto). }
    intros _.
    apply keeps_bind;
      [unfold create_program;
       keeps_steps W fail ltac:(apply stable_Forall; simpl; auto)|intros _].
    apply keeps_bind;
      [keeps_steps W fail ltac:(apply stable_Forall; simpl; auto)|intros _].
    apply keeps_for_each. intros side.
    apply keeps_for_each_in. intros [size mip_level] Hin.
    destruct (Hlevel prefilter_size size mip_level Hp Hin) as (-> & _ & _).
    unfold render_pass.
    keeps_steps W fail ltac:(apply stable_Forall; simpl; auto). }
  apply keeps_bind; [|intros _; apply keeps_return].
  unfold compress_prefilter.
  rewrite (uint16_small prefilter_size) by lia.
  apply keeps_bind;
    [keeps_steps W fail ltac:(apply stable_Forall; simpl; auto)|intros _].
  apply keeps_bind;
    [keeps_steps W fail ltac:(apply stable_Forall; simpl; auto)|intros ok].
  apply keeps_bind;
    [keeps_steps W fail ltac:(apply stable_Forall; simpl; auto)|intros _].
  apply keeps_for_each. intros side.
  apply keeps_for_each_in. intros [size mip_level] Hin.
  destruct (Hlevel prefilter_size size mip_level Hp Hin) as (-> & _ & _).
  unfold read_back_surface.
  keeps_steps W fail ltac:(apply stable_Forall; simpl; auto).
Qed.

Lemma mip_levels_at_their_own_size_witness :
  1 <= 2 <= 65535 /\
  Forall (sized_for_its_level 2 2)
    (fst (run (compile_cube_map (test_world None (Some hdr_3x5) always)
                 "in" "out" 2 "irradiance" 1 "prefilter" 2 GOOD_BUT_SLOW))).
Proof.
  assert (H : 1 <= 2 <= 65535) by lia.
  split; [exact H|].
  exact (mip_levels_at_their_own_size
           (test_world None (Some hdr_3x5) always)
           "in"%string "out"%string 2 "irradiance"%string 1
           "prefilter"%string 2 GOOD_BUT_SLOW H H).
Defined.

(* ===================================================================== *)
(** ** [HandleWrapper] *)
(* ===================================================================== *)

Lemma existsb_eqb_in (handle : Z) (l : list Z) :
  existsb (Z.eqb handle) l = true <-> In handle l.
Proof.
  rewrite existsb_exists. split.
  - intros [x [Hx E]]. apply Z.eqb_eq in E. subst x. exact Hx.
  - intros H. exists handle. split; [exact H|apply Z.eqb_refl].
Qed.

Lemma in_filter_other (handle x : Z) (l : list Z) :
  In x (filter (fun other => negb (other =? handle)) l) <-> In x l /\ x <> handle.
Proof.
  rewrite filter_In, negb_true_iff, Z.eqb_neq. reflexivity.
Qed.

Lemma object_set_object (this : nat) (value : option Z) (heap : Heap)
    (address : nat) :
  object (set_object this value heap) address =
  if Nat.eqb address this then value else object heap address.
Proof. reflexivity. Qed.

(** What [~HandleWrapper()] does when the handle, if valid, is alive: the
    wrappers stay as they are, the handle is no longer alive, and the destroy
    call did not go wrong. *)
Lemma release_spec (heap : Heap) (mine : Z) :
  (isValid mine = true -> In mine (live heap)) ->
  object (release mine heap) = object heap
  /\ stale_destroys (release mine heap) = stale_destroys heap
  /\ (NoDup (live heap) -> NoDup (live (release mine heap)))
  /\ forall x, In x (live (release mine heap)) <->
               In x (live heap) /\ (isValid mine = true -> x <> mine).
Proof.
  intros Hmine. unfold release.
  destruct (isValid mine) eqn:Hvalid.
  - unfold destroy.
    assert (Hlive : existsb (Z.eqb mine) (live heap) = true)
      by (apply existsb_eqb_in, Hmine; reflexivity).
    rewrite Hlive. cbn [object stale_destroys live].
    split; [reflexivity|]. split; [reflexivity|].
    split; [apply NoDup_filter|].
    intros x. rewrite in_filter_other. tauto.
  - split; [reflexivity|]. split; [reflexivity|]. split; [auto|].
    intros x. split; [intros H; split; [exact H|discriminate]|tauto].
Qed.

Lemma created_owned (heap heap' : Heap) (handle : Z) :
  owned heap -> created handle heap = Some heap' ->
  object heap' = object heap
  /\ stale_destroys heap' = []
  /\ NoDup (live heap')
  /\ (forall x, In x (live heap') <->
                In x (live heap) \/ (isValid handle = true /\ x = handle))
  /\ (isValid handle = true -> forall a, object heap a <> Some handle).
Proof.
  intros (J1 & J2 & J3 & J4 & J5). unfold created.
  destruct (isValid handle) eqn:Hvalid.
  - destruct (existsb (Z.eqb handle) (live heap)) eqn:Hlive; [discriminate|].
    intros E. injection E as <-. cbn [object stale_destroys live].
    assert (Hnot : ~ In handle (live heap)).
    { intros H. apply existsb_eqb_in in H. congruence. }
    split; [reflexivity|]. split; [exact J5|].
    split; [constructor; assumption|]. split.
    + intros x. simpl. split; [intros [<-|H]; auto|intros [H|[_ ->]]; auto].
    + intros _ a Ha. apply Hnot, (J2 a); assumption.
  - intros E. injection E as <-.
    split; [reflexivity|]. split; [exact J5|]. split; [exact J4|]. split.
    + intros x. split; [auto|intros [H|[H _]]; [exact H|discriminate]].
    + discriminate.
Qed.

Lemma invalid_handle_not_valid : isValid BGFX_INVALID_HANDLE = false.
Proof. reflexivity. Qed.

Ltac addresses :=
  repeat match goal with
         | H : context [Nat.eqb ?a ?b] |- _ =>
             destruct (Nat.eqb_spec a b); try subst
         | |- context [Nat.eqb ?a ?b] =>
             destruct (Nat.eqb_spec a b); try subst
         end.

Ltac handles :=
  repeat match goal with
         | H : Some _ = Some _ |- _ => injection H as H; try subst
         | H : isValid BGFX_INVALID_HANDLE = true |- _ => discriminate H
         end;
  try discriminate; try congruence; eauto.

(** Two wrappers cannot hold the same valid handle. *)
Ltac owner_clash J1 :=
  match goal with
  | n : ?x <> ?y |- _ =>
      solve [ exfalso; apply n; eapply J1; eauto
            | exfalso; apply n; symmetry; eapply J1; eauto ]
  end.

Lemma use_owned (u : Use) (heap heap' : Heap) :
  owned heap -> use u heap = Some heap' -> owned heap'.
Proof.
  intros Howned Huse. pose proof Howned as (J1 & J2 & J3 & J4 & J5).
  destruct u as [this|this handle|this handle|this original|this original|this];
    cbn [use] in Huse.
  - (* DeclareEmpty *)
    unfold default_constructor in Huse.
    destruct (object heap this) eqn:Hthis; [discriminate|].
    injection Huse as <-. unfold owned. cbn [live stale_destroys].
    repeat split; try assumption.
    + intros a b h. rewrite !object_set_object. intros Ha Hb Hv.
      addresses; handles.
    + intros a h. rewrite !object_set_object. intros Ha Hv.
      addresses; handles.
    + apply J3. assumption.
    + destruct (J3 handle H) as [_ [a Ha]]. exists a.
      rewrite object_set_object. addresses; congruence.
  - (* Initialise *)
    destruct (created handle heap) as [heap1|] eqn:Hc; [|discriminate].
    destruct (created_owned heap heap1 handle Howned Hc)
      as (Ho & Hs & Hn & Hl & Hfresh).
    unfold handle_constructor in Huse. rewrite Ho in Huse.
    destruct (object heap this) eqn:Hthis; [discriminate|].
    injection Huse as <-. unfold owned. cbn [live stale_destroys].
    split; [|split; [|split; [|split; [exact Hn|exact Hs]]]].
    + intros a b h. rewrite !object_set_object, Ho. intros Ha Hb Hv.
      addresses; handles; exfalso; eapply Hfresh; eauto.
    + intros a h. rewrite !object_set_object, Ho. intros Ha Hv. apply Hl.
      addresses; handles.
    + intros x Hx. apply Hl in Hx as [Hx|[Hv ->]].
      * destruct (J3 x Hx) as [Hv [a Ha]]. split; [exact Hv|]. exists a.
        rewrite object_set_object, Ho. addresses; handles.
      * split; [exact Hv|]. exists this.
        rewrite object_set_object, Nat.eqb_refl. reflexivity.
  - (* Assign *)
    destruct (created handle heap) as [heap1|] eqn:Hc; [|discriminate].
    destruct (created_owned heap heap1 handle Howned Hc)
      as (Ho & Hs & Hn & Hl & Hfresh).
    unfold handle_assignment in Huse. rewrite Ho in Huse.
    destruct (object heap this) as [mine|] eqn:Hthis; [|discriminate].
    injection Huse as <-.
    destruct (release_spec heap1 mine) as (Ro & Rs & Rn & Rl).
    { intros Hv. apply Hl. left. apply (J2 this); assumption. }
    unfold owned. cbn [live stale_destroys].
    split; [|split; [|split; [|split; [apply Rn, Hn|exact (eq_trans Rs Hs)]]]].
    + intros a b h. rewrite !object_set_object, Ro, Ho. intros Ha Hb Hv.
      addresses; handles; exfalso; eapply Hfresh; eauto.
    + intros a h. rewrite !object_set_object, Ro, Ho. intros Ha Hv.
      apply Rl. rewrite Hl.
      addresses; handles.
      * split; [right; auto|]. intros Hm E. subst.
        eapply Hfresh; eauto.
      * split; [left; eauto|]. intros Hm E. subst. eauto.
    + intros x Hx. apply Rl in Hx as [Hx Hne]. apply Hl in Hx as [Hx|[Hv ->]].
      * destruct (J3 x Hx) as [Hv [a Ha]]. split; [exact Hv|]. exists a.
        rewrite object_set_object, Ro, Ho. addresses; handles.
        exfalso. apply Hne; congruence.
      * split; [exact Hv|]. exists this.
        rewrite object_set_object, Nat.eqb_refl. reflexivity.
  - (* MoveTo *)
    unfold move_constructor in Huse.
    destruct (object heap this) eqn:Hthis; [discriminate|].
    destruct (object heap original) as [theirs|] eqn:Horiginal; [|discriminate].
    injection Huse as <-. unfold owned. cbn [live stale_destroys].
    split; [|split; [|split; [|split; [exact J4|exact J5]]]].
    + intros a b h. rewrite !object_set_object. intros Ha Hb Hv.
      addresses; handles; owner_clash J1.
    + intros a h. rewrite !object_set_object. intros Ha Hv.
      addresses; handles.
    + intros x Hx. destruct (J3 x Hx) as [Hv [a Ha]]. split; [exact Hv|].
      destruct (Nat.eqb_spec a original) as [->|Hne].
      * exists this. rewrite !object_set_object, Nat.eqb_refl.
        addresses; handles.
      * exists a. rewrite !object_set_object. addresses; handles.
  - (* MoveAssign *)
    unfold move_assignment in Huse.
    destruct (object heap this) as [mine|] eqn:Hthis; [|discriminate].
    destruct (object heap original) as [theirs|] eqn:Horiginal; [|discriminate].
    cbv zeta in Huse.
    destruct (release_spec heap mine) as (Ro & Rs & Rn & Rl).
    { intros Hv. apply (J2 this); assumption. }
    rewrite Ro, Horiginal in Huse. injection Huse as <-.
    unfold owned. cbn [live stale_destroys].
    split; [|split; [|split; [|split; [apply Rn, J4|exact (eq_trans Rs J5)]]]].
    + intros a b h. rewrite !object_set_object, Ro. intros Ha Hb Hv.
      addresses; handles; owner_clash J1.
    + intros a h. rewrite !object_set_object, Ro. intros Ha Hv. apply Rl.
      addresses; handles.
      * split; [eauto|]. intros Hm E. subst. owner_clash J1.
      * split; [eauto|]. intros Hm E. subst. owner_clash J1.
    + intros x Hx. apply Rl in Hx as [Hx Hne].
      destruct (J3 x Hx) as [Hv [a Ha]]. split; [exact Hv|].
      destruct (Nat.eqb_spec a this) as [->|Hat].
      { exfalso. assert (x = mine) by congruence. subst. apply Hne; auto. }
      destruct (Nat.eqb_spec a original) as [->|Hao].
      * exists this. rewrite !object_set_object, Ro, Nat.eqb_refl.
        addresses; handles.
      * exists a. rewrite !object_set_object, Ro. addresses; handles.
  - (* EndOfScope *)
    unfold destructor in Huse.
    destruct (object heap this) as [mine|] eqn:Hthis; [|discriminate].
    injection Huse as <-.
    destruct (release_spec heap mine) as (Ro & Rs & Rn & Rl).
    { intros Hv. apply (J2 this); assumption. }
    unfold owned. cbn [live stale_destroys].
    split; [|split; [|split; [|split; [apply Rn, J4|exact (eq_trans Rs J5)]]]].
    + intros a b h. rewrite !object_set_object, Ro. intros Ha Hb Hv.
      addresses; handles.
    + intros a h. rewrite !object_set_object, Ro. intros Ha Hv. apply Rl.
      addresses; handles.
      split; [eauto|]. intros Hm E. subst. owner_clash J1.
    + intros x Hx. apply Rl in Hx as [Hx Hne].
      destruct (J3 x Hx) as [Hv [a Ha]]. split; [exact Hv|].
      destruct (Nat.eqb_spec a this) as [->|Hat].
      { exfalso. assert (x = mine) by congruence. subst. apply Hne; auto. }
      exists a. rewrite !object_set_object, Ro. addresses; handles.
Qed.

Lemma empty_heap_owned : owned empty_heap.
Proof.
  unfold owned, empty_heap. cbn.
  split; [discriminate|]. split; [discriminate|].
  split; [contradiction|]. split; [constructor|reflexivity].
Qed.

Lemma uses_owned (l : list Use) :
  forall heap heap', owned heap -> uses l heap = Some heap' -> owned heap'.
Proof.
  induction l as [|u r IH]; intros heap heap' Howned Huses; cbn [uses] in Huses.
  - injection Huses as <-. exact Howned.
  - destruct (use u heap) as [heap1|] eqn:Hu; [|discriminate].
    apply (IH heap1); [apply (use_owned u heap); assumption|exact Huses].
Qed.

(** X19. However the wrappers are declared, initialised with or assigned
    the results of [bgfx::create...] calls, moved, move-assigned (to
    themselves too) and destroyed, [HandleWrapper] keeps every handle with
    exactly one owner: no two wrappers hold the same valid handle, the valid
    handle of a wrapper is alive, every handle that is alive has a wrapper,
    and [bgfx::destroy] is never called on a handle that is not alive, so no
    handle is destroyed twice. *)
Theorem handle_wrapper_single_owner :
  forall (l : list Use) (heap : Heap),
    uses l empty_heap = Some heap ->
    (forall a b handle,
       object heap a = Some handle -> object heap b = Some handle ->
       isValid handle = true -> a = b)
    /\ (forall a handle,
          object heap a = Some handle -> isValid handle = true ->
          In handle (live heap))
    /\ (forall handle,
          In handle (live heap) ->
          isValid handle = true /\ exists a, object heap a = Some handle)
    /\ NoDup (live heap)
    /\ stale_destroys heap = [].
Proof.
  intros l heap H. exact (uses_owned l empty_heap heap empty_heap_owned H).
Qed.

Lemma handle_wrapper_single_owner_witness :
  uses wrappers_in_use empty_heap = Some (heap_after wrappers_in_use)
  /\ stale_destroys (heap_after wrappers_in_use) = []
  /\ live (heap_after wrappers_in_use) = [9]
  /\ map (object (heap_after wrappers_in_use)) [0; 1; 2; 3]%nat =
     [Some BGFX_INVALID_HANDLE; Some BGFX_INVALID_HANDLE;
      Some BGFX_INVALID_HANDLE; Some 9].
Proof.
  assert (H : uses wrappers_in_use empty_heap = Some (heap_after wrappers_in_use))
    by reflexivity.
  split; [exact H|]. split.
  - exact (proj2 (proj2 (proj2 (proj2
             (handle_wrapper_single_owner wrappers_in_use
                (heap_after wrappers_in_use) H))))).
  - split; reflexivity.
Defined.

(** X20. Nothing leaks: once every wrapper has been destroyed, no handle
    that was given to one is alive. *)
Theorem handle_wrapper_no_leak :
  forall (l : list Use) (heap : Heap),
    uses l empty_heap = Some heap ->
    (forall a, object heap a = None) ->
    live heap = [].
Proof.
  intros l heap H Hnone.
  destruct (uses_owned l empty_heap heap empty_heap_owned H)
    as (_ & _ & J3 & _).
  destruct (live heap) as [|handle r] eqn:E; [reflexivity|].
  destruct (J3 handle (or_introl eq_refl)) as [_ [a Ha]].
  rewrite Hnone in Ha. discriminate.
Qed.

Lemma handle_wrapper_no_leak_witness :
  uses wrappers_gone empty_heap = Some (heap_after wrappers_gone)
  /\ (forall a, object (heap_after wrappers_gone) a = None)
  /\ live (heap_after wrappers_gone) = [].
Proof.
  assert (H : uses wrappers_gone empty_heap = Some (heap_after wrappers_gone))
    by reflexivity.
  assert (Hnone : forall a, object (heap_after wrappers_gone) a = None).
  { intros a. cbn. destruct a as [|[|a]]; reflexivity. }
  split; [exact H|]. split; [exact Hnone|].
  exact (handle_wrapper_no_leak wrappers_gone (heap_after wrappers_gone) H Hnone).
Defined.

Lemma int32_small (n : Z) : 0 <= n <= 65535 -> int32 n = n.
Proof. intros H. unfold int32. rewrite Z.mod_small; lia. Qed.

Lemma keeps_bind_value {A B : Type} (P : list Event -> Prop) (Q : A -> Prop)
    (m : M A) (k : A -> M B) :
  keeps P m -> (forall s s' a, m s = (s', Value a) -> Q a) ->
  (forall a, Q a -> keeps P (k a)) -> keeps P (bind m k).
Proof.
  intros Hm Hq Hk s H. unfold bind. specialize (Hm s H).
  destruct (m s) as [s1 [a|code]] eqn:E; simpl in *.
  - apply (Hk a); [apply (Hq s s1 a E)|exact Hm].
  - exact Hm.
Qed.

(** The surface a read back makes has the size it was asked for. *)
Lemma read_back_surface_size (W : World) (source : Texture)
    (size image_size : Z) (no_texture no_surface : string)
    (s s' : St) (surface : Surface) :
  read_back_surface W source size image_size no_texture no_surface s =
    (s', Value surface) ->
  width surface = image_size /\ height surface = image_size.
Proof.
  unfold read_back_surface, create, bind, get_view, call, emit, readTexture.
  destruct (require _ no_texture _) as [s1 [[]|code]]; [|discriminate].
  destruct (wait_until_available _ _) as [s2 [n|code]]; [|discriminate].
  destruct (require _ no_surface _) as [s3 [[]|code]]; [|discriminate].
  unfold pure. intros E. injection E as _ <-. split; reflexivity.
Qed.

(** X21. The levels compressed into the irradiance and the prefilter
    container are as large as their place in the container says: for output
    files with different names and sizes as [main] lets them through, every
    level written to the irradiance file is level 0 with the irradiance size
    as width and height, and every level [k] written to the prefilter file
    has the prefilter size halved [k] times as width and height. *)
Theorem cube_map_levels_sized (W : World) (input output : string)
    (output_size : Z) (output_irradiance : string) (irradiance_size : Z)
    (output_prefilter : string) (prefilter_size : Z)
    (compression : Compression) :
  output <> output_irradiance -> output <> output_prefilter ->
  output_irradiance <> output_prefilter ->
  1 <= irradiance_size <= 65535 -> 1 <= prefilter_size <= 65535 ->
  Forall (level_sized output_irradiance irradiance_size output_prefilter
            prefilter_size)
    (fst (run (compile_cube_map W input output output_size output_irradiance
                 irradiance_size output_prefilter prefilter_size compression))).
Proof.
  intros Hoi Hop Hip Hi Hp.
  apply (keeps_run (Forall _)); [|constructor].
  unfold compile_cube_map.
  apply keeps_bind;
    [unfold initialize;
     keeps_steps W fail ltac:(apply stable_Forall; simpl; auto)|intros _].
  apply keeps_bind;
    [unfold load_hdr;
     keeps_steps W fail ltac:(apply stable_Forall; simpl; auto)|intros [w h]].
  apply keeps_bind;
    [unfold create_resources, create_program;
     keeps_steps W fail ltac:(apply stable_Forall; simpl; auto)|intros _].
  apply keeps_bind;
    [unfold capture_cube_sides, render_pass;
     keeps_steps W fail ltac:(apply stable_Forall; simpl; auto)|intros _].
  apply keeps_bind;
    [unfold compress_cube_map, compress_mip_chain, read_back_surface;
     keeps_steps W fail
       ltac:(apply stable_Forall; simpl; auto; split; intros; congruence)
    |intros _].
  apply keeps_bind;
    [unfold render_cube_map, render_pass;
     keeps_steps W fail ltac:(apply stable_Forall; simpl; auto)|intros _].
  apply keeps_bind;
    [unfold render_irradiance, render_pass, create_program;
     keeps_steps W fail ltac:(apply stable_Forall; simpl; auto)|intros _].
  apply keeps_bind; [|intros _].
  { unfold compress_irradiance.
    rewrite (int32_small irradiance_size) by lia.
    apply keeps_bind;
      [keeps_steps W fail ltac:(apply stable_Forall; simpl; auto)|intros _].
    apply keeps_bind;
      [keeps_steps W fail ltac:(apply stable_Forall; simpl; auto)|intros ok].
    apply keeps_bind;
      [keeps_steps W fail ltac:(apply stable_Forall; simpl; auto)|intros _].
    apply keeps_for_each. intros side.
    apply (keeps_bind_value _
             (fun surface => width surface = irradiance_size
                             /\ height surface = irradiance_size)).
    - unfold read_back_surface.
      keeps_steps W fail ltac:(apply stable_Forall; simpl; auto).
    - intros s s' surface. apply read_back_surface_size.
    - intros surface [Hw Hh].
      keeps_steps W fail
        ltac:(apply stable_Forall; simpl; auto; split; intros;
              [auto|congruence]). }
  apply keeps_bind;
    [unfold render_prefilter, render_pass, create_program;
     keeps_steps W fail ltac:(apply stable_Forall; simpl; auto)|intros _].
  apply keeps_bind; [|intros _; apply keeps_return].
  unfold compress_prefilter.
  rewrite (uint16_small prefilter_size) by lia.
  apply keeps_bind;
    [keeps_steps W fail ltac:(apply stable_Forall; simpl; auto)|intros _].
  apply keeps_bind;
    [keeps_steps W fail ltac:(apply stable_Forall; simpl; auto)|intros ok].
  apply keeps_bind;
    [keeps_steps W fail ltac:(apply stable_Forall; simpl; auto)|intros _].
  apply keeps_for_each. intros side.
  apply keeps_for_each_in. intros [size mip_level] Hin.
  destruct (mip_sizes_in prefilter_size size mip_level ltac:(lia) Hin)
    as [_ ->].
  apply (keeps_bind_value _
           (fun surface =>
              width surface = mip_size prefilter_size mip_level
              /\ height surface = mip_size prefilter_size mip_level)).
  - unfold read_back_surface.
    keeps_steps W fail ltac:(apply stable_Forall; simpl; auto).
  - intros s s' surface. apply read_back_surface_size.
  - intros surface [Hw Hh].
    keeps_steps W fail
      ltac:(apply stable_Forall; simpl; auto; split; intros;
            [congruence|auto]).
Qed.

Lemma cube_map_levels_sized_witness :
  "out"%string <> "irradiance"%string /\ "out"%string <> "prefilter"%string /\
  "irradiance"%string <> "prefilter"%string /\
  1 <= 1 <= 65535 /\ 1 <= 2 <= 65535 /\
  Forall (level_sized "irradiance" 1 "prefilter" 2)
    (fst (run (compile_cube_map (test_world None (Some hdr_3x5) always)
                 "in" "out" 2 "irradiance" 1 "prefilter" 2 GOOD_BUT_SLOW))).
Proof.
  assert (H1 : "out"%string <> "irradiance"%string) by discriminate.
  assert (H2 : "out"%string <> "prefilter"%string) by discriminate.
  assert (H3 : "irradiance"%string <> "prefilter"%string) by discriminate.
  assert (H4 : 1 <= 1 <= 65535) by lia.
  assert (H5 : 1 <= 2 <= 65535) by lia.
  split; [exact H1|]. split; [exact H2|]. split; [exact H3|].
  split; [exact H4|]. split; [exact H5|].
  exact (cube_map_levels_sized (test_world None (Some hdr_3x5) always)
           "in"%string "out"%string 2 "irradiance"%string 1
           "prefilter"%string 2 GOOD_BUT_SLOW H1 H2 H3 H4 H5).
Defined.

(* ===================================================================== *)
(** ** The passes that prefilter the cube map *)
(* ===================================================================== *)

Section Produces.

Context {B : Type}.
Variable proj : Event -> list B.
Variable W : World.

Lemma produces_pure {A : Type} (a : A) : produces proj (pure a) [].
Proof. intros s. exists []. simpl. rewrite app_nil_r. auto. Qed.

Lemma produces_return_1 {A : Type} (F : list B) :
  produces proj (@return_ A 1) F.
Proof.
  intros s. exists []. simpl. rewrite app_nil_r.
  split; [reflexivity|]. split; [reflexivity|apply prefix_nil].
Qed.

Lemma produces_emit (e : Event) : produces proj (emit e) (proj e).
Proof.
  intros s. exists (proj e). simpl.
  rewrite flat_map_app. simpl. rewrite app_nil_r. auto.
Qed.

Lemma produces_call (e : Event) : produces proj (call W e) (proj e).
Proof.
  intros s. exists (proj e). simpl.
  rewrite flat_map_app. simpl. rewrite app_nil_r. auto.
Qed.

Lemma produces_bind {A C : Type} (m : M A) (k : A -> M C) (F1 F2 : list B) :
  produces proj m F1 -> (forall a, produces proj (k a) F2) ->
  produces proj (bind m k) (F1 ++ F2).
Proof.
  intros Hm Hk s. unfold bind.
  destruct (Hm s) as [p1 [Ht1 Hr1]].
  destruct (m s) as [s1 [a|code]]; simpl in *.
  - subst p1. destruct (Hk a s1) as [p2 [Ht2 Hr2]].
    exists (F1 ++ p2). rewrite Ht2, Ht1, app_assoc. split; [reflexivity|].
    destruct (snd (k a s1)).
    + subst p2. reflexivity.
    + destruct Hr2 as [-> Hp]. split; [reflexivity|]. apply prefix_app_l, Hp.
  - exists p1. split; [exact Ht1|]. destruct Hr1 as [-> Hp].
    split; [reflexivity|]. apply prefix_app_r, Hp.
Qed.

Lemma produces_bind_nil {A C : Type} (m : M A) (k : A -> M C) (F : list B) :
  produces proj m [] -> (forall a, produces proj (k a) F) ->
  produces proj (bind m k) F.
Proof. intros Hm Hk. apply (produces_bind m k [] F); assumption. Qed.

Lemma produces_require (ok : bool) (message : string) :
  proj (EvPrint message) = [] -> produces proj (require ok message) [].
Proof.
  intros Hp. destruct ok; simpl.
  - apply produces_pure.
  - apply (produces_bind_nil (print message)).
    + unfold print. rewrite <- Hp. apply produces_emit.
    + intros _. apply produces_return_1.
Qed.

Lemma produces_require_quiet (ok : bool) : produces proj (require_quiet ok) [].
Proof. destruct ok; simpl; [apply produces_pure|apply produces_return_1]. Qed.

Lemma produces_create (e : Event) (message : string) :
  proj e = [] -> proj (EvPrint message) = [] ->
  produces proj (create W e message) [].
Proof.
  intros He Hp. unfold create.
  apply (produces_bind_nil (call W e)).
  - rewrite <- He. apply produces_call.
  - intros ok. apply produces_require, Hp.
Qed.

Lemma produces_for_each {A : Type} (l : list A) (body : A -> M unit)
    (F : A -> list B) :
  (forall x, produces proj (body x) (F x)) ->
  produces proj (for_each l body) (flat_map F l).
Proof.
  intros Hbody. induction l as [|x r IH]; simpl.
  - apply produces_pure.
  - apply produces_bind; [apply Hbody|]. intros _. exact IH.
Qed.

Lemma produces_for_each_nil {A : Type} (l : list A) (body : A -> M unit) :
  (forall x, produces proj (body x) []) -> produces proj (for_each l body) [].
Proof.
  intros Hbody. induction l as [|x r IH]; simpl.
  - apply produces_pure.
  - apply produces_bind_nil; [apply Hbody|]. intros _. exact IH.
Qed.

Lemma produces_fold_each_nil {A V : Type} (l : list A) (body : V -> A -> M V) :
  (forall v x, produces proj (body v x) []) ->
  forall v, produces proj (fold_each l body v) [].
Proof.
  intros Hbody. induction l as [|x r IH]; intros v; simpl.
  - apply produces_pure.
  - apply produces_bind_nil; [apply Hbody|]. intros v'. apply IH.
Qed.

Lemma produces_get_view : produces proj get_view [].
Proof. intros s. exists []. simpl. rewrite app_nil_r. auto. Qed.

Lemma produces_next_view : produces proj next_view [].
Proof. intros s. exists []. simpl. rewrite app_nil_r. auto. Qed.

Lemma produces_readTexture :
  (forall frame_id, proj (EvReadTexture frame_id) = []) ->
  produces proj (readTexture W) [].
Proof.
  intros Hp s. exists []. simpl.
  rewrite flat_map_app. simpl. rewrite Hp. auto.
Qed.

Lemma silent_frames (frames : list Z) :
  (forall n, proj (EvFrame n) = []) ->
  flat_map proj (map EvFrame frames) = [].
Proof.
  intros Hp. induction frames as [|x r IH]; [reflexivity|].
  cbn [map flat_map]. rewrite Hp, IH. reflexivity.
Qed.

Lemma produces_wait_until_available (frame_id : Z) :
  (forall n, proj (EvFrame n) = []) ->
  produces proj (wait_until_available frame_id) [].
Proof.
  intros Hp s. exists [].
  destruct (wait_until_available_spec frame_id s) as (frames & n & Ht & _ & Hr & _).
  rewrite Ht, Hr, flat_map_app.
  rewrite (silent_frames _ Hp). auto.
Qed.

Lemma completes_return_0 {A : Type} : completes proj (@return_ A 0) [].
Proof.
  intros s. exists []. simpl. rewrite app_nil_r. split; [reflexivity|].
  left. auto.
Qed.

Lemma completes_bind {A C : Type} (m : M A) (k : A -> M C) (F1 F2 : list B) :
  produces proj m F1 -> (forall a, completes proj (k a) F2) ->
  completes proj (bind m k) (F1 ++ F2).
Proof.
  intros Hm Hk s. unfold bind.
  destruct (Hm s) as [p1 [Ht1 Hr1]].
  destruct (m s) as [s1 [a|code]]; simpl in *.
  - subst p1. destruct (Hk a s1) as [p2 [Ht2 Hr2]].
    exists (F1 ++ p2). rewrite Ht2, Ht1, app_assoc. split; [reflexivity|].
    destruct Hr2 as [[Hr ->]|[Hr Hp]].
    + left. auto.
    + right. split; [exact Hr|]. apply prefix_app_l, Hp.
  - exists p1. split; [exact Ht1|]. destruct Hr1 as [-> Hp].
    right. split; [reflexivity|]. apply prefix_app_r, Hp.
Qed.

Lemma completes_bind_nil {A C : Type} (m : M A) (k : A -> M C) (F : list B) :
  produces proj m [] -> (forall a, completes proj (k a) F) ->
  completes proj (bind m k) F.
Proof. intros Hm Hk. apply (completes_bind m k [] F); assumption. Qed.

Lemma completes_run (m : M unit) (F : list B) :
  completes proj m F ->
  (snd (run m) = 0 /\ flat_map proj (fst (run m)) = F) \/
  (snd (run m) = 1 /\ prefix (flat_map proj (fst (run m))) F).
Proof.
  intros H. destruct (H initial) as [p [Ht Hr]]. unfold run.
  destruct (m initial) as [s r]; simpl in *.
  destruct Hr as [[-> ->]|[-> Hp]]; [left|right]; rewrite Ht; auto.
Qed.

End Produces.

(** Steps in which no selected event occurs. *)
Ltac produces_step :=
  lazymatch goal with
  | |- produces _ (pure _) _ => apply produces_pure
  | |- produces _ (return_ _) _ => apply produces_return_1
  | |- produces _ (require _ _) _ => apply produces_require; reflexivity
  | |- produces _ (require_quiet _) _ => apply produces_require_quiet
  | |- produces _ get_view _ => apply produces_get_view
  | |- produces _ next_view _ => apply produces_next_view
  | |- produces _ (readTexture _) _ => apply produces_readTexture; reflexivity
  | |- produces _ (wait_until_available _) _ =>
      apply produces_wait_until_available; reflexivity
  | |- produces _ (create _ _ _) _ => apply produces_create; reflexivity
  | |- produces ?proj (emit ?e) [] => exact (produces_emit proj e)
  | |- produces _ (print _) _ => unfold print
  | |- produces ?proj (call ?W ?e) [] => exact (produces_call proj W e)
  | |- produces _ (bind _ _) _ => apply produces_bind_nil; [|intros]
  | |- produces _ (for_each _ _) _ => apply produces_for_each_nil; intros
  | |- produces _ (fold_each _ _ _) _ => apply produces_fold_each_nil; intros
  | |- produces _ (if ?b then _ else _) _ => destruct b
  | |- produces _ (match ?x with _ => _ end) _ => destruct x
  end.

Ltac produces_silent := repeat (cbv beta zeta; produces_step).

Lemma for_each_map {A C : Type} (f : A -> C) (l : list A) (body : C -> M unit) :
  for_each (map f l) body = for_each l (fun x => body (f x)).
Proof.
  induction l as [|x r IH]; [reflexivity|].
  cbn [map for_each]. rewrite IH. reflexivity.
Qed.

Section PrefilterPasses.

Variable W : World.

Lemma produces_render_prefilter (prefilter_size output_size : Z) :
  1 <= prefilter_size <= 65535 ->
  produces prefilter_pass (render_prefilter W prefilter_size output_size)
    (expected_prefilter_passes prefilter_size output_size).
Proof.
  intros Hsize. unfold render_prefilter, expected_prefilter_passes.
  unfold uint16. rewrite Z.mod_small by lia.
  apply produces_bind_nil; [produces_silent|intros _].
  apply produces_bind_nil; [unfold create_program; produces_silent|intros _].
  apply produces_bind_nil; [produces_silent|intros _].
  rewrite mip_sizes_halving, count_mip_maps_log2, Z.add_0_l by lia.
  apply produces_for_each. intros side.
  rewrite for_each_map, <- flat_map_singleton.
  apply produces_for_each. intros mip_level.
  cbv beta iota. rewrite Z.sub_0_r.
  rewrite <- (app_nil_r [_]).
  apply produces_bind; [|intros _; apply produces_next_view].
  unfold render_pass.
  apply produces_bind_nil; [apply produces_get_view|intros view].
  apply produces_bind_nil; [produces_silent|intros _].
  exact (produces_emit prefilter_pass (EvSubmit _ _ _ _ _ _ _ _)).
Qed.

Lemma compile_cube_map_prefilter_passes (input output : string)
    (output_size : Z) (output_irradiance : string) (irradiance_size : Z)
    (output_prefilter : string) (prefilter_size : Z)
    (compression : Compression) :
  1 <= prefilter_size <= 65535 ->
  completes prefilter_pass
    (compile_cube_map W input output output_size output_irradiance
       irradiance_size output_prefilter prefilter_size compression)
    (expected_prefilter_passes prefilter_size output_size).
Proof.
  intros Hsize. unfold compile_cube_map.
  apply completes_bind_nil; [unfold initialize; produces_silent|intros _].
  apply completes_bind_nil; [unfold load_hdr; produces_silent|intros [w h]].
  apply completes_bind_nil;
    [unfold create_resources, create_program; produces_silent|intros _].
  apply completes_bind_nil;
    [unfold capture_cube_sides, render_pass; produces_silent|intros _].
  apply completes_bind_nil;
    [unfold compress_cube_map, compress_mip_chain, read_back_surface;
     produces_silent|intros _].
  apply completes_bind_nil;
    [unfold render_cube_map, render_pass; produces_silent|intros _].
  apply completes_bind_nil;
    [unfold render_irradiance, render_pass, create_program; produces_silent
    |intros _].
  apply completes_bind_nil;
    [unfold compress_irradiance, read_back_surface; produces_silent|intros _].
  rewrite <- (app_nil_r (expected_prefilter_passes _ _)).
  apply completes_bind;
    [apply produces_render_prefilter; exact Hsize|intros _].
  apply completes_bind_nil;
    [unfold compress_prefilter, read_back_surface; produces_silent|intros _].
  apply completes_return_0.
Qed.

End PrefilterPasses.

(** C8. At mip level [m] the prefilter pass gets the roughness
    [min(m, 4) / 4], computed in single precision and exact (four times the
    roughness is [min(m, 4)]); it does not decrease with [m] and is 1 from
    level 4 on; the second component of the same uniform is [output_size].
    Every prefilter pass of every run of [compile_cube_map] is submitted
    with these settings for the mip level of its render target.  And the
    passes are submitted: for a prefilter size as [main] lets it through, a
    run that returns 0 has submitted, with the prefilter program, exactly one
    pass for each side 0..5 and each mip level [m] below
    [count_mip_maps prefilter_size], side by side and level by level, into
    the prefilter texture of that side and level, over a square of
    [prefilter_size / 2 ^ m], reading the cube map, with
    [prefilter_settings m output_size] as its settings; a run that returns 1
    has submitted a first part of these passes. *)
Theorem prefilter_roughness_by_mip :
  (forall m output_size,
     prefilter_settings m output_size =
     [F32.div (F32.of_Z (Z.min m MAX_MIP_LEVELS)) (F32.of_Z MAX_MIP_LEVELS);
      F32.of_Z output_size; F32.zero; F32.zero])
  /\ (forall m, 0 <= m ->
        F32.mul (roughness m) (F32.of_Z MAX_MIP_LEVELS) =
        F32.of_Z (Z.min m MAX_MIP_LEVELS))
  /\ (forall m n, 0 <= m <= n -> F32.leb (roughness m) (roughness n) = true)
  /\ (forall m, MAX_MIP_LEVELS <= m -> roughness m = F32.one)
  /\ (forall (W : World) (input output : string) (output_size : Z)
        (output_irradiance : string) (irradiance_size : Z)
        (output_prefilter : string) (prefilter_size : Z)
        (compression : Compression),
      Forall (prefilter_pass_settings output_size)
        (fst (run (compile_cube_map W input output output_size
                     output_irradiance irradiance_size output_prefilter
                     prefilter_size compression))))
  /\ forall (W : World) (input output : string) (output_size : Z)
        (output_irradiance : string) (irradiance_size : Z)
        (output_prefilter : string) (prefilter_size : Z)
        (compression : Compression),
      1 <= prefilter_size <= 65535 ->
      prefix
        (prefilter_passes
           (fst (run (compile_cube_map W input output output_size
                        output_irradiance irradiance_size output_prefilter
                        prefilter_size compression))))
        (expected_prefilter_passes prefilter_size output_size)
      /\ (snd (run (compile_cube_map W input output output_size
                      output_irradiance irradiance_size output_prefilter
                      prefilter_size compression)) = 0 ->
          prefilter_passes
            (fst (run (compile_cube_map W input output output_size
                         output_irradiance irradiance_size output_prefilter
                         prefilter_size compression))) =
          expected_prefilter_passes prefilter_size output_size).
Proof.
  destruct roughness_exact_and_monotone as (Hformula & Hexact & Hmonotone & Hcap).
  split; [exact Hformula|]. split; [exact Hexact|].
  split; [exact Hmonotone|]. split; [exact Hcap|].
  split; [exact compile_cube_map_prefilter_settings|].
  intros W input output output_size output_irradiance irradiance_size
    output_prefilter prefilter_size compression Hsize.
  unfold prefilter_passes.
  destruct (completes_run _ _ _
              (compile_cube_map_prefilter_passes W input output output_size
                 output_irradiance irradiance_size output_prefilter
                 prefilter_size compression Hsize)) as [[_ H]|[Hc H]].
  - rewrite H. split; [apply prefix_refl|reflexivity].
  - split; [exact H|]. intros H0. rewrite H0 in Hc. discriminate.
Qed.

Lemma prefilter_roughness_by_mip_witness :
  1 <= 2 <= 65535 /\
  prefilter_passes
    (fst (run (compile_cube_map (test_world None (Some hdr_3x5) always)
                 "in" "out" 2 "irradiance" 1 "prefilter" 2 GOOD_BUT_SLOW))) =
  expected_prefilter_passes 2 2.
Proof.
  assert (Hsize : 1 <= 2 <= 65535) by lia.
  split; [exact Hsize|].
  apply (proj2 (proj2 (proj2 (proj2 (proj2 (proj2 prefilter_roughness_by_mip))))
                 (test_world None (Some hdr_3x5) always)
                 "in"%string "out"%string 2 "irradiance"%string 1
                 "prefilter"%string 2 GOOD_BUT_SLOW Hsize)).
  vm_compute. reflexivity.
Defined.

(** The twelve passes of that run: both levels of each side in turn, level 0
    over 2x2 texels with roughness 0 and level 1 over 1x1 texel with
    roughness 1/4. *)
Example prefilter_passes_of_a_small_cube_map :
  expected_prefilter_passes 2 2 =
  flat_map (fun side =>
              [(whole_texture (prefilter_texture side 0), 2, side,
                cube_map_texture,
                Some [F32.zero; F32.of_Z 2; F32.zero; F32.zero]);
               (whole_texture (prefilter_texture side 1), 1, side,
                cube_map_texture,
                Some [F32.div F32.one (F32.of_Z 4); F32.of_Z 2; F32.zero;
                      F32.zero])])
           [0; 1; 2; 3; 4; 5].
Proof. vm_compute. reflexivity. Qed.
